(** * A shallow embedding of the research orchestrator (src/src/api.ts)

    The development follows the classes of [api.ts]:
    - [Exa]        : [ExaAPIService.search], the search client;
    - [Cerebras]   : [CerebrasAPIService], model health, round-robin
                     selection, prompt truncation and [chatWithCycling];
    - [Specialist] : [SpecialistAgent.executeTask] as a machine that is
                     stepped at every [await], and four of them sharing
                     one seen-URL set;
    - [Lead]       : [LeadResearcher.orchestrateResearch] (start of a run,
                     pre-flight check) and the fact tracking of
                     [synthesizeFindings];
    - [Contents]   : [ExaAPIService.getContents];
    - [Switching]  : [CerebrasAPIService.selectBestAvailableModel];
    - [Results]    : [SpecialistAgent.analyzeFindings], the results of the
                     agents and the check that follows [Promise.all] in
                     [orchestrateResearch];
    - [Synthesis]  : the list of facts in the prompts of
                     [synthesizeFindings] and [validateSourceUtilization];
    - [Fallback]   : [attemptSimpleSynthesis] and
                     [createMultiLLMSynthesis].

    Conventions.  A JavaScript string is a [string]; its characters stand
    for code units.  A promise that settles is a [Settled] value: either
    fulfilled with a result or rejected with an error, and an error is
    represented by its message, the only part of it the program inspects
    ([error instanceof Error ? error.message : String(error)]).  What the
    outside world answers (HTTP responses, clock readings, random draws) is
    an explicit input of the function that consumes it. *)

From Stdlib Require Import ZArith List String Ascii Bool Lia QArith Qround DecimalString.
From Equations Require Import Equations.
From stdpp Require Import base gmap strings list.
Import ListNotations.

Local Open Scope string_scope.
Local Open Scope list_scope.
Local Open Scope Z_scope.

(** ** Settled promises and strings *)

Inductive Settled (A : Type) : Type :=
| Fulfilled (value : A)
| Rejected (message : string).
Arguments Fulfilled {A} value.
Arguments Rejected {A} message.

Definition is_rejected {A} (p : Settled A) : bool :=
  match p with Rejected _ => true | Fulfilled _ => false end.

(** [haystack.includes(needle)] *)
Fixpoint includes (needle haystack : string) : bool :=
  if String.prefix needle haystack then true
  else match haystack with
       | EmptyString => false
       | String _ rest => includes needle rest
       end.

(** Template-literal rendering of an integer: [`${n}`]. *)
Definition string_of_Z (n : Z) : string := NilZero.string_of_int (Z.to_int n).

(** The test every [catch] of the program applies to decide whether an
    error is the fatal quota condition:
    [errorMessage.includes('credits exhausted') || errorMessage.includes('402')]. *)
Definition mentions_quota (errorMessage : string) : bool :=
  includes "credits exhausted" errorMessage || includes "402" errorMessage.

(** White space, as the regular-expression class for blanks and
    [String.prototype.trim] understand it, among the code units below 256. *)
Definition is_space (c : ascii) : bool :=
  let n := nat_of_ascii c in
  ((9 <=? n) && (n <=? 13))%nat || (n =? 32)%nat || (n =? 160)%nat.

Fixpoint trimStart (s : string) : string :=
  match s with
  | String c rest => if is_space c then trimStart rest else s
  | EmptyString => EmptyString
  end.

Fixpoint trimEnd (s : string) : string :=
  match s with
  | String c rest =>
      let rest' := trimEnd rest in
      if is_space c && String.eqb rest' EmptyString then EmptyString else String c rest'
  | EmptyString => EmptyString
  end.

(** [s.trim()] *)
Definition trim (s : string) : string := trimEnd (trimStart s).

(** [s.toLowerCase()] on code units below 256: the letters A to Z and the
    accented capitals 192 to 222, the multiplication sign 215 apart. *)
Definition lower_char (c : ascii) : ascii :=
  let n := nat_of_ascii c in
  if ((65 <=? n) && (n <=? 90))%nat
     || ((192 <=? n) && (n <=? 222) && negb (n =? 215))%nat
  then ascii_of_nat (n + 32) else c.

Fixpoint toLowerCase (s : string) : string :=
  match s with
  | String c rest => String (lower_char c) (toLowerCase rest)
  | EmptyString => EmptyString
  end.

(** [s.split(separator)] for a separator that is a class of single
    characters: the pieces between separators, empty pieces included. *)
Fixpoint split_on (separator : ascii -> bool) (s : string) : list string :=
  match s with
  | EmptyString => [EmptyString]
  | String c rest =>
      if separator c then EmptyString :: split_on separator rest
      else match split_on separator rest with
           | piece :: pieces => String c piece :: pieces
           | [] => [String c EmptyString]
           end
  end.

(** [pieces.join(separator)] *)
Fixpoint join (separator : string) (pieces : list string) : string :=
  match pieces with
  | [] => EmptyString
  | [piece] => piece
  | piece :: rest => piece +:+ separator +:+ join separator rest
  end.

Definition strlen (s : string) : Z := Z.of_nat (String.length s).

(** ** ExaAPIService *)

Module Exa.

(** One entry of [data.results].  [score] is [None] when the field is
    missing. *)
Record SearchResult := {
  url : string;
  title : string;
  text_of : option string;
  score : option Q
}.

(** What the program reads from a [fetch] response.  [ok] is derived from
    the status as the Fetch standard defines it.  [text] and [json] are
    the settled values of [response.text()] and [response.json()];
    [json] carries [data.results], [None] when the field is absent. *)
Record Response := {
  status : Z;
  statusText : string;
  text : Settled string;
  json : Settled (option (list SearchResult))
}.

Definition ok (r : Response) : bool :=
  (200 <=? status r) && (status r <=? 299).

(** Lines written with [console.error]. *)
Inductive Console :=
| ErrorDetails (errorText : string)      (* 'Exa API error details:' *)
| SearchFailed (errorMessage : string).  (* 'Exa search failed:' *)

(** A computation of the [try] block: a settled value and the lines it
    logged. *)
Definition Comp (A : Type) : Type := Settled A * list Console.

Definition ret {A} (a : A) : Comp A := (Fulfilled a, []).
Definition throw {A} (message : string) : Comp A := (Rejected message, []).
Definition log (line : Console) : Comp unit := (Fulfilled tt, [line]).
Definition await {A} (p : Settled A) : Comp A := (p, []).
Definition bind {A B} (c : Comp A) (k : A -> Comp B) : Comp B :=
  match c with
  | (Fulfilled a, out) => let '(r, out') := k a in (r, out ++ out')
  | (Rejected m, out) => (Rejected m, out)
  end.

Notation "'let*' x ':=' c 'in' k" := (bind c (fun x => k))
  (at level 10, x name, c at level 100, k at level 200).
Notation "'run' c 'in' k" := (bind c (fun _ => k))
  (at level 10, c at level 100, k at level 200).

Definition rate_limit_message : string :=
  "Exa API rate limit exceeded. Please wait a moment and try again.".
Definition credits_message : string :=
  "Exa API credits exhausted. Please top up your account at dashboard.exa.ai to continue using the service.".
Definition authentication_message : string :=
  "Exa API authentication failed. Please check your API key.".
Definition forbidden_message : string :=
  "Exa API access forbidden. Please check your API key permissions.".
Definition not_configured_message : string :=
  "Exa API key not configured".

(** [`Exa API error: ${response.status} ${response.statusText}`] *)
Definition api_error_message (response : Response) : string :=
  "Exa API error: " +:+ string_of_Z (status response) +:+ " " +:+ statusText response.

(** [data.results || []] *)
Definition results_or_empty (results : option (list SearchResult)) : list SearchResult :=
  match results with Some l => l | None => [] end.

(** The body of the [try] block of [search].  [proxied] is the settled
    first [fetch]; [direct] is the settled second [fetch], issued only in
    production after a 400. *)
Definition search_try (isProduction : bool)
    (proxied direct : Settled Response) : Comp (list SearchResult) :=
  let* response := await proxied in
  if negb (ok response) then
    let* errorText := await (text response) in
    run log (ErrorDetails errorText) in
    if status response =? 429 then throw rate_limit_message
    else if status response =? 402 then throw credits_message
    else if status response =? 401 then throw authentication_message
    else if status response =? 403 then throw forbidden_message
    else if isProduction && (status response =? 400) then
      let* directResponse := await direct in
      if ok directResponse then
        let* data := await (json directResponse) in
        ret (results_or_empty data)
      else if status directResponse =? 429 then throw rate_limit_message
      else throw (api_error_message response)
    else throw (api_error_message response)
  else
    let* data := await (json response) in
    ret (results_or_empty data).

(** The [catch] block of [search]: log, re-throw the quota condition,
    turn every other error into an empty result. *)
Definition search_catch (attempt : Comp (list SearchResult)) : Comp (list SearchResult) :=
  match attempt with
  | (Fulfilled results, out) => (Fulfilled results, out)
  | (Rejected errorMessage, out) =>
      if mentions_quota errorMessage
      then (Rejected errorMessage, out ++ [SearchFailed errorMessage])
      else (Fulfilled [], out ++ [SearchFailed errorMessage])
  end.

(** [ExaAPIService.search].  The guard on the key is outside the [try].
    [waitForRateLimit] only delays the request and is left out. *)
Definition search (apiKey : string) (isProduction : bool)
    (proxied direct : Settled Response) : Comp (list SearchResult) :=
  if String.eqb apiKey EmptyString then throw not_configured_message
  else search_catch (search_try isProduction proxied direct).

End Exa.

(** ** CerebrasAPIService *)

Module Cerebras.

Definition availableModels : list string :=
  ["llama-3.3-70b"; "llama-3.1-8b"; "llama-4-scout-17b-16e-instruct"; "qwen-3-32b"].

(** The fields of the service that model cycling reads or writes.  The
    JavaScript objects indexed by model name are finite maps; a missing key
    reads as [undefined].  [lastRequestTime], [minDelay], [requestCount],
    [requestWindow], [modelCycleIndex] and [modelChains] belong to
    [waitForRateLimit] and [chatWithModelSwitching], which [chat] never
    calls, and are left out. *)
Record Service := {
  apiKey : string;
  modelRequestCounts : gmap string Z;
  modelRequestWindows : gmap string Z;
  modelHealth : gmap string bool;
  modelFailureCount : gmap string Z;
  modelLastFailure : gmap string Z;
  currentModelIndex : nat;
  lastCycleTime : Z;
  healthyModels : list string;
  lastHealthCheck : Z
}.

(** The field initialisers of the class. *)
Definition new_service : Service := {|
  apiKey := EmptyString;
  modelRequestCounts := ∅;
  modelRequestWindows := ∅;
  modelHealth := ∅;
  modelFailureCount := ∅;
  modelLastFailure := ∅;
  currentModelIndex := 0%nat;
  lastCycleTime := 0;
  healthyModels := availableModels;
  lastHealthCheck := 0
|}.

Definition set_apiKey (v : string) (s : Service) : Service :=
  {| apiKey := v; modelRequestCounts := modelRequestCounts s;
     modelRequestWindows := modelRequestWindows s; modelHealth := modelHealth s;
     modelFailureCount := modelFailureCount s; modelLastFailure := modelLastFailure s;
     currentModelIndex := currentModelIndex s; lastCycleTime := lastCycleTime s;
     healthyModels := healthyModels s; lastHealthCheck := lastHealthCheck s |}.
Definition set_modelRequestCounts (v : gmap string Z) (s : Service) : Service :=
  {| apiKey := apiKey s; modelRequestCounts := v;
     modelRequestWindows := modelRequestWindows s; modelHealth := modelHealth s;
     modelFailureCount := modelFailureCount s; modelLastFailure := modelLastFailure s;
     currentModelIndex := currentModelIndex s; lastCycleTime := lastCycleTime s;
     healthyModels := healthyModels s; lastHealthCheck := lastHealthCheck s |}.
Definition set_modelRequestWindows (v : gmap string Z) (s : Service) : Service :=
  {| apiKey := apiKey s; modelRequestCounts := modelRequestCounts s;
     modelRequestWindows := v; modelHealth := modelHealth s;
     modelFailureCount := modelFailureCount s; modelLastFailure := modelLastFailure s;
     currentModelIndex := currentModelIndex s; lastCycleTime := lastCycleTime s;
     healthyModels := healthyModels s; lastHealthCheck := lastHealthCheck s |}.
Definition set_modelHealth (v : gmap string bool) (s : Service) : Service :=
  {| apiKey := apiKey s; modelRequestCounts := modelRequestCounts s;
     modelRequestWindows := modelRequestWindows s; modelHealth := v;
     modelFailureCount := modelFailureCount s; modelLastFailure := modelLastFailure s;
     currentModelIndex := currentModelIndex s; lastCycleTime := lastCycleTime s;
     healthyModels := healthyModels s; lastHealthCheck := lastHealthCheck s |}.
Definition set_modelFailureCount (v : gmap string Z) (s : Service) : Service :=
  {| apiKey := apiKey s; modelRequestCounts := modelRequestCounts s;
     modelRequestWindows := modelRequestWindows s; modelHealth := modelHealth s;
     modelFailureCount := v; modelLastFailure := modelLastFailure s;
     currentModelIndex := currentModelIndex s; lastCycleTime := lastCycleTime s;
     healthyModels := healthyModels s; lastHealthCheck := lastHealthCheck s |}.
Definition set_modelLastFailure (v : gmap string Z) (s : Service) : Service :=
  {| apiKey := apiKey s; modelRequestCounts := modelRequestCounts s;
     modelRequestWindows := modelRequestWindows s; modelHealth := modelHealth s;
     modelFailureCount := modelFailureCount s; modelLastFailure := v;
     currentModelIndex := currentModelIndex s; lastCycleTime := lastCycleTime s;
     healthyModels := healthyModels s; lastHealthCheck := lastHealthCheck s |}.
Definition set_currentModelIndex (v : nat) (s : Service) : Service :=
  {| apiKey := apiKey s; modelRequestCounts := modelRequestCounts s;
     modelRequestWindows := modelRequestWindows s; modelHealth := modelHealth s;
     modelFailureCount := modelFailureCount s; modelLastFailure := modelLastFailure s;
     currentModelIndex := v; lastCycleTime := lastCycleTime s;
     healthyModels := healthyModels s; lastHealthCheck := lastHealthCheck s |}.
Definition set_lastCycleTime (v : Z) (s : Service) : Service :=
  {| apiKey := apiKey s; modelRequestCounts := modelRequestCounts s;
     modelRequestWindows := modelRequestWindows s; modelHealth := modelHealth s;
     modelFailureCount := modelFailureCount s; modelLastFailure := modelLastFailure s;
     currentModelIndex := currentModelIndex s; lastCycleTime := v;
     healthyModels := healthyModels s; lastHealthCheck := lastHealthCheck s |}.
Definition set_healthyModels (v : list string) (s : Service) : Service :=
  {| apiKey := apiKey s; modelRequestCounts := modelRequestCounts s;
     modelRequestWindows := modelRequestWindows s; modelHealth := modelHealth s;
     modelFailureCount := modelFailureCount s; modelLastFailure := modelLastFailure s;
     currentModelIndex := currentModelIndex s; lastCycleTime := lastCycleTime s;
     healthyModels := v; lastHealthCheck := lastHealthCheck s |}.
Definition set_lastHealthCheck (v : Z) (s : Service) : Service :=
  {| apiKey := apiKey s; modelRequestCounts := modelRequestCounts s;
     modelRequestWindows := modelRequestWindows s; modelHealth := modelHealth s;
     modelFailureCount := modelFailureCount s; modelLastFailure := modelLastFailure s;
     currentModelIndex := currentModelIndex s; lastCycleTime := lastCycleTime s;
     healthyModels := healthyModels s; lastHealthCheck := v |}.

(** Reads with JavaScript's defaults: [counts[model] || 0] and the
    truthiness of [modelHealth[model]]. *)
Definition failures_of (s : Service) (model : string) : Z :=
  default 0 (modelFailureCount s !! model).
Definition lastFailure_of (s : Service) (model : string) : Z :=
  default 0 (modelLastFailure s !! model).
Definition health_of (s : Service) (model : string) : bool :=
  default false (modelHealth s !! model).
Definition requests_of (s : Service) (model : string) : Z :=
  default 0 (modelRequestCounts s !! model).

(** [setApiKey]: store the key and mark every model healthy. *)
Definition init_model (s : Service) (model : string) : Service :=
  set_modelLastFailure (<[model := 0]> (modelLastFailure s))
    (set_modelFailureCount (<[model := 0]> (modelFailureCount s))
      (set_modelHealth (<[model := true]> (modelHealth s)) s)).

Definition setApiKey (key : string) (s : Service) : Service :=
  fold_left init_model availableModels (set_apiKey key s).

(** *** Requests and responses of the chat-completion API *)

Record Message := { role : string; content : string }.

Record Request := { model : string; messages : list Message }.

(** [data.choices[0]?.message?.content] of a parsed body: [NoChoices]
    when [data.choices] cannot be indexed (the access throws), otherwise
    the content, [None] when any link of the optional chain is missing. *)
Inductive Completion :=
| NoChoices
| Choice (content : option string).

Record Response := {
  status : Z;
  statusText : string;
  text : Settled string;
  json : Settled Completion
}.

Definition ok (r : Response) : bool :=
  (200 <=? status r) && (status r <=? 299).

(** The service together with what it has consumed from the outside:
    the number of [Date.now()] readings taken and the requests sent. *)
Record Machine := {
  service : Service;
  readings : nat;
  outbox : list Request
}.

(** *** Prompt preparation *)

Definition newline : string := String (ascii_of_nat 10) EmptyString.
Definition no_think : string := "/no_think" +:+ newline +:+ newline.

(** [preparePromptWithNoThink] *)
Definition preparePromptWithNoThink (prompt model : string) : string :=
  if String.eqb model "qwen-3-32b" then no_think +:+ prompt else prompt.

(** [s.substring(0, n)] *)
Definition substring0 (n : Z) (s : string) : string :=
  String.substring 0 (Z.to_nat n) s.

(** [systemPrompt?.length || 0] *)
Definition optional_length (systemPrompt : option string) : Z :=
  match systemPrompt with Some sp => strlen sp | None => 0 end.

(** The numbers of the truncation step are JavaScript doubles; they are
    computed here over the rationals, where every operation below is
    exact and gives the value the doubles give. *)
Definition estimatedTokens (prompt : string) (systemPrompt : option string) : Q :=
  inject_Z (strlen prompt + optional_length systemPrompt) / (35 # 10).
Definition maxPromptChars : Z := Qfloor (7000 * (35 # 10) * (8 # 10)).
Definition maxSystemChars : Z := Qfloor (7000 * (35 # 10) * (2 # 10)).

Definition over_budget (prompt : string) (systemPrompt : option string) : bool :=
  negb (Qle_bool (estimatedTokens prompt systemPrompt) 7000).

(** The system prompt sent: truncated when the budget is exceeded and the
    prompt is non-empty and longer than its share. *)
Definition adjustedSystemPrompt (prompt : string) (systemPrompt : option string) : option string :=
  if over_budget prompt systemPrompt then
    match systemPrompt with
    | Some sp =>
        if negb (String.eqb sp EmptyString) && (strlen sp >? maxSystemChars)
        then Some (substring0 maxSystemChars sp +:+ "...")
        else Some sp
    | None => None
    end
  else systemPrompt.

(** The user prompt sent. *)
Definition adjustedPrompt (selectedModel prompt : string) (systemPrompt : option string) : string :=
  let prepared := preparePromptWithNoThink prompt selectedModel in
  if over_budget prompt systemPrompt then
    let basePrompt := if String.eqb selectedModel "qwen-3-32b" then prompt else prepared in
    if strlen basePrompt >? maxPromptChars then
      let truncatedBase := substring0 maxPromptChars basePrompt +:+ "..." in
      if String.eqb selectedModel "qwen-3-32b" then no_think +:+ truncatedBase else truncatedBase
    else prepared
  else prepared.

(** [adjustedMessages]: the system message is present when the adjusted
    system prompt is a non-empty string. *)
Definition adjustedMessages (selectedModel prompt : string) (systemPrompt : option string) : list Message :=
  let user := {| role := "user"; content := adjustedPrompt selectedModel prompt systemPrompt |} in
  match adjustedSystemPrompt prompt systemPrompt with
  | Some sp => if String.eqb sp EmptyString then [user]
               else [{| role := "system"; content := sp |}; user]
  | None => [user]
  end.

(** *** Cleaning the answer *)

(** [s.slice(n)] *)
Fixpoint drop_chars (n : nat) (s : string) : string :=
  match n, s with
  | O, _ => s
  | S n', String _ rest => drop_chars n' rest
  | S _, EmptyString => EmptyString
  end.

(** The text that follows the first closing tag of [s], if there is one. *)
Fixpoint after_close (s : string) : option string :=
  if String.prefix "</think>" s then Some (drop_chars 8 s)
  else match s with
       | EmptyString => None
       | String _ rest => after_close rest
       end.

(** Global replacement of every match of the pattern: opening tag, the
    shortest text up to a closing tag, the closing tag and the blanks
    after it.  Each step consumes a character, so [fuel] the length of the
    text is enough. *)
Fixpoint strip_think (fuel : nat) (s : string) : string :=
  match fuel with
  | O => s
  | S fuel' =>
      match s with
      | EmptyString => EmptyString
      | String c rest =>
          if String.prefix "<think>" s then
            match after_close (drop_chars 7 s) with
            | Some tail => strip_think fuel' (trimStart tail)
            | None => String c (strip_think fuel' rest)
            end
          else String c (strip_think fuel' rest)
      end
  end.

(** [removeThinkingTags] *)
Definition removeThinkingTags (content : string) : string :=
  trim (strip_think (String.length content) content).

(** [content || 'No response generated'] *)
Definition content_or_default (content : option string) : string :=
  match content with
  | Some c => if String.eqb c EmptyString then "No response generated" else c
  | None => "No response generated"
  end.

Definition exhausted_message : string :=
  "Cerebras API rate limit exceeded on all available models. Please wait a moment and try again.".
Definition not_configured_message : string := "Cerebras API key not configured".
(** The message of the [TypeError] raised by [data.choices[0]] when
    [data.choices] is missing. *)
Definition no_choices_message : string :=
  "Cannot read properties of undefined (reading '0')".

(** *** The service methods

    [clock n] is the value of the [n]-th call of [Date.now()] and
    [network n request] what the [n]-th [fetch] settles to. *)

Section Environment.

Variable clock : nat -> Z.
Variable network : nat -> Request -> Settled Response.

Definition M (A : Type) : Type := Machine -> A * Machine.

Definition ret {A} (a : A) : M A := fun m => (a, m).
Definition bind {A B} (c : M A) (k : A -> M B) : M B :=
  fun m => let '(a, m') := c m in k a m'.

Notation "'let*' x ':=' c 'in' k" := (bind c (fun x => k))
  (at level 10, x name, c at level 100, k at level 200).
Notation "'run' c 'in' k" := (bind c (fun _ => k))
  (at level 10, c at level 100, k at level 200).

(** [Date.now()] *)
Definition Date_now : M Z := fun m =>
  (clock (readings m),
   {| service := service m; readings := S (readings m); outbox := outbox m |}).

Definition this : M Service := fun m => (service m, m).

Definition update (f : Service -> Service) : M unit := fun m =>
  (tt, {| service := f (service m); readings := readings m; outbox := outbox m |}).

(** [await fetch(apiUrl, ...)] *)
Definition fetch (request : Request) : M (Settled Response) := fun m =>
  (network (length (outbox m)) request,
   {| service := service m; readings := readings m; outbox := outbox m ++ [request] |}).

Definition when (b : bool) (c : M unit) : M unit := if b then c else ret tt.

(** [!this.modelRequestCounts[model]]: the entry is missing or zero. *)
Definition no_requests (s : Service) (model : string) : bool :=
  match modelRequestCounts s !! model with
  | Some n => n =? 0
  | None => true
  end.

Definition open_window (now : Z) (model : string) (s : Service) : Service :=
  set_modelRequestWindows (<[model := now]> (modelRequestWindows s))
    (set_modelRequestCounts (<[model := 0]> (modelRequestCounts s)) s).

(** [now - this.modelRequestWindows[model] > 60000]; the comparison is
    false when the entry is missing. *)
Definition window_expired (now : Z) (s : Service) (model : string) : bool :=
  match modelRequestWindows s !! model with
  | Some start => now - start >? 60000
  | None => false
  end.

Definition canUseModel (model : string) : M bool :=
  let* now := Date_now in
  let* s := this in
  run when (no_requests s model) (update (open_window now model)) in
  let* s := this in
  run when (window_expired now s model) (update (open_window now model)) in
  let* s := this in
  ret (requests_of s model <? 15).

Definition registerModelUsage (model : string) : M unit :=
  let* s := this in
  run when (no_requests s model)
        (let* now := Date_now in update (open_window now model)) in
  update (fun s => set_modelRequestCounts
                     (<[model := requests_of s model + 1]> (modelRequestCounts s)) s).

Definition cooldownTime : Z := 120000.

(** The callback of [availableModels.filter] in [updateHealthyModels]. *)
Definition in_cycle (now : Z) (model : string) : M bool :=
  let* s := this in
  let failures := failures_of s model in
  let lastFailure := lastFailure_of s model in
  if (failures >=? 3) && (now - lastFailure <? cooldownTime) then
    run when (health_of s model)
          (update (fun s => set_modelHealth (<[model := false]> (modelHealth s)) s)) in
    ret false
  else
    run when ((failures >=? 3) && (now - lastFailure >=? cooldownTime))
          (update (fun s => set_modelHealth (<[model := true]> (modelHealth s))
                              (set_modelFailureCount (<[model := 0]> (modelFailureCount s)) s))) in
    let* canUse := canUseModel model in
    let* s := this in
    if negb canUse && health_of s model then ret false
    else ret (health_of s model).

(** [Array.prototype.filter] with a callback that has effects. *)
Fixpoint filterM (p : string -> M bool) (l : list string) : M (list string) :=
  match l with
  | [] => ret []
  | x :: rest =>
      let* keep := p x in
      let* kept := filterM p rest in
      ret (if keep then x :: kept else kept)
  end.

Definition revive (s : Service) (model : string) : Service :=
  set_modelFailureCount (<[model := 0]> (modelFailureCount s))
    (set_modelHealth (<[model := true]> (modelHealth s)) s).

Definition emergency_reset (s : Service) : Service :=
  set_healthyModels availableModels (fold_left revive availableModels s).

Definition updateHealthyModels : M unit :=
  let* now := Date_now in
  let* s := this in
  if now - lastHealthCheck s <? 10000 then ret tt
  else
    run update (set_lastHealthCheck now) in
    let* kept := filterM (in_cycle now) availableModels in
    run update (set_healthyModels kept) in
    when (length kept =? 0)%nat (update emergency_reset).

Definition recordModelFailure (model errorType : string) : M unit :=
  run update (fun s => set_modelFailureCount
                         (<[model := failures_of s model + 1]> (modelFailureCount s)) s) in
  let* now := Date_now in
  run update (fun s => set_modelLastFailure (<[model := now]> (modelLastFailure s)) s) in
  let* s := this in
  when (failures_of s model >=? 3)
    (update (fun s => set_modelHealth (<[model := false]> (modelHealth s)) s)).

(** [this.healthyModels[this.currentModelIndex % this.healthyModels.length]] *)
Definition model_at (s : Service) : string :=
  default EmptyString (healthyModels s !! (currentModelIndex s mod length (healthyModels s))%nat).

Definition getNextModelInCycle : M string :=
  run updateHealthyModels in
  let* s := this in
  if (length (healthyModels s) =? 0)%nat then ret (default EmptyString (availableModels !! 0%nat))
  else
    run update (set_currentModelIndex (S (currentModelIndex s))) in
    ret (model_at s).

(** [waitForCycleTime]: the delay itself changes nothing in the service;
    the time read after it is stored. *)
Definition waitForCycleTime : M unit :=
  let* now := Date_now in
  let* resumed := Date_now in
  update (set_lastCycleTime resumed).

(** [printModelStatus] prints, but its calls of [canUseModel] open and
    reset request windows. *)
Fixpoint forEach (f : string -> M bool) (l : list string) : M unit :=
  match l with
  | [] => ret tt
  | x :: rest => run f x in forEach f rest
  end.

Definition printModelStatus : M unit :=
  let* now := Date_now in
  forEach canUseModel availableModels.

(** The failure label recorded for a non-2xx answer. *)
Definition error_type (response : Response) (errorText : string) : string :=
  if (status response =? 400) && includes "context_length_exceeded" errorText
  then "context_length"
  else if status response =? 404 then "model_not_found"
  else if status response =? 401 then "auth_error"
  else "error_" +:+ string_of_Z (status response).

(** [if (this.modelFailureCount[selectedModel] > 0) ... = 0] *)
Definition reset_on_success (selectedModel : string) : M unit :=
  let* s := this in
  when (match modelFailureCount s !! selectedModel with
        | Some n => n >? 0
        | None => false
        end)
    (update (fun s => set_modelFailureCount
                        (<[selectedModel := 0]> (modelFailureCount s)) s)).

(** The [try] block of [chatWithCycling].  [retry] stands for
    [this.chatWithCycling(prompt, systemPrompt, attemptCount + 1)]; as the
    call is awaited inside the block, its rejection is the block's. *)
Definition try_block (retry : M (Settled string)) (selectedModel prompt : string)
    (systemPrompt : option string) : M (Settled string) :=
  run registerModelUsage selectedModel in
  let* fetched := fetch {| model := selectedModel;
                           messages := adjustedMessages selectedModel prompt systemPrompt |} in
  match fetched with
  | Rejected error => ret (Rejected error)
  | Fulfilled response =>
      if status response =? 429 then
        run recordModelFailure selectedModel "rate_limit" in
        run updateHealthyModels in
        let* s := this in
        if (length (healthyModels s) =? 0)%nat then ret (Rejected exhausted_message)
        else retry
      else if negb (ok response) then
        match text response with
        | Rejected error => ret (Rejected error)
        | Fulfilled errorText =>
            run recordModelFailure selectedModel (error_type response errorText) in
            retry
        end
      else
        match json response with
        | Rejected error => ret (Rejected error)
        | Fulfilled data =>
            run reset_on_success selectedModel in
            match data with
            | NoChoices => ret (Rejected no_choices_message)
            | Choice content =>
                ret (Fulfilled (removeThinkingTags (content_or_default content)))
            end
        end
  end.

(** One activation of [chatWithCycling] past its guard: wait, select,
    run the [try] block, and in the [catch] block record the failure and
    call again. *)
Definition attempt (retry : M (Settled string)) (prompt : string)
    (systemPrompt : option string) : M (Settled string) :=
  run waitForCycleTime in
  let* selectedModel := getNextModelInCycle in
  let* outcome := try_block retry selectedModel prompt systemPrompt in
  match outcome with
  | Fulfilled content => ret (Fulfilled content)
  | Rejected error =>
      run recordModelFailure selectedModel "exception" in
      retry
  end.

Equations chatWithCycling (prompt : string) (systemPrompt : option string)
    (attemptCount : Z) : M (Settled string)
    by wf (Z.to_nat (11 - attemptCount)) lt :=
  chatWithCycling prompt systemPrompt attemptCount with Z_gt_dec attemptCount 10 := {
    | left _ => ret (Rejected exhausted_message)
    | right _ =>
        attempt (chatWithCycling prompt systemPrompt (attemptCount + 1))
                prompt systemPrompt }.
Next Obligation. lia. Qed.

(** [chat] *)
Definition chat (prompt : string) (systemPrompt : option string) : M (Settled string) :=
  let* s := this in
  if String.eqb (apiKey s) EmptyString then ret (Rejected not_configured_message)
  else
    run printModelStatus in
    chatWithCycling prompt systemPrompt 0.

End Environment.

End Cerebras.

(** ** SpecialistAgent *)

Module Specialist.

(** [ResearchSource], without [domain], which the platform's URL parser
    computes from [url] and which nothing below reads. *)
Record ResearchSource := {
  url : string;
  title : string;
  content : string;
  word_count : Z;
  exa_score : Q;
  layer : Z;
  query_used : string;
  relevance_score : Q
}.

(** [getSourceCountForQuery]; [random] is the value of [Math.random()]. *)
Definition getSourceCountForQuery (random : Q) : Z :=
  let baseCount := 12 in
  let randomFactor := Qfloor (random * 3) - 1 in
  let finalCount := baseCount + randomFactor in
  Z.max 11 (Z.min 13 finalCount).

(** [generateSearchQueries] *)
Definition templates : list (string * (string -> list string)) :=
  [ ("Core concepts and fundamental principles",
     fun originalQuery => [ originalQuery +:+ " fundamentals basics principles";
                            originalQuery +:+ " core concepts theory";
                            "what is " +:+ originalQuery +:+ " definition explanation" ]);
    ("Latest developments and recent breakthroughs",
     fun originalQuery => [ originalQuery +:+ " latest news 2024 2023";
                            originalQuery +:+ " recent breakthroughs developments";
                            originalQuery +:+ " new research advances" ]);
    ("Key players, companies, and market dynamics",
     fun originalQuery => [ originalQuery +:+ " companies startups industry";
                            originalQuery +:+ " market leaders key players";
                            originalQuery +:+ " investment funding commercial" ]);
    ("Future implications and emerging trends",
     fun originalQuery => [ originalQuery +:+ " future trends predictions";
                            originalQuery +:+ " emerging applications potential";
                            originalQuery +:+ " roadmap timeline prospects" ]) ].

Definition is_blank (c : ascii) : bool := (nat_of_ascii c =? 32)%nat.

(** [key.toLowerCase().split(' ')[0]] *)
Definition first_word (key : string) : string :=
  match split_on is_blank (toLowerCase key) with
  | word :: _ => word
  | [] => EmptyString
  end.

(** [pieces.slice(-3)] *)
Definition last_three (pieces : list string) : list string :=
  drop (length pieces - 3) pieces.

Definition generateSearchQueries (originalQuery task : string) : list string :=
  match List.find (fun entry => includes (first_word (fst entry)) (toLowerCase task)) templates with
  | Some (_, queries) => queries originalQuery
  | None =>
      [ originalQuery +:+ " " +:+ toLowerCase task;
        originalQuery +:+ " " +:+ join " " (last_three (split_on is_blank task));
        originalQuery +:+ " research analysis" ]
  end.

(** [text.split(/\s+/).length]: one more than the number of runs of
    white space. *)
Fixpoint blank_runs (in_run : bool) (s : string) : nat :=
  match s with
  | EmptyString => 0
  | String c rest =>
      if is_space c then (if in_run then 0 else 1) + blank_runs true rest
      else blank_runs false rest
  end.

Definition count_words (text : string) : Z := Z.of_nat (1 + blank_runs false text).

(** [result.score || 0.5] *)
Definition score_or_default (score : option Q) : Q :=
  match score with
  | Some q => if Qeq_bool q 0 then 1 # 2 else q
  | None => 1 # 2
  end.

(** [content.text || ''] *)
Definition text_or_empty (content : Exa.SearchResult) : string :=
  match Exa.text_of content with Some t => t | None => EmptyString end.

Definition make_source (result content : Exa.SearchResult) (query_used : string) : ResearchSource :=
  {| url := Exa.url result;
     title := Exa.title result;
     content := text_or_empty content;
     word_count := count_words (text_or_empty content);
     exa_score := score_or_default (Exa.score result);
     layer := 1;
     query_used := query_used;
     relevance_score := score_or_default (Exa.score result) |}.

(** *** [executeTask], one step per [await]

    The method runs on one thread with the other agents; control changes
    hands only at an [await].  A [Phase] names the [await] the method is
    suspended at, with the local variables that are live there; [later]
    is the rest of [queries]. *)
Inductive Phase :=
| Starting
| Searching (query : string) (targetCount : Z) (later : list string)
| Fetching (query : string) (targetCount : Z)
           (result : Exa.SearchResult) (rest : list Exa.SearchResult) (later : list string)
| Broadening (query : string) (targetCount : Z) (later : list string)
| FetchingBroader (query : string) (targetCount : Z)
           (result : Exa.SearchResult) (rest : list Exa.SearchResult) (later : list string)
| Pausing (later : list string)
| Done
| Failed (message : string).

Record Task := {
  originalQuery : string;
  task : string;
  allSources : list ResearchSource;
  phase : Phase
}.

(** What resumes a suspended method. *)
Inductive Input :=
| Resumed
| SearchSettled (results : Settled (list Exa.SearchResult))
| ContentsSettled (contents : Settled (list Exa.SearchResult))
| TimerFired.

(** Calls made on the shared search client. *)
Inductive Call :=
| Search (query : string) (numResults : Z)
| GetContents (urls : list string).

Definition Outcome : Type := gset string * Task * list Call.

Definition with_phase (p : Phase) (t : Task) : Task :=
  {| originalQuery := originalQuery t; task := task t;
     allSources := allSources t; phase := p |}.

(** [allSources.push(source)] *)
Definition push (source : ResearchSource) (t : Task) : Task :=
  {| originalQuery := originalQuery t; task := task t;
     allSources := allSources t ++ [source]; phase := phase t |}.

(** The head of [for (const query of queries)]: draw the target and
    search, or leave the loop and return. *)
Definition next_query (random : Q) (later : list string)
    (seen : gset string) (t : Task) : Outcome :=
  match later with
  | [] => (seen, with_phase Done t, [])
  | query :: later' =>
      let targetCount := getSourceCountForQuery random in
      (seen, with_phase (Searching query targetCount later') t,
       [Search query (targetCount + 5)])
  end.

(** The [catch] block: the quota condition is re-thrown, any other
    error moves on to the next query. *)
Definition on_error (random : Q) (errorMessage : string) (later : list string)
    (seen : gset string) (t : Task) : Outcome :=
  if mentions_quota errorMessage then (seen, with_phase (Failed errorMessage) t, [])
  else next_query random later seen t.

(** After the loop over [results]: the broader search when the target is
    not met, else the pause before the next query. *)
Definition after_results (query : string) (targetCount : Z) (later : list string)
    (seen : gset string) (t : Task) : Outcome :=
  if Z.of_nat (length (allSources t)) <? targetCount then
    (seen, with_phase (Broadening query targetCount later) t,
     [Search (originalQuery t) (targetCount * 2)])
  else (seen, with_phase (Pausing later) t, []).

(** Skip the results whose URL is in the set; stop at the first that is
    not. *)
Fixpoint scan (seen : gset string) (results : list Exa.SearchResult)
    : option (Exa.SearchResult * list Exa.SearchResult) :=
  match results with
  | [] => None
  | result :: rest =>
      if decide (Exa.url result ∈ seen) then scan seen rest
      else Some (result, rest)
  end.

(** The loop over [results] from its current position up to the next
    [await]: mark the first unseen URL and ask for its contents. *)
Definition continue_results (query : string) (targetCount : Z) (later : list string)
    (results : list Exa.SearchResult) (seen : gset string) (t : Task) : Outcome :=
  match scan seen results with
  | Some (result, rest) =>
      ({[Exa.url result]} ∪ seen,
       with_phase (Fetching query targetCount result rest later) t,
       [GetContents [Exa.url result]])
  | None => after_results query targetCount later seen t
  end.

(** The same for the loop over [broaderResults]. *)
Definition continue_broader (query : string) (targetCount : Z) (later : list string)
    (results : list Exa.SearchResult) (seen : gset string) (t : Task) : Outcome :=
  match scan seen results with
  | Some (result, rest) =>
      ({[Exa.url result]} ∪ seen,
       with_phase (FetchingBroader query targetCount result rest later) t,
       [GetContents [Exa.url result]])
  | None => (seen, with_phase (Pausing later) t, [])
  end.

(** One resumption of [executeTask].  [random] is the value
    [Math.random()] returns if the step reaches the head of the query
    loop.  An input the method is not waiting for changes nothing.  The
    last two awaits ([analyzeFindings], [identifyGaps]) cannot fail and
    touch no shared state; they are folded into [Done]. *)
Definition task_step (input : Input) (random : Q)
    (seen : gset string) (t : Task) : Outcome :=
  match phase t, input with
  | Starting, Resumed =>
      next_query random (generateSearchQueries (originalQuery t) (task t)) seen t
  | Searching query targetCount later, SearchSettled (Fulfilled results) =>
      continue_results query targetCount later results seen t
  | Searching _ _ later, SearchSettled (Rejected error) =>
      on_error random error later seen t
  | Fetching query targetCount result rest later, ContentsSettled (Fulfilled contents) =>
      match contents with
      | content :: _ =>
          let t' := push (make_source result content query) t in
          if Z.of_nat (length (allSources t')) >=? targetCount
          then after_results query targetCount later seen t'
          else continue_results query targetCount later rest seen t'
      | [] => continue_results query targetCount later rest seen t
      end
  | Fetching _ _ _ _ later, ContentsSettled (Rejected error) =>
      on_error random error later seen t
  | Broadening query targetCount later, SearchSettled (Fulfilled broaderResults) =>
      continue_broader query targetCount later broaderResults seen t
  | Broadening _ _ later, SearchSettled (Rejected error) =>
      on_error random error later seen t
  | FetchingBroader query targetCount result rest later, ContentsSettled (Fulfilled contents) =>
      match contents with
      | content :: _ =>
          let t' := push (make_source result content (originalQuery t +:+ " (broader)")) t in
          if Z.of_nat (length (allSources t')) >=? targetCount
          then (seen, with_phase (Pausing later) t', [])
          else continue_broader query targetCount later rest seen t'
      | [] => continue_broader query targetCount later rest seen t
      end
  | FetchingBroader _ _ _ _ later, ContentsSettled (Rejected error) =>
      on_error random error later seen t
  | Pausing later, TimerFired => next_query random later seen t
  | _, _ => (seen, t, [])
  end.

(** *** The agents of one run

    The agents share [globalSeenUrls]; [calls] lists, in order, the calls
    they made on the search client. *)
Record System := {
  globalSeenUrls : gset string;
  agents : list Task;
  calls : list Call
}.

Record Event := {
  agent : nat;
  input : Input;
  random : Q
}.

Definition step (sys : System) (e : Event) : System :=
  match agents sys !! agent e with
  | Some t =>
      let '(seen, t', made) := task_step (input e) (random e) (globalSeenUrls sys) t in
      {| globalSeenUrls := seen;
         agents := <[agent e := t']> (agents sys);
         calls := calls sys ++ made |}
  | None => sys
  end.

Definition run (events : list Event) (sys : System) : System :=
  fold_left step events sys.

(** What the orchestrator keeps of an agent: the sources of a task that
    returned, nothing of a task that threw. *)
Definition agent_sources (t : Task) : list ResearchSource :=
  match phase t with
  | Done => allSources t
  | _ => []
  end.

Definition settled (t : Task) : bool :=
  match phase t with
  | Done | Failed _ => true
  | _ => false
  end.

(** [agentResults.flatMap(result => result.sources)], available once
    [Promise.all] has resolved. *)
Definition all_sources (sys : System) : option (list ResearchSource) :=
  if forallb settled (agents sys)
  then Some (flat_map agent_sources (agents sys))
  else None.

End Specialist.

(** ** LeadResearcher *)

Module Lead.

Definition tasks : list string :=
  [ "Core concepts and fundamental principles";
    "Latest developments and recent breakthroughs";
    "Key players, companies, and market dynamics";
    "Future implications and emerging trends" ].

(** [Set.prototype.clear] *)
Definition clear (set : gset string) : gset string := ∅.

(** The agents as [agentPromises] leaves them: every [executeTask] has
    run up to its first [await]. *)
Definition launch (query : string) (seen : gset string) : Specialist.System :=
  {| Specialist.globalSeenUrls := seen;
     Specialist.agents :=
       map (fun task => {| Specialist.originalQuery := query;
                           Specialist.task := task;
                           Specialist.allSources := [];
                           Specialist.phase := Specialist.Starting |}) tasks;
     Specialist.calls := [] |}.

Definition cannot_start_message : string :=
  "Research cannot start: Exa API credits have been exhausted. Please top up your account at dashboard.exa.ai to continue using the service.".

(** How the first part of [orchestrateResearch] ends: the promise is
    rejected, or the agents are running. *)
Inductive Started :=
| Aborted (message : string)
| Launched (sys : Specialist.System).

(** Lines written with [console.warn]. *)
Inductive Console :=
| PreflightFailed (errorMessage : string).

(** [orchestrateResearch] from its entry to the launch of the agents.
    [globalSeenUrls] is the set the researcher holds when the method is
    called; [preflight] is what [this.exaService.search('test
    connectivity', 1)] settled to. *)
Definition orchestrateResearch (query : string) (globalSeenUrls : gset string)
    (preflight : Settled (list Exa.SearchResult)) : Started * list Console :=
  let seen := clear globalSeenUrls in
  match preflight with
  | Rejected errorMessage =>
      if mentions_quota errorMessage then (Aborted cannot_start_message, [])
      else (Launched (launch query seen), [PreflightFailed errorMessage])
  | Fulfilled _ => (Launched (launch query seen), [])
  end.


(** *** Fact tracking in [synthesizeFindings]

    [mentionedFacts] is a JavaScript [Set]: it keeps insertion order and
    ignores the insertion of a member. *)
Definition add (fact : string) (set : list string) : list string :=
  if decide (fact ∈ set) then set else set ++ [fact].

(** The separator class of [extractedFacts.split(/[|,]/)]. *)
Definition is_separator (c : ascii) : bool :=
  ((nat_of_ascii c =? 124) || (nat_of_ascii c =? 44))%nat.

(** The callback of [forEach]. *)
Definition track (set : list string) (fact : string) : list string :=
  let cleanFact := toLowerCase (trim fact) in
  if strlen cleanFact >? 3 then add cleanFact set else set.

(** "Add extracted facts to the tracking set". *)
Definition track_facts (extractedFacts : string) (mentionedFacts : list string) : list string :=
  if String.eqb (trim extractedFacts) EmptyString then mentionedFacts
  else fold_left track (split_on is_separator extractedFacts) mentionedFacts.

End Lead.

(** ** [ExaAPIService.getContents] *)

Module Contents.

(** What a call does to the outside: the request it sends and the lines
    it writes with [console.error]. *)
Inductive Effect :=
| Requested (ids : list string)            (* fetch(apiUrl, {ids: urls, ...}) *)
| ErrorDetails (errorText : string)        (* 'Exa contents API error details:' *)
| ContentsFailed (errorMessage : string).  (* 'Exa contents failed:' *)

Definition Comp (A : Type) : Type := Settled A * list Effect.

Definition ret {A} (a : A) : Comp A := (Fulfilled a, []).
Definition throw {A} (message : string) : Comp A := (Rejected message, []).
Definition emit (e : Effect) : Comp unit := (Fulfilled tt, [e]).
Definition await {A} (p : Settled A) : Comp A := (p, []).
Definition bind {A B} (c : Comp A) (k : A -> Comp B) : Comp B :=
  match c with
  | (Fulfilled a, out) => let '(r, out') := k a in (r, out ++ out')
  | (Rejected m, out) => (Rejected m, out)
  end.

Notation "'let*' x ':=' c 'in' k" := (bind c (fun x => k))
  (at level 10, x name, c at level 100, k at level 200).
Notation "'run' c 'in' k" := (bind c (fun _ => k))
  (at level 10, c at level 100, k at level 200).

(** The body of the [try] block; [fetched] is what the [fetch] settles
    to. *)
Definition getContents_try (urls : list string)
    (fetched : Settled Exa.Response) : Comp (list Exa.SearchResult) :=
  run emit (Requested urls) in
  let* response := await fetched in
  if negb (Exa.ok response) then
    let* errorText := await (Exa.text response) in
    run emit (ErrorDetails errorText) in
    if Exa.status response =? 402 then throw Exa.credits_message
    else if Exa.status response =? 429 then throw Exa.rate_limit_message
    else ret []
  else
    let* data := await (Exa.json response) in
    ret (Exa.results_or_empty data).

(** The [catch] block. *)
Definition getContents_catch (attempt : Comp (list Exa.SearchResult))
    : Comp (list Exa.SearchResult) :=
  match attempt with
  | (Fulfilled results, out) => (Fulfilled results, out)
  | (Rejected errorMessage, out) =>
      if mentions_quota errorMessage
      then (Rejected errorMessage, out ++ [ContentsFailed errorMessage])
      else (Fulfilled [], out ++ [ContentsFailed errorMessage])
  end.

(** [ExaAPIService.getContents]; as in [search], the delay of
    [waitForRateLimit] is left out. *)
Definition getContents (apiKey : string) (urls : list string)
    (fetched : Settled Exa.Response) : Comp (list Exa.SearchResult) :=
  if String.eqb apiKey EmptyString || (length urls =? 0)%nat then ret []
  else getContents_catch (getContents_try urls fetched).

(** The requests among the effects of a call. *)
Definition requests (out : list Effect) : list (list string) :=
  flat_map (fun e => match e with Requested ids => [ids] | _ => [] end) out.

End Contents.

(** ** [selectBestAvailableModel] *)

Module Switching.

Import Cerebras.

Definition modelChains : list (string * list string) :=
  [ ("llama-3.3-70b", ["qwen-3-32b"; "llama-4-scout-17b-16e-instruct"; "llama-3.1-8b"]);
    ("llama-3.1-8b", ["qwen-3-32b"; "llama-3.3-70b"; "llama-4-scout-17b-16e-instruct"]);
    ("llama-4-scout-17b-16e-instruct", ["qwen-3-32b"; "llama-3.3-70b"; "llama-3.1-8b"]);
    ("qwen-3-32b", ["llama-3.3-70b"; "llama-4-scout-17b-16e-instruct"; "llama-3.1-8b"]) ].

(** [this.modelChains[preferredModel] || []] *)
Definition alternatives (preferredModel : string) : list string :=
  match List.find (fun entry => String.eqb (fst entry) preferredModel) modelChains with
  | Some (_, chain) => chain
  | None => []
  end.

Section Environment.

Variable clock : nat -> Z.

(** The loop over the alternatives; it returns the preferred model when
    none can be used. *)
Fixpoint first_usable (preferredModel : string) (chain : list string) : M string :=
  match chain with
  | [] => ret preferredModel
  | altModel :: rest =>
      bind (canUseModel clock altModel)
        (fun usable => if usable then ret altModel else first_usable preferredModel rest)
  end.

Definition selectBestAvailableModel (preferredModel : string) : M string :=
  bind (canUseModel clock preferredModel)
    (fun usable => if usable then ret preferredModel
                   else first_usable preferredModel (alternatives preferredModel)).

End Environment.

End Switching.

(** ** [analyzeFindings] and the decision after the agents *)

Module Results.

Import Specialist.

Definition quote : string := String (ascii_of_nat 34) EmptyString.

(** [s.word_count || 0] *)
Definition word_count_or_zero (s : ResearchSource) : Z :=
  if word_count s =? 0 then 0 else word_count s.

Definition cannot_continue_message : string :=
  "Research cannot continue: Exa API credits have been exhausted. Please top up your account at dashboard.exa.ai to continue using the service.".

(** What an agent's promise resolves to in [agentPromises]. *)
Record AgentResult := {
  sources : list ResearchSource;
  findings : string;
  confidence_gaps : list string
}.

(** How [orchestrateResearch] goes on after [Promise.all]: the promise
    is rejected, or the sources go to the synthesis. *)
Inductive Continued :=
| Halted (message : string)
| Synthesizing (allSources : list ResearchSource).

(** The check "if all agents failed due to credit exhaustion". *)
Definition after_agents (agentResults : list AgentResult) : Continued :=
  let allSources := flat_map sources agentResults in
  let criticalErrors :=
    List.filter (fun result => mentions_quota (findings result)) agentResults in
  if (length criticalErrors =? length agentResults)%nat && (length allSources =? 0)%nat
  then Halted cannot_continue_message
  else Synthesizing allSources.

Section Platform.

(** [new URL(url).hostname] of the platform; [None] when the constructor
    throws. *)
Variable hostname : string -> option string.

(** [extractDomain] *)
Definition extractDomain (url : string) : string :=
  match hostname url with
  | Some host => host
  | None => "unknown"
  end.

(** [`${s.title} (${s.domain}, ${s.word_count} words)`]; the field
    [domain] of a source is [extractDomain(result.url)]. *)
Definition source_line (s : ResearchSource) : string :=
  title s +:+ " (" +:+ extractDomain (url s) +:+ ", "
  +:+ string_of_Z (word_count s) +:+ " words)".

(** [analyzeFindings] *)
Definition analyzeFindings (sources : list ResearchSource) (task : string) : string :=
  if (length sources =? 0)%nat then "No sources found for task: " +:+ task
  else
    let totalWords := fold_left (fun sum s => sum + word_count_or_zero s) sources 0 in
    "SOURCES COLLECTED FOR " +:+ quote +:+ task +:+ quote
    +:+ " (" +:+ string_of_Z totalWords +:+ " words total):"
    +:+ Cerebras.newline +:+ Cerebras.newline
    +:+ join Cerebras.newline (map source_line sources)
    +:+ Cerebras.newline +:+ Cerebras.newline
    +:+ "Content will be processed in comprehensive synthesis phase.".

(** The result of agent [i] (counted from 0) once its [executeTask] has
    settled: what the method returned, or the [errorResult] of the
    [catch] block. *)
Definition agent_result (i : nat) (t : Task) : AgentResult :=
  match phase t with
  | Failed errorMessage =>
      {| sources := [];
         findings := "Agent " +:+ string_of_Z (Z.of_nat i + 1) +:+ " failed: " +:+ errorMessage;
         confidence_gaps := ["Agent execution failed"] |}
  | _ =>
      {| sources := allSources t;
         findings := analyzeFindings (allSources t) (task t);
         confidence_gaps := [] |}
  end.

Fixpoint collect (i : nat) (tasks : list Task) : list AgentResult :=
  match tasks with
  | [] => []
  | t :: rest => agent_result i t :: collect (S i) rest
  end.

(** [await Promise.all(agentPromises)], available once every agent has
    settled. *)
Definition agentResults (sys : System) : option (list AgentResult) :=
  if forallb settled (agents sys) then Some (collect 0 (agents sys)) else None.

End Platform.

End Results.

(** ** The synthesis: facts named in a prompt, sources referenced *)

Module Synthesis.

Import Specialist.

(** The line under "FACTS/COMPANIES/STATS ALREADY MENTIONED" in the
    prompt of a section writer. *)
Definition facts_line (mentionedFacts : list string) : string :=
  if (0 <? length mentionedFacts)%nat then
    join ", " (take 25 mentionedFacts)
    +:+ (if (25 <? length mentionedFacts)%nat
         then "... and " +:+ string_of_Z (Z.of_nat (length mentionedFacts) - 25) +:+ " more"
         else EmptyString)
  else "None yet".

(** The facts after the answers of the extraction calls of several
    sections have been merged, one after the other. *)
Definition track_all (answers : list string) (mentionedFacts : list string) : list string :=
  fold_left (fun set extractedFacts => Lead.track_facts extractedFacts set)
            answers mentionedFacts.

Record Utilization := {
  sourcesUsed : Z;
  totalSources : Z;
  unusedSources : list string
}.

Section Platform.

Variable hostname : string -> option string.

(** [source.domain || ''] *)
Definition domain_of (source : ResearchSource) : string :=
  Results.extractDomain hostname (url source).

(** [title && synthesis.toLowerCase().includes(title.toLowerCase().substring(0, 20))] *)
Definition titleReferenced (synthesis : string) (source : ResearchSource) : bool :=
  negb (String.eqb (title source) EmptyString)
  && includes (Cerebras.substring0 20 (toLowerCase (title source))) (toLowerCase synthesis).

(** [domain && synthesis.toLowerCase().includes(domain.toLowerCase())] *)
Definition domainReferenced (synthesis : string) (source : ResearchSource) : bool :=
  negb (String.eqb (domain_of source) EmptyString)
  && includes (toLowerCase (domain_of source)) (toLowerCase synthesis).

Definition referenced (synthesis : string) (source : ResearchSource) : bool :=
  titleReferenced synthesis source || domainReferenced synthesis source.

(** [`${title} (${domain})`] *)
Definition label (source : ResearchSource) : string :=
  title source +:+ " (" +:+ domain_of source +:+ ")".

(** The body of the loop over [allSources]. *)
Definition count_source (synthesis : string) (state : Z * list string)
    (source : ResearchSource) : Z * list string :=
  let '(sourcesUsed, unusedSources) := state in
  if referenced synthesis source then (sourcesUsed + 1, unusedSources)
  else (sourcesUsed, unusedSources ++ [label source]).

(** [validateSourceUtilization], without [utilizationScore], a rounded
    double that only the log and the description of the result show. *)
Definition validateSourceUtilization (synthesis : string)
    (allSources : list ResearchSource) : Utilization :=
  let '(used, unused) := fold_left (count_source synthesis) allSources (0, []) in
  {| sourcesUsed := used;
     totalSources := Z.of_nat (length allSources);
     unusedSources := unused |}.

End Platform.

End Synthesis.

(** ** [createMultiLLMSynthesis], the fallback synthesis *)

Module Fallback.

Import Specialist.

(** [name] and [model] of the entries of [sectionPrompts]; the prompts
    themselves only reach the inference service. *)
Definition sectionPrompts : list (string * string) :=
  [ ("Executive Summary", "llama-3.3-70b");
    ("Technical Deep Dive", "llama-3.1-8b");
    ("Market & Industry Analysis", "llama-4-scout-17b-16e-instruct");
    ("Future Implications & Strategic Outlook", "llama-3.3-70b");
    ("Comprehensive Source Analysis", "llama-3.1-8b") ].

Record Written := {
  name : string;
  content : string;
  model : string
}.

(** The text that stands for a section whose call failed. *)
Definition failed_section (name : string) : string :=
  "# " +:+ name +:+ Cerebras.newline +:+ Cerebras.newline
  +:+ "[Section failed to generate due to API issues. Please retry.]".

(** One of [sectionPromises]; [answer] is what [chat] settled to. *)
Definition write (section : string * string) (answer : Settled string) : Written :=
  match answer with
  | Fulfilled result => {| name := fst section; content := result; model := snd section |}
  | Rejected _ =>
      {| name := fst section; content := failed_section (fst section); model := snd section |}
  end.

(** ['\n\n---\n\n'] *)
Definition separator : string :=
  Cerebras.newline +:+ Cerebras.newline +:+ "---" +:+ Cerebras.newline +:+ Cerebras.newline.

(** The result, without [compression_ratio], a text that shows a rounded
    double. *)
Record Report := {
  summary : string;
  sources : list ResearchSource;
  total_sources : Z;
  total_words : Z;
  processing_calls : Z
}.

(** [createMultiLLMSynthesis]; [answers] holds, in the order of
    [sectionPrompts], what the five calls of [chat] settled to.  Every
    call that succeeded incremented [callCount]. *)
Definition createMultiLLMSynthesis (allSources : list ResearchSource)
    (callCount totalWords : Z) (answers : list (Settled string)) : Report :=
  let completedSections := zip_with write sectionPrompts answers in
  let callCount' :=
    callCount + Z.of_nat (length (List.filter (fun answer => negb (is_rejected answer)) answers)) in
  {| summary := join separator (map content completedSections);
     sources := allSources;
     total_sources := Z.of_nat (length allSources);
     total_words := totalWords;
     processing_calls := callCount' + Z.of_nat (length completedSections) |}.

(** [attemptSimpleSynthesis]: the summaries it prepares are not used. *)
Definition attemptSimpleSynthesis (allSources : list ResearchSource)
    (answers : list (Settled string)) : Report :=
  let totalWords :=
    fold_left (fun sum s => sum + Results.word_count_or_zero s) allSources 0 in
  createMultiLLMSynthesis allSources 0 totalWords answers.

End Fallback.

(** * Properties *)

(** ** The definitions at work *)

Example removeThinkingTags_strips_and_trims :
  Cerebras.removeThinkingTags "  a<think></think>b<think>1</think><think>2</think> c " = "abc".
Proof. reflexivity. Qed.

Example removeThinkingTags_keeps_unclosed_tag :
  Cerebras.removeThinkingTags "<think>hidden </think>   shown <think> open"
  = "shown <think> open".
Proof. reflexivity. Qed.

Example generateSearchQueries_market :
  Specialist.generateSearchQueries "solar sails" "Key players, companies, and market dynamics"
  = [ "solar sails companies startups industry";
      "solar sails market leaders key players";
      "solar sails investment funding commercial" ].
Proof. reflexivity. Qed.

Example generateSearchQueries_fallback :
  Specialist.generateSearchQueries "solar sails" "My Custom task about x y"
  = [ "solar sails my custom task about x y";
      "solar sails about x y";
      "solar sails research analysis" ].
Proof. reflexivity. Qed.

Example getSourceCountForQuery_draws :
  map Specialist.getSourceCountForQuery [0; 1 # 3; 1 # 2; 2 # 3; 99 # 100]%Q
  = [11; 12; 12; 13; 13].
Proof. reflexivity. Qed.

Example track_facts_splits_and_cleans :
  Lead.track_facts "IBM 10,000 qubits | Foo,  Bar Baz ,ab, IBM 10" ["x"]
  = ["x"; "ibm 10"; "000 qubits"; "bar baz"].
Proof. reflexivity. Qed.

Example api_error_message_500 :
  Exa.api_error_message
    {| Exa.status := 500; Exa.statusText := "Internal Server Error";
       Exa.text := Fulfilled EmptyString; Exa.json := Rejected EmptyString |}
  = "Exa API error: 500 Internal Server Error".
Proof. reflexivity. Qed.

(** ** The search client *)

Section SearchClient.

Import Exa.







(** The line [console.error('Exa search failed:', error)] was written. *)
Definition logged_failure (c : Comp (list SearchResult)) : Prop :=
  exists errorMessage, In (SearchFailed errorMessage) (snd c).


Lemma search_catch_swallows errorMessage out :
  mentions_quota errorMessage = false ->
  search_catch (Rejected errorMessage, out)
  = (Fulfilled [], out ++ [SearchFailed errorMessage]).
Proof. intros H. unfold search_catch. now rewrite H. Qed.

Lemma search_catch_logged errorMessage out :
  logged_failure (search_catch (Rejected errorMessage, out)).
Proof.
  exists errorMessage. unfold search_catch.
  destruct (mentions_quota errorMessage); simpl; apply in_or_app; right; now left.
Qed.




End SearchClient.


(** ** The pre-flight check *)

Section Preflight.

Import Exa Lead.




End Preflight.


(** ** Prompt truncation *)

Section Truncation.

Import Cerebras.

Lemma length_append (s1 s2 : string) :
  String.length (s1 +:+ s2) = (String.length s1 + String.length s2)%nat.
Proof. induction s1 as [|c s1 IH]; simpl; [reflexivity | now rewrite IH]. Qed.

Lemma strlen_append (s1 s2 : string) :
  strlen (s1 +:+ s2) = strlen s1 + strlen s2.
Proof. unfold strlen. rewrite length_append. lia. Qed.

Lemma drop_chars_length (n : nat) (s : string) :
  String.length (drop_chars n s) = (String.length s - n)%nat.
Proof.
  revert s. induction n as [|n IH]; intros s; cbn; [lia|].
  destruct s as [|c s]; cbn; [reflexivity | apply IH].
Qed.

Lemma prefix_length (p s : string) :
  String.prefix p s = true -> (String.length p <= String.length s)%nat.
Proof.
  revert p. induction s as [|b s IH]; intros p; destruct p as [|a p]; cbn;
    try lia; try discriminate.
  destruct (ascii_dec a b); [|discriminate].
  intros H. apply IH in H. lia.
Qed.

Lemma after_close_length (s tail : string) :
  after_close s = Some tail -> (String.length tail <= String.length s)%nat.
Proof.
  induction s as [|c s IH]; intros H.
  - cbn in H. discriminate.
  - cbn [after_close] in H. destruct (String.prefix "</think>" (String c s)).
    + assert (Htail : tail = drop_chars 8 (String c s)) by congruence.
      rewrite Htail, drop_chars_length. lia.
    + apply IH in H. cbn. lia.
Qed.

Lemma trimStart_length (s : string) :
  (String.length (trimStart s) <= String.length s)%nat.
Proof.
  induction s as [|c s IH]; cbn; [lia|]. destruct (is_space c); cbn; lia.
Qed.

(** The fuel [removeThinkingTags] gives [strip_think] is enough: more fuel
    gives the same text. *)
Lemma strip_think_fuel (fuel1 fuel2 : nat) (s : string) :
  (String.length s <= fuel1)%nat -> (String.length s <= fuel2)%nat ->
  strip_think fuel1 s = strip_think fuel2 s.
Proof.
  revert fuel2 s. induction fuel1 as [|fuel1 IH]; intros fuel2 s H1 H2.
  - destruct s; [|cbn in H1; lia]. now destruct fuel2.
  - destruct s as [|c s]; [now destruct fuel2|].
    destruct fuel2 as [|fuel2]; [cbn in H2; lia|].
    cbn in H1, H2. cbn [strip_think].
    destruct (String.prefix "<think>" (String c s)) eqn:Hopen.
    + destruct (after_close (drop_chars 7 (String c s))) as [tail|] eqn:Hclose.
      * apply prefix_length in Hopen. apply after_close_length in Hclose.
        rewrite drop_chars_length in Hclose. pose proof (trimStart_length tail).
        cbn in Hopen, Hclose. apply IH; lia.
      * f_equal. apply IH; lia.
    + f_equal. apply IH; lia.
Qed.

Lemma maxPromptChars_value : maxPromptChars = 19600.
Proof. reflexivity. Qed.

Lemma maxSystemChars_value : maxSystemChars = 4900.
Proof. reflexivity. Qed.

(** The estimate exceeds 7000 tokens exactly when the two prompts have more
    than 24500 characters together. *)
Lemma over_budget_iff prompt systemPrompt :
  over_budget prompt systemPrompt = true
  <-> strlen prompt + optional_length systemPrompt > 24500.
Proof.
  unfold over_budget, estimatedTokens.
  set (n := strlen prompt + optional_length systemPrompt).
  rewrite negb_true_iff, <- not_true_iff_false, Qle_bool_iff.
  unfold Qle, Qdiv, Qmult, Qinv, inject_Z. simpl. lia.
Qed.

(** The spec's reading of the truncation: what is kept, before the marker,
    is the end of the original text. *)
Definition keeps_most_recent (original adjusted : string) : Prop :=
  exists kept dropped,
    adjusted = kept +:+ "..." /\ original = dropped +:+ kept.

Fixpoint fill (n : nat) (c : ascii) (tail : string) : string :=
  match n with
  | O => tail
  | S n' => String c (fill n' c tail)
  end.

(** A prompt of 24501 characters: 19600 times [a], then 4901 times [b]. *)
Definition long_prompt : string :=
  fill (Z.to_nat 19600) "a"%char (fill (Z.to_nat 4901) "b"%char EmptyString).

(** C7, as stated, fails: the prompt above is over the budget and is cut,
    but what is kept is its beginning; its end, the most recent content,
    is dropped. *)
Lemma truncation_drops_most_recent :
  over_budget long_prompt None = true
  /\ ~ keeps_most_recent long_prompt (adjustedPrompt "llama-3.3-70b" long_prompt None).
Proof.
  split; [vm_compute; reflexivity|].
  intros (kept & dropped & Hadjusted & Horiginal).
  assert (Hlen1 : strlen (adjustedPrompt "llama-3.3-70b" long_prompt None) = 19603)
    by (vm_compute; reflexivity).
  assert (Hlen2 : strlen long_prompt = 24501) by (vm_compute; reflexivity).
  assert (Ha : String.get (Z.to_nat 19599) (adjustedPrompt "llama-3.3-70b" long_prompt None)
               = Some "a"%char) by (vm_compute; reflexivity).
  assert (Hb : String.get (Z.to_nat 24500) long_prompt = Some "b"%char)
    by (vm_compute; reflexivity).
  rewrite Hadjusted, strlen_append in Hlen1.
  change (strlen "...") with 3 in Hlen1.
  rewrite Horiginal, strlen_append in Hlen2.
  unfold strlen in Hlen1, Hlen2.
  rewrite Hadjusted, <- append_correct1 in Ha by lia.
  rewrite (append_correct2 dropped kept (Z.to_nat 19599)) in Ha.
  rewrite <- Horiginal in Ha.
  replace (Z.to_nat 19599 + String.length dropped)%nat with (Z.to_nat 24500) in Ha by lia.
  rewrite Hb in Ha. discriminate Ha.
Qed.

(** C7, amended.  When the two prompts together exceed the budget, each
    prompt that is longer than its share (19600 characters for the user
    prompt, 4900 for the system prompt) is replaced by its first 19600,
    respectively 4900, characters followed by the marker; a prompt within
    its share is sent as it is; and at least one of the two is cut. *)
Theorem truncation_keeps_leading_content
    (selectedModel prompt : string) (systemPrompt : option string) :
  over_budget prompt systemPrompt = true ->
  (strlen prompt > 19600 ->
     adjustedPrompt selectedModel prompt systemPrompt
     = preparePromptWithNoThink (substring0 19600 prompt +:+ "...") selectedModel)
  /\ (strlen prompt <= 19600 ->
      adjustedPrompt selectedModel prompt systemPrompt
      = preparePromptWithNoThink prompt selectedModel)
  /\ (forall sp, systemPrompt = Some sp -> strlen sp > 4900 ->
        adjustedSystemPrompt prompt systemPrompt = Some (substring0 4900 sp +:+ "..."))
  /\ (forall sp, systemPrompt = Some sp -> strlen sp <= 4900 ->
        adjustedSystemPrompt prompt systemPrompt = Some sp)
  /\ (strlen prompt > 19600
      \/ exists sp, systemPrompt = Some sp /\ strlen sp > 4900).
Proof.
  intros Hover.
  pose proof (proj1 (over_budget_iff _ _) Hover) as Hsum.
  unfold adjustedPrompt, adjustedSystemPrompt, preparePromptWithNoThink.
  rewrite Hover, maxPromptChars_value, maxSystemChars_value.
  repeat split.
  - intros Hlong.
    destruct (String.eqb selectedModel "qwen-3-32b");
      (replace (strlen prompt >? 19600) with true by (symmetry; apply Z.gtb_lt; lia));
      reflexivity.
  - intros Hshort.
    destruct (String.eqb selectedModel "qwen-3-32b");
      (replace (strlen prompt >? 19600) with false
         by (symmetry; apply not_true_iff_false; rewrite Z.gtb_lt; lia));
      reflexivity.
  - intros sp -> Hlong.
    replace (strlen sp >? 4900) with true by (symmetry; apply Z.gtb_lt; lia).
    destruct (String.eqb_spec sp EmptyString) as [->|_]; [|reflexivity].
    change (strlen EmptyString) with 0 in Hlong. lia.
  - intros sp -> Hshort.
    replace (strlen sp >? 4900) with false
      by (symmetry; apply not_true_iff_false; rewrite Z.gtb_lt; lia).
    now rewrite andb_false_r.
  - destruct systemPrompt as [sp|]; cbn [optional_length] in Hsum.
    + destruct (Z_gt_dec (strlen prompt) 19600); [now left|].
      right. exists sp. split; [reflexivity | lia].
    + left. lia.
Qed.

Lemma truncation_keeps_leading_content_witness :
  adjustedPrompt "llama-3.3-70b" long_prompt None
  = preparePromptWithNoThink (substring0 19600 long_prompt +:+ "...") "llama-3.3-70b".
Proof.
  refine (proj1 (truncation_keeps_leading_content "llama-3.3-70b" long_prompt None _) _);
    vm_compute; reflexivity.
Defined.

End Truncation.


(** ** Fact tracking *)

Section FactTracking.

Import Lead.


Lemma add_grows (fact : string) (set : list string) : exists added, add fact set = set ++ added.
Proof.
  unfold add. destruct (decide (fact ∈ set)).
  - exists []. now rewrite app_nil_r.
  - now exists [fact].
Qed.



Lemma track_grows (set : list string) (fact : string) :
  exists added, track set fact = set ++ added.
Proof.
  unfold track. destruct (strlen (toLowerCase (trim fact)) >? 3).
  - apply add_grows.
  - exists []. now rewrite app_nil_r.
Qed.

Lemma fold_track_grows (pieces set : list string) :
  exists added, fold_left track pieces set = set ++ added.
Proof.
  revert set. induction pieces as [|piece pieces IH]; intros set; simpl.
  - exists []. now rewrite app_nil_r.
  - destruct (track_grows set piece) as [a1 E1].
    destruct (IH (track set piece)) as [a2 E2].
    exists (a1 ++ a2). now rewrite E2, E1, app_assoc.
Qed.






End FactTracking.


(** ** The agents and the shared set of seen URLs *)

Section Agents.

Import Specialist.

Lemma getSourceCountForQuery_range (random : Q) :
  11 <= getSourceCountForQuery random <= 13.
Proof. unfold getSourceCountForQuery. lia. Qed.


























Definition on (i : nat) (x : Input) : Event :=
  {| agent := i; input := x; random := 1 # 2 |}.

(** A query for which the search and the broader search find nothing. *)
Definition idle_query (i : nat) : list Event :=
  [ on i (SearchSettled (Fulfilled []));
    on i (SearchSettled (Fulfilled []));
    on i TimerFired ].

Definition idle_agent (i : nat) : list Event :=
  idle_query i ++ idle_query i ++ idle_query i.

Definition all_resumed : list Event := map (fun i => on i Resumed) [0; 1; 2; 3]%nat.

Definition page (address : string) : Exa.SearchResult :=
  {| Exa.url := address; Exa.title := "A page";
     Exa.text_of := Some "some text"; Exa.score := None |}.





Definition numbered_page (n : Z) : Exa.SearchResult :=
  page ("https://example.org/" +:+ string_of_Z n).

Definition fetched (i : nat) (n : Z) : Event :=
  on i (ContentsSettled (Fulfilled [numbered_page n])).

(** Agent 0 finds twelve pages with its first query, and one more page
    with each of the next two.  Every draw of [Math.random()] is one half,
    so every target is twelve. *)
Definition one_more_per_query : list Event :=
  all_resumed
  ++ [ on 0 (SearchSettled (Fulfilled (map numbered_page [1; 2; 3; 4; 5; 6; 7; 8; 9; 10; 11; 12]))) ]
  ++ map (fetched 0) [1; 2; 3; 4; 5; 6; 7; 8; 9; 10; 11; 12]
  ++ [ on 0 TimerFired;
       on 0 (SearchSettled (Fulfilled [numbered_page 13]));
       fetched 0 13;
       on 0 TimerFired;
       on 0 (SearchSettled (Fulfilled [numbered_page 14]));
       fetched 0 14;
       on 0 TimerFired ]
  ++ idle_agent 1 ++ idle_agent 2 ++ idle_agent 3.

(** C5 on the code.  Every target is between 11 and 13, and the loop over
    the results of a query stops when the target is reached; but the loop
    over the queries goes on, and each later query collects one more
    source before the test is made again.  In the run above every target
    is 12 and agent 0 returns 14 sources. *)
Theorem executeTask_exceeds_target :
  (forall random, 11 <= getSourceCountForQuery random <= 13)
  /\ getSourceCountForQuery (1 # 2) = 12
  /\ (fun t => (phase t, length (allSources t)))
       <$> agents (run one_more_per_query (Lead.launch "quantum computing" ∅)) !! 0%nat
     = Some (Done, 14%nat)
  /\ length <$> all_sources (run one_more_per_query (Lead.launch "quantum computing" ∅))
     = Some 14%nat.
Proof.
  split; [apply getSourceCountForQuery_range|].
  split; [reflexivity|]. split; vm_compute; reflexivity.
Qed.






End Agents.


(** ** Model health and the round-robin cycle *)

Section Cycle.

Import Cerebras.

Variable clock : nat -> Z.
Variable network : nat -> Request -> Settled Response.

#[local] Arguments availableModels : simpl never.

(** A computation leaves an observation of the machine unchanged. *)
Definition stable {X A : Type} (f : Machine -> X) (c : M A) : Prop :=
  forall m, f (snd (c m)) = f m.

Lemma stable_ret {X A} (f : Machine -> X) (a : A) : stable f (ret a).
Proof. intros m. reflexivity. Qed.

Lemma stable_bind {X A B} (f : Machine -> X) (c : M A) (k : A -> M B) :
  stable f c -> (forall a, stable f (k a)) -> stable f (bind c k).
Proof.
  intros Hc Hk m. unfold bind. specialize (Hc m).
  destruct (c m) as [a m']. cbn in Hc. rewrite <- Hc. apply Hk.
Qed.

Lemma stable_when {X} (f : Machine -> X) (b : bool) (c : M unit) :
  stable f c -> stable f (when b c).
Proof. intros Hc. destruct b; [exact Hc | apply stable_ret]. Qed.

Lemma stable_this {X} (f : Machine -> X) : stable f this.
Proof. intros m. reflexivity. Qed.

Lemma stable_filterM {X} (f : Machine -> X) (p : string -> M bool) (l : list string) :
  (forall x, stable f (p x)) -> stable f (filterM p l).
Proof.
  intros Hp. induction l as [|x l IH]; cbn [filterM]; [apply stable_ret|].
  apply stable_bind; [apply Hp|]. intros keep.
  apply stable_bind; [apply IH|]. intros kept. apply stable_ret.
Qed.

Lemma stable_forEach {X} (f : Machine -> X) (p : string -> M bool) (l : list string) :
  (forall x, stable f (p x)) -> stable f (forEach p l).
Proof.
  intros Hp. induction l as [|x l IH]; cbn [forEach]; [apply stable_ret|].
  apply stable_bind; [apply Hp | intros _; apply IH].
Qed.

(** An observation of the service that an update does not touch. *)
Lemma stable_update {X} (f : Service -> X) (g : Service -> Service) :
  (forall s, f (g s) = f s) -> stable (fun m => f (service m)) (update g).
Proof. intros Hg m. cbn. apply Hg. Qed.

Lemma stable_Date_now {X} (f : Service -> X) :
  stable (fun m => f (service m)) (Date_now clock).
Proof. intros m. reflexivity. Qed.

Lemma outbox_update (g : Service -> Service) : stable outbox (update g).
Proof. intros m. reflexivity. Qed.

Lemma outbox_Date_now : stable outbox (Date_now clock).
Proof. intros m. reflexivity. Qed.

(** Proves [stable f c] for a method built from the pieces above; the side
    condition of an update holds by computation. *)
Ltac stable_steps :=
  repeat match goal with
  | |- stable _ (ret _) => apply stable_ret
  | |- stable _ this => apply stable_this
  | |- stable outbox (update _) => apply outbox_update
  | |- stable outbox (Date_now _) => apply outbox_Date_now
  | |- stable _ (Date_now _) => apply stable_Date_now
  | |- stable _ (update _) => apply stable_update; intros; reflexivity
  | |- stable _ (when _ _) => apply stable_when
  | |- stable _ (bind _ _) => apply stable_bind; [|intros]
  | |- stable _ (filterM _ _) => apply stable_filterM; intros
  | |- stable _ (forEach _ _) => apply stable_forEach; intros
  | |- stable _ (if ?b then _ else _) => destruct b
  | |- stable _ (match ?x with _ => _ end) => destruct x
  | |- stable _ (let _ := _ in _) => cbv zeta
  end.

Lemma outbox_canUseModel model : stable outbox (canUseModel clock model).
Proof. unfold canUseModel. stable_steps. Qed.

Lemma outbox_registerModelUsage model : stable outbox (registerModelUsage clock model).
Proof. unfold registerModelUsage. stable_steps. Qed.

Lemma outbox_in_cycle now model : stable outbox (in_cycle clock now model).
Proof.
  unfold in_cycle. stable_steps; apply outbox_canUseModel.
Qed.

Lemma outbox_updateHealthyModels : stable outbox (updateHealthyModels clock).
Proof.
  unfold updateHealthyModels.
  stable_steps. apply outbox_in_cycle.
Qed.

Lemma outbox_recordModelFailure model errorType :
  stable outbox (recordModelFailure clock model errorType).
Proof. unfold recordModelFailure. stable_steps. Qed.

Lemma outbox_getNextModelInCycle : stable outbox (getNextModelInCycle clock).
Proof.
  unfold getNextModelInCycle. stable_steps. apply outbox_updateHealthyModels.
Qed.

Lemma outbox_waitForCycleTime : stable outbox (waitForCycleTime clock).
Proof. unfold waitForCycleTime. stable_steps. Qed.

Lemma outbox_reset_on_success model : stable outbox (reset_on_success model).
Proof. unfold reset_on_success. stable_steps. Qed.

Lemma outbox_printModelStatus : stable outbox (printModelStatus clock).
Proof.
  unfold printModelStatus. stable_steps. apply outbox_canUseModel.
Qed.

(** *** The list of healthy models *)

Definition cycle (m : Machine) : list string := healthyModels (service m).

Lemma stable_cycle {A} (c : M A) :
  stable (fun m => healthyModels (service m)) c -> stable cycle c.
Proof. intros H. exact H. Qed.

Lemma cycle_canUseModel model : stable cycle (canUseModel clock model).
Proof. apply stable_cycle. unfold canUseModel. stable_steps. Qed.

Lemma cycle_registerModelUsage model : stable cycle (registerModelUsage clock model).
Proof. apply stable_cycle. unfold registerModelUsage. stable_steps. Qed.

Lemma cycle_in_cycle now model : stable cycle (in_cycle clock now model).
Proof.
  apply stable_cycle. unfold in_cycle. stable_steps;
    apply cycle_canUseModel.
Qed.

Lemma cycle_recordModelFailure model errorType :
  stable cycle (recordModelFailure clock model errorType).
Proof. apply stable_cycle. unfold recordModelFailure. stable_steps. Qed.

Lemma cycle_waitForCycleTime : stable cycle (waitForCycleTime clock).
Proof. apply stable_cycle. unfold waitForCycleTime. stable_steps. Qed.

Lemma cycle_reset_on_success model : stable cycle (reset_on_success model).
Proof. apply stable_cycle. unfold reset_on_success. stable_steps. Qed.

Lemma cycle_printModelStatus : stable cycle (printModelStatus clock).
Proof.
  apply stable_cycle. unfold printModelStatus. stable_steps.
  apply cycle_canUseModel.
Qed.

Lemma cycle_fetch request : stable cycle (fetch network request).
Proof. intros m. reflexivity. Qed.

Lemma filterM_sublist (p : string -> M bool) (l : list string) (m : Machine) :
  fst (filterM p l m) `sublist_of` l.
Proof.
  revert m. induction l as [|x l IH]; intros m; cbn; [constructor|].
  unfold bind. destruct (p x m) as [keep m1].
  specialize (IH m1). destruct (filterM p l m1) as [kept m2]. cbn in *.
  destruct keep; [now apply sublist_skip | now apply sublist_cons].
Qed.

(** What [emergency_reset] leaves: every model healthy with no failure,
    and all of them in the cycle. *)
Lemma revive_all (models : list string) (s : Service) (model : string) :
  let s' := fold_left revive models s in
  healthyModels s' = healthyModels s
  /\ (model ∈ models -> failures_of s' model = 0 /\ health_of s' model = true)
  /\ (model ∉ models -> failures_of s' model = failures_of s model
                         /\ health_of s' model = health_of s model)
  /\ lastFailure_of s' model = lastFailure_of s model.
Proof.
  revert s. induction models as [|x models IH]; intros s; cbn.
  - split; [reflexivity|]. split; [intros Hnil; now apply elem_of_nil in Hnil|].
    split; [intros _; split; reflexivity | reflexivity].
  - destruct (IH (revive s x)) as (Hh & Hin & Hout & Hlast). cbn in *.
    split; [exact Hh|]. split; [|split; [|exact Hlast]].
    + intros Hmem. destruct (decide (model ∈ models)) as [Hm|Hm]; [now apply Hin|].
      apply elem_of_cons in Hmem as [->|Hmem]; [|contradiction].
      destruct (Hout Hm) as [Hf Hhl]. rewrite Hf, Hhl.
      unfold failures_of, health_of, revive. cbn. now rewrite !lookup_insert_eq.
    + intros Hmem. apply not_elem_of_cons in Hmem as [Hne Hm].
      destruct (Hout Hm) as [Hf Hhl]. rewrite Hf, Hhl.
      unfold failures_of, health_of, revive. cbn.
      now rewrite !lookup_insert_ne by congruence.
Qed.

Lemma emergency_reset_spec (s : Service) :
  healthyModels (emergency_reset s) = availableModels
  /\ forall model, model ∈ availableModels ->
       failures_of (emergency_reset s) model = 0
       /\ health_of (emergency_reset s) model = true
       /\ lastFailure_of (emergency_reset s) model = lastFailure_of s model.
Proof.
  split; [reflexivity|]. intros model Hin.
  destruct (revive_all availableModels s model) as (_ & Hreset & _ & Hlast).
  destruct (Hreset Hin) as [Hf Hh]. unfold emergency_reset.
  repeat split; assumption.
Qed.

(** The machine on which the filter of [updateHealthyModels] runs. *)
Definition stamped (m : Machine) : Machine :=
  {| service := set_lastHealthCheck (clock (readings m)) (service m);
     readings := S (readings m);
     outbox := outbox m |}.

Definition due (m : Machine) : Prop :=
  10000 <= clock (readings m) - lastHealthCheck (service m).

(** The three ways [updateHealthyModels] can go. *)
Lemma updateHealthyModels_cases (m : Machine) :
  let now := clock (readings m) in
  let filtered := filterM (in_cycle clock now) availableModels (stamped m) in
  let m' := snd (updateHealthyModels clock m) in
  (~ due m /\ service m' = service m)
  \/ (due m /\ fst filtered <> [] /\
      service m' = set_healthyModels (fst filtered) (service (snd filtered)))
  \/ (due m /\ fst filtered = [] /\
      service m' = emergency_reset (set_healthyModels [] (service (snd filtered)))).
Proof.
  cbv zeta. unfold updateHealthyModels, due.
  remember availableModels as models eqn:Hmodels.
  unfold bind, Date_now, this, update, when, ret. cbn.
  destruct (Z.ltb_spec (clock (readings m) - lastHealthCheck (service m)) 10000) as [Hlt|Hge].
  - left. split; [lia | reflexivity].
  - right.
    unfold stamped. cbn.
    match goal with
    | |- context [filterM ?p ?l ?x] => destruct (filterM p l x) as [kept m1]
    end.
    cbn. destruct kept as [|k kept]; cbn.
    + right. repeat split; try assumption.
    + left. repeat split; try assumption. discriminate.
Qed.

(** The cycle is never empty and holds configured models only. *)
Definition cycle_ok (m : Machine) : Prop :=
  cycle m <> [] /\ forall model, model ∈ cycle m -> model ∈ availableModels.

Definition preserves {A} (P : Machine -> Prop) (c : M A) : Prop :=
  forall m, P m -> P (snd (c m)).

Lemma preserves_bind {A B} (P : Machine -> Prop) (c : M A) (k : A -> M B) :
  preserves P c -> (forall a, preserves P (k a)) -> preserves P (bind c k).
Proof.
  intros Hc Hk m Hm. unfold bind. specialize (Hc m Hm).
  destruct (c m) as [a m1]. now apply Hk.
Qed.

Lemma preserves_ret {A} (P : Machine -> Prop) (a : A) : preserves P (ret a).
Proof. intros m Hm. exact Hm. Qed.

Lemma stable_preserves {A} (c : M A) : stable cycle c -> preserves cycle_ok c.
Proof. intros Hc m. unfold cycle_ok. now rewrite (Hc m). Qed.

Lemma cycle_ok_updateHealthyModels : preserves cycle_ok (updateHealthyModels clock).
Proof.
  intros m Hm. unfold cycle_ok, cycle.
  destruct (updateHealthyModels_cases m) as [[_ E] | [(_ & Hne & E) | (_ & _ & E)]];
    rewrite E.
  - exact Hm.
  - cbn. split; [exact Hne|]. intros model Hin.
    eapply elem_of_sublist; [exact Hin | apply filterM_sublist].
  - split; [discriminate | intros model Hin; exact Hin].
Qed.

Lemma getNextModelInCycle_after_update (m : Machine) :
  let m1 := snd (updateHealthyModels clock m) in
  cycle m1 <> [] ->
  fst (getNextModelInCycle clock m) ∈ cycle m1
  /\ fst (getNextModelInCycle clock m) = model_at (service m1)
  /\ service (snd (getNextModelInCycle clock m))
     = set_currentModelIndex (S (currentModelIndex (service m1))) (service m1).
Proof.
  cbv zeta. intros Hne.
  unfold getNextModelInCycle, bind, this, update, ret.
  destruct (updateHealthyModels clock m) as [[] m1]. cbn [fst snd] in *.
  unfold cycle in *.
  destruct (healthyModels (service m1)) as [|x l] eqn:Hcycle; [contradiction|].
  cbn [length Nat.eqb fst snd service].
  split; [|split; reflexivity].
  unfold model_at. rewrite Hcycle.
  assert (Hlt : (currentModelIndex (service m1) mod length (x :: l) < length (x :: l))%nat)
    by (apply Nat.mod_upper_bound; discriminate).
  destruct (lookup_lt_is_Some_2 _ _ Hlt) as [y Hy]. rewrite Hy. cbn.
  eapply list_elem_of_lookup_2. exact Hy.
Qed.

Lemma getNextModelInCycle_selects (m : Machine) :
  cycle_ok m ->
  let m1 := snd (updateHealthyModels clock m) in
  fst (getNextModelInCycle clock m) ∈ cycle m1
  /\ fst (getNextModelInCycle clock m) = model_at (service m1)
  /\ cycle (snd (getNextModelInCycle clock m)) = cycle m1.
Proof.
  intros Hm. cbv zeta.
  pose proof (cycle_ok_updateHealthyModels m Hm) as [Hne _].
  destruct (getNextModelInCycle_after_update m Hne) as (H1 & H2 & H3).
  split; [exact H1|]. split; [exact H2|]. unfold cycle. now rewrite H3.
Qed.

Lemma cycle_ok_getNextModelInCycle : preserves cycle_ok (getNextModelInCycle clock).
Proof.
  intros m Hm. destruct (getNextModelInCycle_selects m Hm) as (_ & _ & E).
  unfold cycle_ok. rewrite E. now apply cycle_ok_updateHealthyModels.
Qed.

(** *** One model through the filter *)

(** What the health bookkeeping records about a model. *)
Definition record (model : string) (s : Service) : Z * Z * bool :=
  (failures_of s model, lastFailure_of s model, health_of s model).

Definition record_of (model : string) (m : Machine) : Z * Z * bool :=
  record model (service m).

Lemma record_canUseModel model x : stable (record_of model) (canUseModel clock x).
Proof.
  change (stable (fun m => record model (service m)) (canUseModel clock x)).
  unfold canUseModel. stable_steps.
Qed.

Lemma record_in_cycle_other now model x :
  x <> model -> stable (record_of model) (in_cycle clock now x).
Proof.
  intros Hne.
  change (stable (fun m => record model (service m)) (in_cycle clock now x)).
  unfold in_cycle.
  repeat match goal with
  | |- stable _ (ret _) => apply stable_ret
  | |- stable _ this => apply stable_this
  | |- stable _ (canUseModel _ _) => apply (record_canUseModel model)
  | |- stable _ (update _) =>
      apply stable_update; intros;
      unfold record, failures_of, lastFailure_of, health_of; cbn;
      rewrite ?lookup_insert_ne by congruence; reflexivity
  | |- stable _ (when _ _) => apply stable_when
  | |- stable _ (bind _ _) => apply stable_bind; [|intros]
  | |- stable _ (if ?b then _ else _) => destruct b
  | |- stable _ (let _ := _ in _) => cbv zeta
  end.
Qed.

Definition requests (model : string) (s : Service) : Z := requests_of s model.




(** A model under its request limit passes the rate gate. *)
Lemma canUseModel_under_limit model m :
  requests_of (service m) model < 15 -> fst (canUseModel clock model m) = true.
Proof.
  intros Hlimit. unfold canUseModel, bind, Date_now, this, update, when, ret. cbn.
  destruct (no_requests (service m) model); cbn;
    [ destruct (window_expired _ _ _); cbn | destruct (window_expired _ _ _); cbn ];
    unfold requests_of, open_window; cbn; rewrite ?lookup_insert_eq; cbn;
    try reflexivity.
  apply Z.ltb_lt. exact Hlimit.
Qed.

(** In its cooldown a model is filtered out, and its failure record is
    kept. *)
Definition in_cooldown (now : Z) (model : string) (m : Machine) : Prop :=
  3 <= failures_of (service m) model
  /\ now - lastFailure_of (service m) model < cooldownTime.

Lemma in_cycle_cooldown now model m :
  in_cooldown now model m ->
  fst (in_cycle clock now model m) = false
  /\ failures_of (service (snd (in_cycle clock now model m))) model
     = failures_of (service m) model
  /\ lastFailure_of (service (snd (in_cycle clock now model m))) model
     = lastFailure_of (service m) model
  /\ health_of (service (snd (in_cycle clock now model m))) model = false.
Proof.
  intros [Hfail Hrecent]. unfold in_cycle, bind, this, update, when, ret. cbn.
  replace (failures_of (service m) model >=? 3) with true
    by (symmetry; apply Z.geb_le; lia).
  replace (now - lastFailure_of (service m) model <? cooldownTime) with true
    by (symmetry; apply Z.ltb_lt; lia).
  cbn. destruct (health_of (service m) model) eqn:Hhealth; cbn.
  - repeat split; try reflexivity. unfold health_of. cbn. now rewrite lookup_insert_eq.
  - repeat split; try reflexivity. exact Hhealth.
Qed.

Lemma in_cycle_keeps_cooldown now model x m :
  in_cooldown now model m -> in_cooldown now model (snd (in_cycle clock now x m)).
Proof.
  intros Hcool. destruct (String.eqb_spec x model) as [->|Hne].
  - destruct (in_cycle_cooldown now model m Hcool) as (_ & Hf & Hl & _).
    unfold in_cooldown. rewrite Hf, Hl. exact Hcool.
  - pose proof (record_in_cycle_other now model x Hne m) as Hrec.
    unfold record_of, record in Hrec. injection Hrec as Hf Hl _.
    unfold in_cooldown. rewrite Hf, Hl. exact Hcool.
Qed.

Lemma filterM_excludes (p : string -> M bool) (model : string) (Q : Machine -> Prop) :
  (forall x m, Q m -> Q (snd (p x m))) ->
  (forall m, Q m -> fst (p model m) = false) ->
  forall l m, Q m ->
    (model ∉ fst (filterM p l m)) /\ Q (snd (filterM p l m)).
Proof.
  intros Hkeep Hfalse. induction l as [|x l IH]; intros m Hm; cbn.
  - split; [apply not_elem_of_nil | exact Hm].
  - unfold bind. pose proof (Hkeep x m Hm) as Hm1. pose proof (Hfalse m Hm) as Hx.
    destruct (p x m) as [keep m1] eqn:Hp. cbn in Hm1.
    destruct (IH m1 Hm1) as [Hout Hm2].
    destruct (filterM p l m1) as [kept m2]. cbn in *.
    split; [|exact Hm2]. destruct keep; [|exact Hout].
    apply not_elem_of_cons. split; [|exact Hout].
    intros ->. rewrite Hp in Hx. discriminate.
Qed.








(** *** The operations on the service

    Every method runs from one [await] to the next without interruption,
    so the reachable states of the service are those obtained from the
    new service by a sequence of these operations. *)
Inductive Op :=
| SetApiKey (key : string)
| CanUseModel (model : string)
| RegisterModelUsage (model : string)
| UpdateHealthyModels
| RecordModelFailure (model errorType : string)
| GetNextModelInCycle
| WaitForCycleTime
| ResetOnSuccess (model : string)
| PrintModelStatus
| Chat (prompt : string) (systemPrompt : option string).

Definition perform (m : Machine) (op : Op) : Machine :=
  match op with
  | SetApiKey key =>
      {| service := setApiKey key (service m); readings := readings m; outbox := outbox m |}
  | CanUseModel model => snd (canUseModel clock model m)
  | RegisterModelUsage model => snd (registerModelUsage clock model m)
  | UpdateHealthyModels => snd (updateHealthyModels clock m)
  | RecordModelFailure model errorType => snd (recordModelFailure clock model errorType m)
  | GetNextModelInCycle => snd (getNextModelInCycle clock m)
  | WaitForCycleTime => snd (waitForCycleTime clock m)
  | ResetOnSuccess model => snd (reset_on_success model m)
  | PrintModelStatus => snd (printModelStatus clock m)
  | Chat prompt systemPrompt => snd (chat clock network prompt systemPrompt m)
  end.

Definition new_machine : Machine :=
  {| service := new_service; readings := 0; outbox := [] |}.

Definition after (ops : list Op) : Machine := fold_left perform ops new_machine.

(** [chatWithCycling], one activation at a time. *)
Lemma chatWithCycling_unroll prompt systemPrompt attemptCount :
  chatWithCycling clock network prompt systemPrompt attemptCount
  = if attemptCount >? 10 then ret (Rejected exhausted_message)
    else attempt clock network
           (chatWithCycling clock network prompt systemPrompt (attemptCount + 1))
           prompt systemPrompt.
Proof.
  rewrite chatWithCycling_equation_1.
  destruct (Z_gt_dec attemptCount 10) as [Hgt|Hle].
  - replace (attemptCount >? 10) with true by (symmetry; apply Z.gtb_lt; lia).
    reflexivity.
  - replace (attemptCount >? 10) with false
      by (symmetry; apply not_true_iff_false; rewrite Z.gtb_lt; lia).
    reflexivity.
Qed.

Lemma chatWithCycling_induction prompt systemPrompt
    (P : Z -> M (Settled string) -> Prop) :
  (forall attemptCount, attemptCount > 10 -> P attemptCount (ret (Rejected exhausted_message))) ->
  (forall attemptCount retry, attemptCount <= 10 ->
     P (attemptCount + 1) retry ->
     P attemptCount (attempt clock network retry prompt systemPrompt)) ->
  forall attemptCount,
    P attemptCount (chatWithCycling clock network prompt systemPrompt attemptCount).
Proof.
  intros Hstop Hretry attemptCount.
  remember (Z.to_nat (11 - attemptCount)) as left eqn:Hleft.
  revert attemptCount Hleft. induction left as [|left IH]; intros attemptCount Hleft;
    rewrite chatWithCycling_unroll.
  - replace (attemptCount >? 10) with true by (symmetry; apply Z.gtb_lt; lia).
    apply Hstop. lia.
  - replace (attemptCount >? 10) with false
      by (symmetry; apply not_true_iff_false; rewrite Z.gtb_lt; lia).
    apply Hretry; [lia|]. apply IH. lia.
Qed.

(** *** The cycle is never empty *)

Lemma preserves_if {A} (P : Machine -> Prop) (b : bool) (c1 c2 : M A) :
  preserves P c1 -> preserves P c2 -> preserves P (if b then c1 else c2).
Proof. destruct b; auto. Qed.

Lemma cycle_ok_try_block retry selectedModel prompt systemPrompt :
  preserves cycle_ok retry ->
  preserves cycle_ok (try_block clock network retry selectedModel prompt systemPrompt).
Proof.
  intros Hretry. unfold try_block.
  apply preserves_bind; [apply stable_preserves, cycle_registerModelUsage | intros _].
  apply preserves_bind; [apply stable_preserves, cycle_fetch | intros fetched].
  destruct fetched as [response|error]; [|apply preserves_ret].
  repeat apply preserves_if.
  - apply preserves_bind; [apply stable_preserves, cycle_recordModelFailure | intros _].
    apply preserves_bind; [apply cycle_ok_updateHealthyModels | intros _].
    apply preserves_bind; [apply stable_preserves, stable_this | intros s].
    apply preserves_if; [apply preserves_ret | exact Hretry].
  - destruct (text response); [|apply preserves_ret].
    apply preserves_bind; [apply stable_preserves, cycle_recordModelFailure | intros _].
    exact Hretry.
  - destruct (json response) as [data|]; [|apply preserves_ret].
    apply preserves_bind; [apply stable_preserves, cycle_reset_on_success | intros _].
    destruct data; apply preserves_ret.
Qed.

Lemma cycle_ok_attempt retry prompt systemPrompt :
  preserves cycle_ok retry ->
  preserves cycle_ok (attempt clock network retry prompt systemPrompt).
Proof.
  intros Hretry. unfold attempt.
  apply preserves_bind; [apply stable_preserves, cycle_waitForCycleTime | intros _].
  apply preserves_bind; [apply cycle_ok_getNextModelInCycle | intros selectedModel].
  apply preserves_bind; [now apply cycle_ok_try_block | intros outcome].
  destruct outcome; [apply preserves_ret|].
  apply preserves_bind; [apply stable_preserves, cycle_recordModelFailure | intros _].
  exact Hretry.
Qed.

Lemma cycle_ok_chatWithCycling prompt systemPrompt attemptCount :
  preserves cycle_ok (chatWithCycling clock network prompt systemPrompt attemptCount).
Proof.
  apply (chatWithCycling_induction prompt systemPrompt (fun _ c => preserves cycle_ok c)).
  - intros _ _. apply preserves_ret.
  - intros n retry _ Hretry. now apply cycle_ok_attempt.
Qed.

Lemma cycle_ok_chat prompt systemPrompt :
  preserves cycle_ok (chat clock network prompt systemPrompt).
Proof.
  unfold chat. apply preserves_bind; [apply stable_preserves, stable_this | intros s].
  apply preserves_if; [apply preserves_ret|].
  apply preserves_bind; [apply stable_preserves, cycle_printModelStatus | intros _].
  apply cycle_ok_chatWithCycling.
Qed.

Lemma cycle_ok_new_machine : cycle_ok new_machine.
Proof. split; [discriminate | intros model Hin; exact Hin]. Qed.

Lemma cycle_ok_perform m op : cycle_ok m -> cycle_ok (perform m op).
Proof.
  intros Hm. destruct op; cbn [perform].
  - exact Hm.
  - exact (stable_preserves _ (cycle_canUseModel _) m Hm).
  - exact (stable_preserves _ (cycle_registerModelUsage _) m Hm).
  - now apply cycle_ok_updateHealthyModels.
  - exact (stable_preserves _ (cycle_recordModelFailure _ _) m Hm).
  - now apply cycle_ok_getNextModelInCycle.
  - exact (stable_preserves _ cycle_waitForCycleTime m Hm).
  - exact (stable_preserves _ (cycle_reset_on_success _) m Hm).
  - exact (stable_preserves _ cycle_printModelStatus m Hm).
  - now apply cycle_ok_chat.
Qed.

Lemma cycle_ok_after ops : cycle_ok (after ops).
Proof.
  unfold after. generalize cycle_ok_new_machine. generalize new_machine.
  induction ops as [|op ops IH]; intros m Hm; [exact Hm|].
  cbn. apply IH. now apply cycle_ok_perform.
Qed.

(** *** Failures, cooldown and recovery *)



Lemma in_cycle_keeps_failure_record now model x m :
  in_cooldown now model m ->
  in_cooldown now model (snd (in_cycle clock now x m))
  /\ lastFailure_of (service (snd (in_cycle clock now x m))) model
     = lastFailure_of (service m) model.
Proof.
  intros Hcool. split; [now apply in_cycle_keeps_cooldown|].
  destruct (String.eqb_spec x model) as [->|Hne].
  - now destruct (in_cycle_cooldown now model m Hcool) as (_ & _ & Hl & _).
  - pose proof (record_in_cycle_other now model x Hne m) as Hrec.
    unfold record_of, record in Hrec. now injection Hrec as _ Hl _.
Qed.

(** A model in its cooldown does not pass the filter, and keeps the time
    of its last failure. *)
Lemma filter_in_cooldown now model l m :
  in_cooldown now model m ->
  (model ∉ fst (filterM (in_cycle clock now) l m))
  /\ lastFailure_of (service (snd (filterM (in_cycle clock now) l m))) model
     = lastFailure_of (service m) model.
Proof.
  intros Hcool.
  destruct (filterM_excludes (in_cycle clock now) model
              (fun m' => in_cooldown now model m'
                         /\ lastFailure_of (service m') model
                            = lastFailure_of (service m) model)) with (l := l) (m := m)
    as (Hout & _ & Hlast).
  - intros x m' [Hc Hl]. destruct (in_cycle_keeps_failure_record now model x m' Hc) as [Hc' Hl'].
    split; [exact Hc' | congruence].
  - intros m' [Hc _]. now destruct (in_cycle_cooldown now model m' Hc).
  - split; [exact Hcool | reflexivity].
  - split; assumption.
Qed.


Lemma all_in_cooldown_filtered now m :
  (forall model, model ∈ availableModels -> in_cooldown now model m) ->
  fst (filterM (in_cycle clock now) availableModels m) = [].
Proof.
  intros Hall.
  pose proof (filterM_sublist (in_cycle clock now) availableModels m) as Hsub.
  destruct (fst (filterM (in_cycle clock now) availableModels m)) as [|k kept] eqn:Hkept;
    [reflexivity|].
  assert (Hk : k ∈ availableModels)
    by (eapply elem_of_sublist; [apply elem_of_cons; now left | exact Hsub]).
  destruct (filter_in_cooldown now k availableModels m (Hall k Hk)) as [Hout _].
  rewrite Hkept in Hout. exfalso. apply Hout. apply elem_of_cons. now left.
Qed.

(** A model that is marked unhealthy with fewer than three failures
    recorded, as a success after the third failure leaves it, does not pass
    the filter. *)
Remark unhealthy_without_failures_filtered now model m :
  failures_of (service m) model < 3 ->
  health_of (service m) model = false ->
  fst (in_cycle clock now model m) = false.
Proof.
  intros Hfew Hsick. unfold in_cycle, bind, this, update, when, ret. cbn -[canUseModel].
  replace (failures_of (service m) model >=? 3) with false
    by (symmetry; apply not_true_iff_false; rewrite Z.geb_le; lia).
  cbn -[canUseModel].
  pose proof (record_canUseModel model model m) as Hrec.
  destruct (canUseModel clock model m) as [canUse m1]. cbn in Hrec.
  unfold record_of, record in Hrec. injection Hrec as _ _ Hh.
  cbn. rewrite Hh, Hsick. now destruct canUse.
Qed.

Lemma emergency_after_update (m : Machine) :
  due m ->
  fst (filterM (in_cycle clock (clock (readings m))) availableModels (stamped m)) = [] ->
  service (snd (updateHealthyModels clock m))
  = emergency_reset
      (set_healthyModels []
         (service (snd (filterM (in_cycle clock (clock (readings m)))
                          availableModels (stamped m))))).
Proof.
  intros Hdue Hnone.
  destruct (updateHealthyModels_cases m) as [[Hnot _] | [(_ & Hne & _) | (_ & _ & E)]];
    [contradiction | contradiction | exact E].
Qed.

(** C10.  In every state the service can reach the cycle is not empty and
    the selection returns one of the configured models.  When a
    recomputation of the healthy models keeps none, every model's failure
    count is zero and every model is healthy afterwards, and all of them
    are in the cycle.  In particular, when every model is in its cooldown
    at a recomputation, the selection still returns a model, one whose
    last failure is less than two minutes old. *)
Theorem cycle_never_empty (ops : list Op) (m : Machine) :
  (cycle (after ops) <> []
   /\ fst (getNextModelInCycle clock (after ops)) ∈ availableModels
   /\ cycle (snd (getNextModelInCycle clock (after ops))) <> [])
  /\ (due m ->
      fst (filterM (in_cycle clock (clock (readings m))) availableModels (stamped m)) = [] ->
      let m' := snd (updateHealthyModels clock m) in
      cycle m' = availableModels
      /\ forall model, model ∈ availableModels ->
           failures_of (service m') model = 0 /\ health_of (service m') model = true)
  /\ (due m ->
      (forall model, model ∈ availableModels -> in_cooldown (clock (readings m)) model m) ->
      let selected := fst (getNextModelInCycle clock m) in
      let m' := snd (getNextModelInCycle clock m) in
      selected ∈ availableModels
      /\ clock (readings m) - lastFailure_of (service m') selected < cooldownTime
      /\ cycle m' = availableModels).
Proof.
  split; [|split].
  - pose proof (cycle_ok_after ops) as Hok.
    destruct (getNextModelInCycle_selects _ Hok) as (Hin & _ & Hcycle).
    destruct (cycle_ok_updateHealthyModels _ Hok) as [Hne Hsub].
    split; [apply Hok|]. split; [now apply Hsub | now rewrite Hcycle].
  - intros Hdue Hnone m'. subst m'. unfold cycle.
    rewrite (emergency_after_update m Hdue Hnone).
    destruct (emergency_reset_spec
                (set_healthyModels []
                   (service (snd (filterM (in_cycle clock (clock (readings m)))
                                    availableModels (stamped m))))))
      as [Hcycle Hreset].
    split; [exact Hcycle|]. intros model Hin.
    destruct (Hreset model Hin) as (Hf & Hh & _). now split.
  - intros Hdue Hall selected m'. subst selected m'.
    assert (Hall' : forall model, model ∈ availableModels ->
                      in_cooldown (clock (readings m)) model (stamped m))
      by (intros model Hin; exact (Hall model Hin)).
    pose proof (all_in_cooldown_filtered _ _ Hall') as Hnone.
    pose proof (emergency_after_update m Hdue Hnone) as Hservice.
    assert (Hcycle : cycle (snd (updateHealthyModels clock m)) = availableModels)
      by (unfold cycle; now rewrite Hservice).
    destruct (getNextModelInCycle_after_update m) as (Hin & _ & Hafter);
      [rewrite Hcycle; discriminate|].
    rewrite Hcycle in Hin. split; [exact Hin|].
    split; [|unfold cycle in *; rewrite Hafter; exact Hcycle].
    rewrite Hafter.
    change (lastFailure_of (set_currentModelIndex ?i ?s) ?x) with (lastFailure_of s x).
    rewrite Hservice.
    destruct (emergency_reset_spec
                (set_healthyModels []
                   (service (snd (filterM (in_cycle clock (clock (readings m)))
                                    availableModels (stamped m))))))
      as [_ Hreset].
    destruct (Hreset _ Hin) as (_ & _ & Hlast). rewrite Hlast.
    change (lastFailure_of (set_healthyModels ?l ?s) ?x) with (lastFailure_of s x).
    destruct (filter_in_cooldown _ _ availableModels _ (Hall' _ Hin)) as [_ Hkept].
    rewrite Hkept. apply (Hall _ Hin).
Qed.


(** *** The number of requests of one call of [chat] *)

Definition sent (m : Machine) : nat := length (outbox m).

(** The requests a call sends when every attempt fails and [left]
    activations remain: one, and then everything the next activation
    sends, twice, once for the call in the [try] block and once for the
    call in the [catch] block. *)
Fixpoint requests_needed (left : nat) : nat :=
  match left with
  | O => 0
  | S left' => 1 + 2 * requests_needed left'
  end.

(** A computation sends at most [k] requests. *)
Definition within {A} (c : M A) (k : nat) : Prop :=
  forall m, (sent (snd (c m)) <= sent m + k)%nat.

Lemma within_ret {A} (a : A) : within (ret a) 0.
Proof. intros m. cbn. lia. Qed.

Lemma within_bind {A B} (c : M A) (f : A -> M B) (k1 k2 : nat) :
  within c k1 -> (forall a, within (f a) k2) -> within (bind c f) (k1 + k2).
Proof.
  intros Hc Hf m. unfold bind. specialize (Hc m).
  destruct (c m) as [a m1]. specialize (Hf a m1). cbn in Hc. lia.
Qed.

Lemma within_more {A} (c : M A) (k k' : nat) : (k <= k')%nat -> within c k -> within c k'.
Proof. intros Hle Hc m. specialize (Hc m). lia. Qed.

Lemma within_stable {A} (c : M A) : stable outbox c -> within c 0.
Proof. intros Hc m. unfold sent. rewrite (Hc m). lia. Qed.

Lemma within_fetch request : within (fetch network request) 1.
Proof. intros m. unfold sent. cbn. rewrite length_app. cbn. lia. Qed.

Lemma within_try_block retry k selectedModel prompt systemPrompt :
  within retry k ->
  within (try_block clock network retry selectedModel prompt systemPrompt) (1 + k).
Proof.
  intros Hretry. unfold try_block.
  apply (within_bind _ _ 0 (1 + k)); [apply within_stable, outbox_registerModelUsage | intros _].
  apply (within_bind _ _ 1 k); [apply within_fetch | intros fetched].
  destruct fetched as [response|error]; [|apply (within_more _ 0); [lia | apply within_ret]].
  destruct (status response =? 429).
  - apply (within_bind _ _ 0 k); [apply within_stable, outbox_recordModelFailure | intros _].
    apply (within_bind _ _ 0 k); [apply within_stable, outbox_updateHealthyModels | intros _].
    apply (within_bind _ _ 0 k); [apply within_stable, stable_this | intros s].
    destruct (length (healthyModels s) =? 0)%nat; [|exact Hretry].
    apply (within_more _ 0); [lia | apply within_ret].
  - destruct (negb (ok response)).
    + destruct (text response); [|apply (within_more _ 0); [lia | apply within_ret]].
      apply (within_bind _ _ 0 k); [apply within_stable, outbox_recordModelFailure | intros _].
      exact Hretry.
    + destruct (json response) as [data|];
        [|apply (within_more _ 0); [lia | apply within_ret]].
      apply (within_bind _ _ 0 k); [apply within_stable, outbox_reset_on_success | intros _].
      destruct data; (apply (within_more _ 0); [lia | apply within_ret]).
Qed.

Lemma within_attempt retry k prompt systemPrompt :
  within retry k ->
  within (attempt clock network retry prompt systemPrompt) (1 + 2 * k).
Proof.
  intros Hretry. unfold attempt.
  apply (within_bind _ _ 0 (1 + 2 * k));
    [apply within_stable, outbox_waitForCycleTime | intros _].
  apply (within_bind _ _ 0 (1 + 2 * k));
    [apply within_stable, outbox_getNextModelInCycle | intros selectedModel].
  replace (1 + 2 * k)%nat with ((1 + k) + k)%nat by lia.
  apply within_bind; [now apply within_try_block | intros outcome].
  destruct outcome; [apply (within_more _ 0); [lia | apply within_ret]|].
  apply (within_bind _ _ 0 k); [apply within_stable, outbox_recordModelFailure | intros _].
  exact Hretry.
Qed.

(** A call ends with a text or with the error of the guard. *)
Definition concludes (c : M (Settled string)) : Prop :=
  forall m, (exists text, fst (c m) = Fulfilled text)
            \/ fst (c m) = Rejected exhausted_message.

Lemma concludes_attempt retry prompt systemPrompt :
  concludes retry -> concludes (attempt clock network retry prompt systemPrompt).
Proof.
  intros Hretry m. unfold attempt, bind.
  destruct (waitForCycleTime clock m) as [[] m1].
  destruct (getNextModelInCycle clock m1) as [selectedModel m2].
  destruct (try_block clock network retry selectedModel prompt systemPrompt m2)
    as [[content|error] m3].
  - left. now exists content.
  - destruct (recordModelFailure clock selectedModel "exception" m3) as [[] m4].
    apply Hretry.
Qed.

Lemma chatWithCycling_concludes prompt systemPrompt attemptCount :
  concludes (chatWithCycling clock network prompt systemPrompt attemptCount)
  /\ within (chatWithCycling clock network prompt systemPrompt attemptCount)
            (requests_needed (Z.to_nat (11 - attemptCount))).
Proof.
  apply (chatWithCycling_induction prompt systemPrompt
           (fun n c => concludes c /\ within c (requests_needed (Z.to_nat (11 - n))))).
  - intros n Hn. split; [intros m; now right|].
    replace (Z.to_nat (11 - n)) with 0%nat by lia. apply within_ret.
  - intros n retry Hn [Hc Hw]. split; [now apply concludes_attempt|].
    replace (Z.to_nat (11 - n)) with (S (Z.to_nat (11 - (n + 1)))) by lia.
    cbn [requests_needed]. now apply within_attempt.
Qed.

(** A computation that sends exactly [k] requests, keeps the cycle in
    order and returns a value in [Q], from any state with the cycle in
    order. *)
Definition costs {A} (c : M A) (k : nat) (Q : A -> Prop) : Prop :=
  forall m, cycle_ok m ->
    Q (fst (c m)) /\ sent (snd (c m)) = (sent m + k)%nat /\ cycle_ok (snd (c m)).

Lemma costs_ret {A} (a : A) (Q : A -> Prop) : Q a -> costs (ret a) 0 Q.
Proof. intros Ha m Hm. cbn. repeat split; [exact Ha | lia | apply Hm | apply Hm]. Qed.

Lemma costs_bind {A B} (c : M A) (f : A -> M B) (k1 k2 : nat)
    (Q1 : A -> Prop) (Q2 : B -> Prop) :
  costs c k1 Q1 -> (forall a, Q1 a -> costs (f a) k2 Q2) -> costs (bind c f) (k1 + k2) Q2.
Proof.
  intros Hc Hf m Hm. unfold bind. destruct (Hc m Hm) as (Ha & Hk & Hm1).
  destruct (c m) as [a m1]. cbn in Ha, Hk, Hm1.
  destruct (Hf a Ha m1 Hm1) as (Hb & Hk2 & Hm2).
  split; [exact Hb|]. split; [lia | exact Hm2].
Qed.

Lemma costs_quiet {A} (c : M A) :
  stable outbox c -> preserves cycle_ok c -> costs c 0 (fun _ => True).
Proof.
  intros Hout Hok m Hm. split; [exact I|]. split; [|now apply Hok].
  unfold sent. rewrite (Hout m). lia.
Qed.

Lemma costs_this : costs this 0 (fun s => healthyModels s <> []).
Proof. intros m Hm. cbn. split; [apply Hm|]. split; [lia | exact Hm]. Qed.

Section AllRateLimited.

Hypothesis rate_limited :
  forall n request, exists response,
    network n request = Fulfilled response /\ status response = 429.

Lemma costs_fetch request :
  costs (fetch network request) 1
        (fun fetched => exists response, fetched = Fulfilled response /\ status response = 429).
Proof.
  intros m Hm. cbn. split; [apply rate_limited|].
  split; [unfold sent; cbn; rewrite length_app; cbn; lia | exact Hm].
Qed.

Lemma costs_try_block retry k selectedModel prompt systemPrompt :
  costs retry k (eq (Rejected exhausted_message)) ->
  costs (try_block clock network retry selectedModel prompt systemPrompt) (1 + k)
        (eq (Rejected exhausted_message)).
Proof.
  intros Hretry. unfold try_block.
  apply (costs_bind _ _ 0 (1 + k) (fun _ => True));
    [apply costs_quiet; [apply outbox_registerModelUsage
                        | apply stable_preserves, cycle_registerModelUsage] | intros _ _].
  apply (costs_bind _ _ 1 k
           (fun fetched => exists response, fetched = Fulfilled response /\ status response = 429));
    [apply costs_fetch | intros fetched (response & -> & Hstatus)].
  rewrite Hstatus. cbn [Z.eqb Pos.eqb].
  apply (costs_bind _ _ 0 k (fun _ => True));
    [apply costs_quiet; [apply outbox_recordModelFailure
                        | apply stable_preserves, cycle_recordModelFailure] | intros _ _].
  apply (costs_bind _ _ 0 k (fun _ => True));
    [apply costs_quiet; [apply outbox_updateHealthyModels
                        | apply cycle_ok_updateHealthyModels] | intros _ _].
  apply (costs_bind _ _ 0 k (fun s => healthyModels s <> []));
    [apply costs_this | intros s Hs].
  destruct (healthyModels s); [contradiction | exact Hretry].
Qed.

Lemma costs_attempt retry k prompt systemPrompt :
  costs retry k (eq (Rejected exhausted_message)) ->
  costs (attempt clock network retry prompt systemPrompt) (1 + 2 * k)
        (eq (Rejected exhausted_message)).
Proof.
  intros Hretry. unfold attempt.
  apply (costs_bind _ _ 0 (1 + 2 * k) (fun _ => True));
    [apply costs_quiet; [apply outbox_waitForCycleTime
                        | apply stable_preserves, cycle_waitForCycleTime] | intros _ _].
  apply (costs_bind _ _ 0 (1 + 2 * k) (fun _ => True));
    [apply costs_quiet; [apply outbox_getNextModelInCycle
                        | apply cycle_ok_getNextModelInCycle] | intros selectedModel _].
  replace (1 + 2 * k)%nat with ((1 + k) + k)%nat by lia.
  apply (costs_bind _ _ (1 + k) k (eq (Rejected exhausted_message)));
    [now apply costs_try_block | intros outcome <-].
  replace k with (0 + k)%nat at 1 by lia.
  apply (costs_bind _ _ 0 k (fun _ => True));
    [apply costs_quiet; [apply outbox_recordModelFailure
                        | apply stable_preserves, cycle_recordModelFailure] | intros _ _].
  exact Hretry.
Qed.

Lemma chatWithCycling_costs prompt systemPrompt attemptCount :
  costs (chatWithCycling clock network prompt systemPrompt attemptCount)
        (requests_needed (Z.to_nat (11 - attemptCount)))
        (eq (Rejected exhausted_message)).
Proof.
  apply (chatWithCycling_induction prompt systemPrompt
           (fun n c => costs c (requests_needed (Z.to_nat (11 - n)))
                             (eq (Rejected exhausted_message)))).
  - intros n Hn. replace (Z.to_nat (11 - n)) with 0%nat by lia.
    now apply costs_ret.
  - intros n retry Hn Hretry.
    replace (Z.to_nat (11 - n)) with (S (Z.to_nat (11 - (n + 1)))) by lia.
    cbn [requests_needed]. now apply costs_attempt.
Qed.

End AllRateLimited.

(** C3 on the code.  A call of [chat] always ends, with a text or with
    the error raised by the guard, and whatever the network answers it
    sends at most 2047 requests.  That bound is reached: when every
    request is answered with HTTP 429 the call sends 2047 requests before
    it fails, not 10.  The guard [attemptCount > 10] lets eleven
    activations through, and the recursive call made inside the [try]
    block is made again by the [catch] block when it fails. *)
Theorem chat_sends_2047_requests_when_rate_limited
    (prompt : string) (systemPrompt : option string) (ops : list Op) :
  (forall m,
     ((exists text, fst (chatWithCycling clock network prompt systemPrompt 0 m) = Fulfilled text)
      \/ fst (chatWithCycling clock network prompt systemPrompt 0 m)
         = Rejected exhausted_message)
     /\ (sent (snd (chatWithCycling clock network prompt systemPrompt 0 m))
         <= sent m + 2047)%nat)
  /\ ((forall n request, exists response,
         network n request = Fulfilled response /\ status response = 429) ->
      fst (chatWithCycling clock network prompt systemPrompt 0 (after ops))
      = Rejected exhausted_message
      /\ sent (snd (chatWithCycling clock network prompt systemPrompt 0 (after ops)))
         = (sent (after ops) + 2047)%nat).
Proof.
  split.
  - intros m. destruct (chatWithCycling_concludes prompt systemPrompt 0) as [Hc Hw].
    split; [apply Hc | apply Hw].
  - intros Hlimited.
    destruct (chatWithCycling_costs Hlimited prompt systemPrompt 0 (after ops)
                (cycle_ok_after ops)) as (Hresult & Hsent & _).
    split; [now symmetry | exact Hsent].
Qed.

End Cycle.

(** ** Concrete runs of the service *)

Section Runs.

Import Cerebras.

(** A clock that advances five seconds between two readings, a network
    that is down, and one that answers every request with HTTP 429. *)
Definition slow_clock (n : nat) : Z := 1000000 + 5000 * Z.of_nat n.

Definition offline (n : nat) (request : Request) : Settled Response :=
  Rejected "Failed to fetch".

Definition too_many_requests : Response :=
  {| status := 429; statusText := "Too Many Requests";
     text := Fulfilled "rate limited"; json := Rejected "no body" |}.

Definition throttled (n : nat) (request : Request) : Settled Response :=
  Fulfilled too_many_requests.

(** A clock that advances one millisecond between two readings. *)
Definition fast_clock (n : nat) : Z := 1000000 + Z.of_nat n.

(** The first model is selected and fails three times in a row; the
    other three are selected once each. *)
Definition three_failures : list Op :=
  [ SetApiKey "key";
    GetNextModelInCycle;
    RecordModelFailure "llama-3.3-70b" "rate_limit";
    RecordModelFailure "llama-3.3-70b" "rate_limit";
    RecordModelFailure "llama-3.3-70b" "rate_limit";
    GetNextModelInCycle;
    GetNextModelInCycle;
    GetNextModelInCycle ].




Definition every_model_failed_thrice : list Op :=
  SetApiKey "key"
  :: flat_map (fun model => [ RecordModelFailure model "rate_limit";
                              RecordModelFailure model "rate_limit";
                              RecordModelFailure model "rate_limit" ])
       availableModels.

Lemma cycle_never_empty_witness :
  let m := after slow_clock offline every_model_failed_thrice in
  fst (getNextModelInCycle slow_clock m) ∈ availableModels
  /\ slow_clock (readings m)
     - lastFailure_of (service (snd (getNextModelInCycle slow_clock m)))
         (fst (getNextModelInCycle slow_clock m)) < cooldownTime
  /\ cycle (snd (getNextModelInCycle slow_clock m)) = availableModels.
Proof.
  refine (proj2 (proj2 (cycle_never_empty slow_clock offline []
                          (after slow_clock offline every_model_failed_thrice))) _ _).
  - unfold due. apply Z.leb_le. vm_compute. reflexivity.
  - intros model Hin. apply list_elem_of_In in Hin. cbn in Hin.
    destruct Hin as [<-|[<-|[<-|[<-|[]]]]];
      (split; [apply Z.leb_le | apply Z.ltb_lt]); vm_compute; reflexivity.
Defined.

Lemma chat_sends_2047_requests_when_rate_limited_witness :
  fst (chatWithCycling fast_clock throttled "hello" None 0
         (after fast_clock throttled [SetApiKey "key"]))
  = Rejected exhausted_message
  /\ sent (snd (chatWithCycling fast_clock throttled "hello" None 0
                  (after fast_clock throttled [SetApiKey "key"])))
     = (sent (after fast_clock throttled [SetApiKey "key"]) + 2047)%nat.
Proof.
  refine (proj2 (chat_sends_2047_requests_when_rate_limited fast_clock throttled
                   "hello" None [SetApiKey "key"]) _).
  intros n request. exists too_many_requests. split; reflexivity.
Defined.

End Runs.


(** * More properties

    What the remaining methods of the classes guarantee. *)

(** ** Requests for contents and what the search client raises *)

Section ContentsClient.

Import Contents.

Lemma requests_app (out out' : list Effect) :
  requests (out ++ out') = requests out ++ requests out'.
Proof. unfold requests. apply flat_map_app. Qed.

Lemma getContents_try_requests (urls : list string) (fetched : Settled Exa.Response) :
  requests (snd (getContents_try urls fetched)) = [urls].
Proof.
  unfold getContents_try.
  destruct fetched as [response|error]; cbn; [|reflexivity].
  destruct (Exa.ok response); cbn.
  - destruct (Exa.json response); reflexivity.
  - destruct (Exa.text response) as [errorText|error]; cbn; [|reflexivity].
    destruct (Exa.status response =? 402); [reflexivity|].
    destruct (Exa.status response =? 429); reflexivity.
Qed.

Lemma getContents_catch_requests (attempt : Comp (list Exa.SearchResult)) :
  requests (snd (getContents_catch attempt)) = requests (snd attempt).
Proof.
  destruct attempt as [[results|error] out]; cbn; [reflexivity|].
  destruct (mentions_quota error); cbn; rewrite requests_app; cbn; apply app_nil_r.
Qed.

(** X1.  [getContents] sends a request exactly when a key is configured
    and the list of URLs is not empty: without a key or without URLs it
    returns the empty list, sends nothing and logs nothing; otherwise it
    sends one request, for the URLs it was given. *)
Theorem getContents_requests_once (apiKey : string) (urls : list string)
    (fetched : Settled Exa.Response) :
  (apiKey = EmptyString \/ urls = [] ->
   getContents apiKey urls fetched = (Fulfilled [], [])) /\
  (apiKey <> EmptyString -> urls <> [] ->
   requests (snd (getContents apiKey urls fetched)) = [urls]).
Proof.
  unfold getContents. split.
  - intros [-> | ->]; [reflexivity|].
    rewrite orb_true_r. reflexivity.
  - intros Hkey Hurls.
    destruct (String.eqb_spec apiKey EmptyString) as [Heq|_]; [contradiction|].
    destruct urls as [|u urls']; [contradiction|]. cbn [length Nat.eqb orb].
    rewrite getContents_catch_requests. apply getContents_try_requests.
Qed.

Lemma getContents_requests_once_witness :
  getContents EmptyString ["https://a.example"] (Rejected "offline") = (Fulfilled [], []) /\
  requests (snd (getContents "key" ["https://a.example"] (Rejected "offline")))
  = [["https://a.example"]].
Proof.
  split.
  - apply (getContents_requests_once EmptyString ["https://a.example"] (Rejected "offline")).
    left. reflexivity.
  - apply (getContents_requests_once "key" ["https://a.example"] (Rejected "offline")).
    + discriminate.
    + discriminate.
Defined.

(** X2.  [getContents] raises nothing but the quota condition: a
    rejection carries a message that mentions the quota, and it was
    logged.  An answer outside 2xx other than 402 whose body can be read,
    429 included, gives the empty list. *)
Theorem getContents_raises_only_quota (apiKey : string) (urls : list string)
    (fetched : Settled Exa.Response) :
  (forall message,
     fst (getContents apiKey urls fetched) = Rejected message ->
     mentions_quota message = true /\
     In (ContentsFailed message) (snd (getContents apiKey urls fetched))) /\
  (forall response errorText,
     fetched = Fulfilled response ->
     Exa.ok response = false ->
     Exa.status response <> 402 ->
     Exa.text response = Fulfilled errorText ->
     apiKey <> EmptyString -> urls <> [] ->
     fst (getContents apiKey urls fetched) = Fulfilled []).
Proof.
  unfold getContents. split.
  - intros message.
    destruct (String.eqb apiKey EmptyString || (length urls =? 0)%nat);
      [discriminate|].
    unfold getContents_catch.
    destruct (getContents_try urls fetched) as [[results|error] out]; [discriminate|].
    destruct (mentions_quota error) eqn:Hquota; [|discriminate].
    cbn. intros [= <-]. split; [exact Hquota|].
    apply in_or_app. right. left. reflexivity.
  - intros response errorText -> Hok Hstatus Htext Hkey Hurls.
    destruct (String.eqb_spec apiKey EmptyString) as [Heq|_]; [contradiction|].
    destruct urls as [|u urls']; [contradiction|]. cbn [length Nat.eqb orb].
    unfold getContents_try. cbn. rewrite Hok. cbn. rewrite Htext. cbn.
    destruct (Z.eqb_spec (Exa.status response) 402) as [Heq|_]; [contradiction|].
    destruct (Exa.status response =? 429); reflexivity.
Qed.

Definition busy : Exa.Response :=
  {| Exa.status := 429; Exa.statusText := "Too Many Requests";
     Exa.text := Fulfilled "slow down"; Exa.json := Rejected "not JSON" |}.

Definition out_of_credits : Exa.Response :=
  {| Exa.status := 402; Exa.statusText := "Payment Required";
     Exa.text := Fulfilled "no credits"; Exa.json := Rejected "not JSON" |}.

Lemma getContents_raises_only_quota_witness :
  mentions_quota Exa.credits_message = true /\
  fst (getContents "key" ["https://a.example"] (Fulfilled busy)) = Fulfilled [].
Proof.
  split.
  - apply (getContents_raises_only_quota "key" ["https://a.example"]
             (Fulfilled out_of_credits)). reflexivity.
  - apply (getContents_raises_only_quota "key" ["https://a.example"] (Fulfilled busy))
      with (response := busy) (errorText := "slow down").
    + reflexivity.
    + reflexivity.
    + cbn. lia.
    + reflexivity.
    + discriminate.
    + discriminate.
Defined.

(** X3.  [search] raises nothing but the missing key and the quota
    condition: rate limiting, authentication failures and every other
    error end as an empty result. *)
Theorem search_raises_only_key_or_quota (apiKey : string) (isProduction : bool)
    (proxied direct : Settled Exa.Response) (message : string) :
  fst (Exa.search apiKey isProduction proxied direct) = Rejected message ->
  (apiKey = EmptyString /\ message = Exa.not_configured_message) \/
  (apiKey <> EmptyString /\ mentions_quota message = true).
Proof.
  unfold Exa.search.
  destruct (String.eqb_spec apiKey EmptyString) as [Heq|Hkey].
  - cbn. intros [= <-]. left. split; [exact Heq|reflexivity].
  - unfold Exa.search_catch.
    destruct (Exa.search_try isProduction proxied direct) as [[results|error] out];
      [discriminate|].
    destruct (mentions_quota error) eqn:Hquota; [|discriminate].
    cbn. intros [= <-]. right. split; [exact Hkey|exact Hquota].
Qed.

Lemma search_raises_only_key_or_quota_witness :
  (EmptyString = EmptyString /\ Exa.not_configured_message = Exa.not_configured_message) \/
  (EmptyString <> EmptyString /\ mentions_quota Exa.not_configured_message = true).
Proof.
  apply (search_raises_only_key_or_quota EmptyString false
           (Rejected "offline") (Rejected "offline") Exa.not_configured_message).
  reflexivity.
Defined.

End ContentsClient.

(** ** The per-model request gate *)

Section Gate.

Import Cerebras.

Variable clock : nat -> Z.

Lemma no_requests_iff (s : Service) (model : string) :
  no_requests s model = true <-> requests_of s model = 0.
Proof.
  unfold no_requests, requests_of.
  destruct (modelRequestCounts s !! model) as [n|]; cbn.
  - apply Z.eqb_eq.
  - split; reflexivity.
Qed.

Lemma requests_of_open_window (now : Z) (model : string) (s : Service) :
  requests_of (open_window now model s) model = 0
  /\ modelRequestWindows (open_window now model s) !! model = Some now.
Proof.
  unfold requests_of, open_window. cbn. rewrite !lookup_insert_eq. split; reflexivity.
Qed.

(** X4.  For a configured model, [registerModelUsage] adds exactly one
    to the count of the model, whatever the state; and once the count has
    reached 15 in a window that has not expired, [canUseModel] refuses
    the model and changes nothing in the service. *)
Theorem request_gate_closes_at_fifteen (model : string) (m : Machine) :
  model ∈ availableModels ->
  requests_of (service (snd (registerModelUsage clock model m))) model
  = requests_of (service m) model + 1
  /\ (15 <= requests_of (service m) model ->
      window_expired (clock (readings m)) (service m) model = false ->
      fst (canUseModel clock model m) = false
      /\ service (snd (canUseModel clock model m)) = service m).
Proof.
  intros _. split.
  - unfold registerModelUsage, bind, this, update, when, ret, Date_now. cbn.
    destruct (no_requests (service m) model) eqn:Hnone; cbn.
    + apply no_requests_iff in Hnone. rewrite Hnone.
      unfold requests_of at 1. cbn. rewrite lookup_insert_eq. cbn.
      destruct (requests_of_open_window (clock (readings m)) model (service m)) as [-> _].
      reflexivity.
    + unfold requests_of at 1. cbn. rewrite lookup_insert_eq. reflexivity.
  - intros Hfull Hlive.
    assert (Hsome : no_requests (service m) model = false).
    { apply not_true_iff_false. rewrite no_requests_iff. lia. }
    unfold canUseModel, bind, this, update, when, ret, Date_now. cbn.
    rewrite Hsome. cbn. rewrite Hlive. cbn. split; [|reflexivity].
    apply Z.ltb_ge. exact Hfull.
Qed.

(** X5.  The gate reopens by itself: when a configured model has no
    request counted, or more than 60 seconds have passed since its
    window opened, [canUseModel] accepts the model, sets its count to
    zero and starts a new window at the current time. *)
Theorem request_gate_reopens (model : string) (m : Machine) :
  model ∈ availableModels ->
  no_requests (service m) model = true
  \/ window_expired (clock (readings m)) (service m) model = true ->
  let m' := snd (canUseModel clock model m) in
  fst (canUseModel clock model m) = true
  /\ requests_of (service m') model = 0
  /\ modelRequestWindows (service m') !! model = Some (clock (readings m)).
Proof.
  intros _ Hopen. cbv zeta.
  unfold canUseModel, bind, this, update, when, ret, Date_now.
  cbn -[open_window requests_of].
  set (now := clock (readings m)) in *.
  pose proof (requests_of_open_window now model) as Hwin.
  destruct (no_requests (service m) model) eqn:Hnone; cbn -[open_window requests_of].
  - destruct (window_expired now (open_window now model (service m)) model);
      cbn -[open_window requests_of].
    + destruct (Hwin (open_window now model (service m))) as [-> ->]. now split.
    + destruct (Hwin (service m)) as [-> ->]. now split.
  - destruct Hopen as [Hopen | Hopen]; [discriminate Hopen|].
    rewrite Hopen. cbn -[open_window requests_of].
    destruct (Hwin (service m)) as [-> ->]. now split.
Qed.

End Gate.

Definition fifteen_requests : Cerebras.Machine :=
  Nat.iter 15 (fun m => snd (Cerebras.registerModelUsage fast_clock "qwen-3-32b" m))
    new_machine.

Lemma request_gate_closes_at_fifteen_witness :
  fst (Cerebras.canUseModel fast_clock "qwen-3-32b" fifteen_requests) = false
  /\ Cerebras.service (snd (Cerebras.canUseModel fast_clock "qwen-3-32b" fifteen_requests))
     = Cerebras.service fifteen_requests.
Proof.
  apply (request_gate_closes_at_fifteen fast_clock "qwen-3-32b" fifteen_requests).
  - vm_compute. do 3 apply list_elem_of_further. apply list_elem_of_here.
  - vm_compute. discriminate.
  - vm_compute. reflexivity.
Defined.

Lemma request_gate_reopens_witness :
  fst (Cerebras.canUseModel slow_clock "qwen-3-32b" new_machine) = true
  /\ Cerebras.requests_of
       (Cerebras.service (snd (Cerebras.canUseModel slow_clock "qwen-3-32b" new_machine)))
       "qwen-3-32b" = 0
  /\ Cerebras.modelRequestWindows
       (Cerebras.service (snd (Cerebras.canUseModel slow_clock "qwen-3-32b" new_machine)))
     !! "qwen-3-32b" = Some (slow_clock 0).
Proof.
  apply (request_gate_reopens slow_clock "qwen-3-32b" new_machine).
  - vm_compute. do 3 apply list_elem_of_further. apply list_elem_of_here.
  - left. vm_compute. reflexivity.
Defined.

(** ** What one call of [chat] sends *)

Section Calls.

Import Cerebras.

Variable clock : nat -> Z.
Variable network : nat -> Request -> Settled Response.

Lemma ok_not_429 (response : Response) :
  ok response = true -> (status response =? 429) = false.
Proof.
  unfold ok. intros Hok. apply andb_prop in Hok as [_ Hhigh].
  apply Z.leb_le in Hhigh. apply Z.eqb_neq. lia.
Qed.

(** X6.  When a key is configured and the first request is answered
    with a 2xx status and a body that parses, [chat] sends that one
    request and returns the content of the first choice, or the default
    text when there is none, with the thinking blocks removed. *)
Theorem chat_first_answer (prompt : string) (systemPrompt : option string)
    (m : Machine) (response : Response) (content : option string) :
  apiKey (service m) <> EmptyString ->
  (forall request, network (sent m) request = Fulfilled response) ->
  ok response = true ->
  json response = Fulfilled (Choice content) ->
  fst (chat clock network prompt systemPrompt m)
  = Fulfilled (removeThinkingTags (content_or_default content))
  /\ sent (snd (chat clock network prompt systemPrompt m)) = (sent m + 1)%nat.
Proof.
  intros Hkey Hnet Hok Hjson. unfold sent in *.
  unfold chat, bind, this. cbv beta iota.
  destruct (String.eqb_spec (apiKey (service m)) EmptyString) as [Heq|_];
    [contradiction|].
  pose proof (outbox_printModelStatus clock m) as H0.
  destruct (printModelStatus clock m) as [[] m0]. cbn [snd] in H0.
  rewrite chatWithCycling_unroll. change (0 >? 10) with false. cbv iota.
  unfold attempt, bind.
  pose proof (outbox_waitForCycleTime clock m0) as H1.
  destruct (waitForCycleTime clock m0) as [[] m1]. cbn [snd] in H1.
  pose proof (outbox_getNextModelInCycle clock m1) as H2.
  destruct (getNextModelInCycle clock m1) as [selectedModel m2]. cbn [snd] in H2.
  unfold try_block, bind.
  pose proof (outbox_registerModelUsage clock selectedModel m2) as H3.
  destruct (registerModelUsage clock selectedModel m2) as [[] m3]. cbn [snd] in H3.
  unfold fetch. cbv beta iota.
  assert (Hbox : outbox m3 = outbox m) by congruence.
  rewrite Hbox, Hnet. cbv beta iota.
  rewrite (ok_not_429 response Hok), Hok. cbn [negb]. cbv iota. rewrite Hjson.
  match goal with
  | |- context [reset_on_success selectedModel ?x] =>
      pose proof (outbox_reset_on_success selectedModel x) as H4;
      destruct (reset_on_success selectedModel x) as [[] m5]
  end.
  cbn in H4. cbn. rewrite H4, length_app. cbn. split; [reflexivity | lia].
Qed.

(** A computation sends exactly [k] requests and its result satisfies
    [Q]. *)
Definition exactly {A} (c : M A) (k : nat) (Q : A -> Prop) : Prop :=
  forall m, Q (fst (c m)) /\ sent (snd (c m)) = (sent m + k)%nat.

Lemma exactly_ret {A} (a : A) (Q : A -> Prop) : Q a -> exactly (ret a) 0 Q.
Proof. intros Ha m. cbn. split; [exact Ha | lia]. Qed.

Lemma exactly_bind {A B} (c : M A) (f : A -> M B) (k1 k2 : nat)
    (Q1 : A -> Prop) (Q2 : B -> Prop) :
  exactly c k1 Q1 -> (forall a, Q1 a -> exactly (f a) k2 Q2) ->
  exactly (bind c f) (k1 + k2) Q2.
Proof.
  intros Hc Hf m. unfold bind. destruct (Hc m) as [Ha Hk].
  destruct (c m) as [a m1]. cbn in Ha, Hk.
  destruct (Hf a Ha m1) as [Hb Hk2]. split; [exact Hb | lia].
Qed.

Lemma exactly_quiet {A} (c : M A) : stable outbox c -> exactly c 0 (fun _ => True).
Proof.
  intros Hout m. split; [exact I|]. unfold sent. rewrite (Hout m). lia.
Qed.

(** The requests sent so far all name a configured model. *)
Definition addressed (m : Machine) : Prop :=
  forall request, request ∈ outbox m -> model request ∈ availableModels.

Definition sound (m : Machine) : Prop := cycle_ok m /\ addressed m.

Lemma sound_quiet {A} (c : M A) :
  stable outbox c -> preserves cycle_ok c -> preserves sound c.
Proof.
  intros Hout Hok m [Hcycle Hsent]. split; [now apply Hok|].
  unfold addressed. rewrite (Hout m). exact Hsent.
Qed.

Lemma sound_fetch (request : Request) :
  model request ∈ availableModels -> preserves sound (fetch network request).
Proof.
  intros Hin m [Hcycle Hsent]. split; [exact Hcycle|].
  intros r. cbn. rewrite elem_of_app, list_elem_of_singleton.
  intros [Hr | ->]; [now apply Hsent | exact Hin].
Qed.

Lemma sound_recordModelFailure selectedModel errorType :
  preserves sound (recordModelFailure clock selectedModel errorType).
Proof.
  apply sound_quiet; [apply outbox_recordModelFailure|].
  apply stable_preserves, cycle_recordModelFailure.
Qed.

Lemma sound_updateHealthyModels : preserves sound (updateHealthyModels clock).
Proof.
  apply sound_quiet; [apply outbox_updateHealthyModels|].
  apply cycle_ok_updateHealthyModels.
Qed.

Lemma sound_try_block retry selectedModel prompt systemPrompt :
  selectedModel ∈ availableModels ->
  preserves sound retry ->
  preserves sound (try_block clock network retry selectedModel prompt systemPrompt).
Proof.
  intros Hin Hretry. unfold try_block.
  apply preserves_bind.
  { apply sound_quiet; [apply outbox_registerModelUsage|].
    apply stable_preserves, cycle_registerModelUsage. }
  intros _. apply preserves_bind; [now apply sound_fetch|]. intros fetched.
  destruct fetched as [response|error]; [|apply preserves_ret].
  destruct (status response =? 429).
  - apply preserves_bind; [apply sound_recordModelFailure | intros _].
    apply preserves_bind; [apply sound_updateHealthyModels | intros _].
    apply preserves_bind; [apply sound_quiet;
      [apply stable_this | apply stable_preserves, stable_this] | intros s].
    apply preserves_if; [apply preserves_ret | exact Hretry].
  - destruct (negb (ok response)).
    + destruct (text response) as [errorText|error]; [|apply preserves_ret].
      apply preserves_bind; [apply sound_recordModelFailure | intros _]. exact Hretry.
    + destruct (json response) as [data|error]; [|apply preserves_ret].
      apply preserves_bind.
      { apply sound_quiet; [apply outbox_reset_on_success|].
        apply stable_preserves, cycle_reset_on_success. }
      intros _. destruct data; apply preserves_ret.
Qed.

Lemma sound_getNextModelInCycle (m : Machine) :
  sound m ->
  fst (getNextModelInCycle clock m) ∈ availableModels
  /\ sound (snd (getNextModelInCycle clock m)).
Proof.
  intros Hm. split.
  - destruct Hm as [Hcycle _].
    destruct (getNextModelInCycle_selects clock m Hcycle) as (Hin & _ & _).
    apply (cycle_ok_updateHealthyModels clock m Hcycle). exact Hin.
  - revert m Hm. apply sound_quiet; [apply outbox_getNextModelInCycle|].
    apply cycle_ok_getNextModelInCycle.
Qed.

Lemma sound_attempt retry prompt systemPrompt :
  preserves sound retry ->
  preserves sound (attempt clock network retry prompt systemPrompt).
Proof.
  intros Hretry m Hm. unfold attempt, bind.
  assert (H1 : sound (snd (waitForCycleTime clock m))).
  { revert m Hm. apply sound_quiet; [apply outbox_waitForCycleTime|].
    apply stable_preserves, cycle_waitForCycleTime. }
  destruct (waitForCycleTime clock m) as [[] m1]. cbn [snd] in H1.
  destruct (sound_getNextModelInCycle m1 H1) as [Hin H2].
  destruct (getNextModelInCycle clock m1) as [selectedModel m2]. cbn [fst snd] in Hin, H2.
  pose proof (sound_try_block retry selectedModel prompt systemPrompt Hin Hretry m2 H2)
    as H3.
  destruct (try_block clock network retry selectedModel prompt systemPrompt m2)
    as [[answer|error] m3]; cbn [snd] in H3; [exact H3|].
  pose proof (sound_recordModelFailure selectedModel "exception" m3 H3) as H4.
  destruct (recordModelFailure clock selectedModel "exception" m3) as [[] m4].
  cbn [snd] in H4. now apply Hretry.
Qed.

Lemma sound_chat prompt systemPrompt :
  preserves sound (chat clock network prompt systemPrompt).
Proof.
  unfold chat. apply preserves_bind.
  { apply sound_quiet; [apply stable_this | apply stable_preserves, stable_this]. }
  intros s. apply preserves_if; [apply preserves_ret|].
  apply preserves_bind.
  { apply sound_quiet; [apply outbox_printModelStatus|].
    apply stable_preserves, cycle_printModelStatus. }
  intros _.
  apply (chatWithCycling_induction clock network prompt systemPrompt
           (fun _ c => preserves sound c)).
  - intros _ _. apply preserves_ret.
  - intros n retry _ Hretry. now apply sound_attempt.
Qed.

(** X7.  Whatever has been done with the service, every request it has
    sent names one of the four configured models. *)
Theorem requests_name_configured_models (ops : list Op) (request : Request) :
  request ∈ outbox (after clock network ops) ->
  model request ∈ availableModels.
Proof.
  assert (Hsound : sound (after clock network ops)).
  { unfold after.
    assert (Hnew : sound new_machine).
    { split; [apply cycle_ok_new_machine|]. intros r Hr. cbn in Hr.
      now apply elem_of_nil in Hr. }
    revert Hnew. generalize new_machine.
    induction ops as [|op ops IH]; intros m Hm; [exact Hm|].
    cbn. apply IH. destruct op; cbn [perform].
    - destruct Hm as [Hcycle Hsent]. split; [exact Hcycle | exact Hsent].
    - revert m Hm. apply sound_quiet; [apply outbox_canUseModel|].
      apply stable_preserves, cycle_canUseModel.
    - revert m Hm. apply sound_quiet; [apply outbox_registerModelUsage|].
      apply stable_preserves, cycle_registerModelUsage.
    - now apply sound_updateHealthyModels.
    - now apply sound_recordModelFailure.
    - now apply sound_getNextModelInCycle.
    - revert m Hm. apply sound_quiet; [apply outbox_waitForCycleTime|].
      apply stable_preserves, cycle_waitForCycleTime.
    - revert m Hm. apply sound_quiet; [apply outbox_reset_on_success|].
      apply stable_preserves, cycle_reset_on_success.
    - revert m Hm. apply sound_quiet; [apply outbox_printModelStatus|].
      apply stable_preserves, cycle_printModelStatus.
    - now apply sound_chat. }
  apply Hsound.
Qed.

Section Offline.

Hypothesis down : forall n request, exists error, network n request = Rejected error.

Lemma exactly_try_block_down retry selectedModel prompt systemPrompt :
  exactly (try_block clock network retry selectedModel prompt systemPrompt) 1
          (fun outcome => is_rejected outcome = true).
Proof.
  unfold try_block.
  apply (exactly_bind _ _ 0 1 (fun _ => True));
    [apply exactly_quiet, outbox_registerModelUsage | intros _ _].
  apply (exactly_bind _ _ 1 0 (fun fetched => exists error, fetched = Rejected error)).
  - intros m. split; [apply down|]. unfold sent. cbn. rewrite length_app. cbn. lia.
  - intros fetched [error ->]. now apply exactly_ret.
Qed.

Lemma exactly_attempt_down retry k prompt systemPrompt :
  exactly retry k (eq (Rejected exhausted_message)) ->
  exactly (attempt clock network retry prompt systemPrompt) (1 + k)
          (eq (Rejected exhausted_message)).
Proof.
  intros Hretry. unfold attempt.
  apply (exactly_bind _ _ 0 (1 + k) (fun _ => True));
    [apply exactly_quiet, outbox_waitForCycleTime | intros _ _].
  apply (exactly_bind _ _ 0 (1 + k) (fun _ => True));
    [apply exactly_quiet, outbox_getNextModelInCycle | intros selectedModel _].
  apply (exactly_bind _ _ 1 k (fun outcome => is_rejected outcome = true));
    [apply exactly_try_block_down|].
  intros [answer|error] Hrejected; [discriminate Hrejected|].
  apply (exactly_bind _ _ 0 k (fun _ => True));
    [apply exactly_quiet, outbox_recordModelFailure | intros _ _].
  exact Hretry.
Qed.

Lemma chatWithCycling_down prompt systemPrompt attemptCount :
  exactly (chatWithCycling clock network prompt systemPrompt attemptCount)
          (Z.to_nat (11 - attemptCount)) (eq (Rejected exhausted_message)).
Proof.
  apply (chatWithCycling_induction clock network prompt systemPrompt
           (fun n c => exactly c (Z.to_nat (11 - n)) (eq (Rejected exhausted_message)))).
  - intros n Hn. replace (Z.to_nat (11 - n)) with 0%nat by lia.
    now apply exactly_ret.
  - intros n retry Hn Hretry.
    replace (Z.to_nat (11 - n)) with (1 + Z.to_nat (11 - (n + 1)))%nat by lia.
    now apply exactly_attempt_down.
Qed.

End Offline.

(** X8.  When every request fails before an answer arrives (the network
    is down), [chat] with a configured key sends exactly eleven requests,
    one per activation, and then reports that all models are rate
    limited. *)
Theorem chat_sends_11_requests_when_offline
    (prompt : string) (systemPrompt : option string) (m : Machine) :
  (forall n request, exists error, network n request = Rejected error) ->
  apiKey (service m) <> EmptyString ->
  fst (chat clock network prompt systemPrompt m) = Rejected exhausted_message
  /\ sent (snd (chat clock network prompt systemPrompt m)) = (sent m + 11)%nat.
Proof.
  intros Hdown Hkey. unfold chat, bind, this. cbv beta iota.
  destruct (String.eqb_spec (apiKey (service m)) EmptyString) as [Heq|_];
    [contradiction|].
  pose proof (outbox_printModelStatus clock m) as H0.
  destruct (printModelStatus clock m) as [[] m0]. cbn [snd] in H0.
  destruct (chatWithCycling_down Hdown prompt systemPrompt 0 m0) as [Hresult Hsent].
  split; [now symmetry|]. rewrite Hsent. unfold sent. rewrite H0. reflexivity.
Qed.

End Calls.

Definition answered : Cerebras.Response :=
  {| Cerebras.status := 200; Cerebras.statusText := "OK";
     Cerebras.text := Rejected "body already read";
     Cerebras.json := Fulfilled (Cerebras.Choice (Some "<think>plan</think> Hello")) |}.

Definition answering (n : nat) (request : Cerebras.Request) : Settled Cerebras.Response :=
  Fulfilled answered.

Lemma chat_first_answer_witness :
  fst (Cerebras.chat slow_clock answering "hi" None
         (after slow_clock answering [SetApiKey "key"]))
  = Fulfilled "Hello"
  /\ sent (snd (Cerebras.chat slow_clock answering "hi" None
                  (after slow_clock answering [SetApiKey "key"]))) = 1%nat.
Proof.
  apply (chat_first_answer slow_clock answering "hi" None
           (after slow_clock answering [SetApiKey "key"]) answered
           (Some "<think>plan</think> Hello")).
  - vm_compute. discriminate.
  - intros request. reflexivity.
  - reflexivity.
  - reflexivity.
Defined.

Lemma requests_name_configured_models_witness :
  "llama-3.3-70b" ∈ Cerebras.availableModels.
Proof.
  apply (requests_name_configured_models slow_clock answering
           [SetApiKey "key"; Chat "hi" None]
           {| Cerebras.model := "llama-3.3-70b";
              Cerebras.messages := [{| Cerebras.role := "user"; Cerebras.content := "hi" |}] |}).
  vm_compute. apply list_elem_of_here.
Defined.

Lemma chat_sends_11_requests_when_offline_witness :
  fst (Cerebras.chat slow_clock offline "hi" None (after slow_clock offline [SetApiKey "key"]))
  = Rejected Cerebras.exhausted_message
  /\ sent (snd (Cerebras.chat slow_clock offline "hi" None
                  (after slow_clock offline [SetApiKey "key"]))) = 11%nat.
Proof.
  apply (chat_sends_11_requests_when_offline slow_clock offline "hi" None
           (after slow_clock offline [SetApiKey "key"])).
  - intros n request. exists "Failed to fetch". reflexivity.
  - vm_compute. discriminate.
Defined.

(** ** The choice of [selectBestAvailableModel] *)

Section ModelSwitching.

Import Cerebras Switching.

Variable clock : nat -> Z.

Lemma canUseModel_accepts (model : string) (m : Machine) :
  fst (canUseModel clock model m) = true ->
  requests_of (service (snd (canUseModel clock model m))) model < 15.
Proof.
  unfold canUseModel, bind, this, update, when, ret, Date_now.
  cbn -[open_window requests_of].
  destruct (no_requests (service m) model); cbn -[open_window requests_of];
    match goal with
    | |- context [window_expired ?now ?s model] => destruct (window_expired now s model)
    end; cbn -[open_window requests_of]; apply Z.ltb_lt.
Qed.

Lemma first_usable_choice (preferredModel : string) (chain : list string) (m : Machine) :
  let selection := first_usable clock preferredModel chain m in
  (fst selection = preferredModel \/ fst selection ∈ chain)
  /\ (fst selection <> preferredModel ->
      requests_of (service (snd selection)) (fst selection) < 15).
Proof.
  revert m. induction chain as [|altModel rest IH]; intros m; cbn.
  - split; [now left | intros Hne; contradiction].
  - unfold bind. pose proof (canUseModel_accepts altModel m) as Haccepts.
    destruct (canUseModel clock altModel m) as [[|] m1]; cbn [fst snd] in *.
    + split; [right; apply list_elem_of_here | intros _; now apply Haccepts].
    + destruct (IH m1) as [Hwhere Hcount]. split; [|exact Hcount].
      destruct Hwhere as [Hsame | Hin]; [now left | right; now apply list_elem_of_further].
Qed.

(** X9.  For a configured model as the preferred one,
    [selectBestAvailableModel] returns the preferred model or one of its
    alternatives, all of them configured models; the preferred model
    whenever it is under its limit; and an alternative only if that
    alternative is under its limit at the time of the return. *)
Theorem selectBestAvailableModel_choice (preferredModel : string) (m : Machine) :
  preferredModel ∈ availableModels ->
  let selection := selectBestAvailableModel clock preferredModel m in
  fst selection ∈ availableModels /\
  (fst selection = preferredModel \/ fst selection ∈ alternatives preferredModel)
  /\ (requests_of (service m) preferredModel < 15 -> fst selection = preferredModel)
  /\ (fst selection <> preferredModel ->
      requests_of (service (snd selection)) (fst selection) < 15).
Proof.
  intros Hconfigured. cbv zeta.
  assert (Hchain : forall model, model ∈ alternatives preferredModel ->
                                 model ∈ availableModels).
  { intros model Hin. unfold availableModels in Hconfigured.
    repeat (apply elem_of_cons in Hconfigured as [->|Hconfigured];
            [ vm_compute in Hin;
              repeat (apply elem_of_cons in Hin as [->|Hin];
                      [repeat first [apply list_elem_of_here | apply list_elem_of_further]|]);
              now apply elem_of_nil in Hin |]).
    now apply elem_of_nil in Hconfigured. }
  unfold selectBestAvailableModel, bind.
  pose proof (canUseModel_under_limit clock preferredModel m) as Hunder.
  destruct (canUseModel clock preferredModel m) as [[|] m1]; cbn [fst snd] in *.
  - split; [exact Hconfigured|]. split; [now left|].
    split; [reflexivity | intros Hne; contradiction].
  - destruct (first_usable_choice preferredModel (alternatives preferredModel) m1)
      as [Hwhere Hcount].
    split; [destruct Hwhere as [-> | Hin]; [exact Hconfigured | now apply Hchain]|].
    split; [exact Hwhere|]. split; [|exact Hcount].
    intros Hlimit. apply Hunder in Hlimit. discriminate Hlimit.
Qed.

End ModelSwitching.

Lemma selectBestAvailableModel_choice_witness :
  fst (Switching.selectBestAvailableModel fast_clock "llama-3.1-8b" fifteen_requests) = "llama-3.1-8b"
  /\ Cerebras.requests_of
       (Cerebras.service (snd (Switching.selectBestAvailableModel fast_clock "qwen-3-32b" fifteen_requests)))
       (fst (Switching.selectBestAvailableModel fast_clock "qwen-3-32b" fifteen_requests)) < 15.
Proof.
  split.
  - apply (selectBestAvailableModel_choice fast_clock "llama-3.1-8b" fifteen_requests).
    + vm_compute. apply list_elem_of_further, list_elem_of_here.
    + vm_compute. reflexivity.
  - apply (selectBestAvailableModel_choice fast_clock "qwen-3-32b" fifteen_requests).
    + vm_compute. do 3 apply list_elem_of_further. apply list_elem_of_here.
    + vm_compute. discriminate.
Defined.

(** ** Cleaning the answer and sizing the request *)

Section Answers.

Import Cerebras.

Lemma trimEnd_idempotent (s : string) : trimEnd (trimEnd s) = trimEnd s.
Proof.
  induction s as [|c s IH]; [reflexivity|]. cbn [trimEnd].
  destruct (is_space c && String.eqb (trimEnd s) EmptyString) eqn:Hblank;
    [reflexivity|].
  cbn [trimEnd]. rewrite IH, Hblank. reflexivity.
Qed.

(** The text is empty or begins with a character that is not white
    space. *)
Definition starts_clean (s : string) : Prop :=
  match s with
  | String c _ => is_space c = false
  | EmptyString => True
  end.

Lemma trimStart_starts_clean (s : string) : starts_clean (trimStart s).
Proof.
  induction s as [|c s IH]; cbn; [exact I|].
  destruct (is_space c) eqn:Hc; [exact IH | exact Hc].
Qed.

Lemma trimStart_trimEnd_clean (s : string) :
  starts_clean s -> trimStart (trimEnd s) = trimEnd s.
Proof.
  destruct s as [|c s]; [reflexivity|]. cbn [starts_clean trimEnd].
  intros Hc. rewrite Hc. cbn [andb trimStart]. rewrite Hc. reflexivity.
Qed.

Lemma trim_idempotent (s : string) : trim (trim s) = trim s.
Proof.
  unfold trim. rewrite (trimStart_trimEnd_clean _ (trimStart_starts_clean s)).
  apply trimEnd_idempotent.
Qed.

Lemma includes_cons (needle : string) (c : ascii) (rest : string) :
  includes needle (String c rest) = false ->
  String.prefix needle (String c rest) = false /\ includes needle rest = false.
Proof.
  cbn [includes]. destruct (String.prefix needle (String c rest)); [discriminate|].
  intros H. split; [reflexivity | exact H].
Qed.

Lemma strip_think_without_tag (fuel : nat) (s : string) :
  includes "<think>" s = false -> strip_think fuel s = s.
Proof.
  revert s. induction fuel as [|fuel IH]; intros s Hnone; [reflexivity|].
  destruct s as [|c rest]; [reflexivity|].
  apply includes_cons in Hnone as [Hprefix Hrest].
  cbn [strip_think]. rewrite Hprefix. f_equal. now apply IH.
Qed.

(** X10.  The text [removeThinkingTags] returns is trimmed, so trimming
    it again changes nothing; and a text without an opening tag is only
    trimmed. *)
Theorem removeThinkingTags_trimmed (content : string) :
  trim (removeThinkingTags content) = removeThinkingTags content
  /\ (includes "<think>" content = false -> removeThinkingTags content = trim content).
Proof.
  unfold removeThinkingTags. split; [apply trim_idempotent|].
  intros Hnone. now rewrite strip_think_without_tag.
Qed.

Lemma removeThinkingTags_trimmed_witness :
  removeThinkingTags "  plain answer  " = trim "  plain answer  ".
Proof.
  apply (removeThinkingTags_trimmed "  plain answer  "). reflexivity.
Defined.

Lemma substring_length (n : nat) (s : string) :
  (String.length (String.substring 0 n s) <= n)%nat.
Proof.
  revert s. induction n as [|n IH]; intros s.
  - destruct s; cbn; lia.
  - destruct s as [|c s]; cbn; [lia|]. specialize (IH s). lia.
Qed.

Lemma substring0_length (n : Z) (s : string) :
  0 <= n -> strlen (substring0 n s) <= n.
Proof.
  intros Hn. unfold strlen, substring0.
  pose proof (substring_length (Z.to_nat n) s). lia.
Qed.

Lemma prefix_append (p s : string) : String.prefix p (p +:+ s) = true.
Proof.
  induction p as [|c p IH]; simpl; [now destruct s|].
  destruct (ascii_dec c c) as [_|Hne]; [exact IH | contradiction].
Qed.

Lemma no_think_length : strlen no_think = 11.
Proof. reflexivity. Qed.

(** The characters a request carries in its messages. *)
Definition content_length (messages : list Message) : Z :=
  fold_right (fun message total => strlen (content message) + total) 0 messages.

Lemma adjustedPrompt_length selectedModel prompt systemPrompt :
  strlen (adjustedPrompt selectedModel prompt systemPrompt)
  <= (if over_budget prompt systemPrompt then 19603 else strlen prompt)
     + 11.
Proof.
  unfold adjustedPrompt, preparePromptWithNoThink.
  pose proof (substring0_length maxPromptChars prompt) as Hcut.
  rewrite maxPromptChars_value in *. specialize (Hcut ltac:(lia)).
  assert (Hlen : 0 <= strlen prompt) by (unfold strlen; lia).
  destruct (over_budget prompt systemPrompt).
  - destruct (String.eqb selectedModel "qwen-3-32b").
    + destruct (strlen prompt >? 19600) eqn:Hlong.
      * rewrite !strlen_append, no_think_length.
        change (strlen "...") with 3. apply Z.gtb_lt in Hlong. lia.
      * rewrite strlen_append, no_think_length.
        apply not_true_iff_false in Hlong. rewrite Z.gtb_lt in Hlong. lia.
    + destruct (strlen prompt >? 19600) eqn:Hlong.
      * rewrite strlen_append. change (strlen "...") with 3.
        apply Z.gtb_lt in Hlong. lia.
      * apply not_true_iff_false in Hlong. rewrite Z.gtb_lt in Hlong. lia.
  - destruct (String.eqb selectedModel "qwen-3-32b").
    + rewrite strlen_append, no_think_length. lia.
    + lia.
Qed.

Lemma adjustedSystemPrompt_length prompt systemPrompt :
  optional_length (adjustedSystemPrompt prompt systemPrompt)
  <= (if over_budget prompt systemPrompt then 4903 else optional_length systemPrompt).
Proof.
  unfold adjustedSystemPrompt.
  destruct (over_budget prompt systemPrompt); [|lia].
  destruct systemPrompt as [sp|]; cbn [optional_length]; [|lia].
  pose proof (substring0_length maxSystemChars sp) as Hcut.
  rewrite maxSystemChars_value in *. specialize (Hcut ltac:(lia)).
  destruct (negb (String.eqb sp EmptyString) && (strlen sp >? 4900)) eqn:Hlong;
    cbn [optional_length].
  - apply andb_prop in Hlong as [_ Hlong]. apply Z.gtb_lt in Hlong.
    rewrite strlen_append. change (strlen "...") with 3. lia.
  - apply andb_false_iff in Hlong as [Hempty | Hshort].
    + apply negb_false_iff, String.eqb_eq in Hempty. subst sp.
      change (strlen EmptyString) with 0. lia.
    + apply not_true_iff_false in Hshort. rewrite Z.gtb_lt in Hshort. lia.
Qed.

Lemma content_length_adjustedMessages selectedModel prompt systemPrompt :
  content_length (adjustedMessages selectedModel prompt systemPrompt)
  = strlen (adjustedPrompt selectedModel prompt systemPrompt)
    + optional_length (adjustedSystemPrompt prompt systemPrompt).
Proof.
  unfold adjustedMessages.
  destruct (adjustedSystemPrompt prompt systemPrompt) as [sp|]; cbn [optional_length].
  - destruct (String.eqb_spec sp EmptyString) as [->|_]; cbn.
    + change (strlen EmptyString) with 0. lia.
    + lia.
  - cbn. lia.
Qed.

(** X11.  Whatever the prompts, the messages of a request carry at most
    24517 characters; and for the model "qwen-3-32b" the user prompt
    starts with the [/no_think] instruction, truncated or not. *)
Theorem request_size_bounded (selectedModel prompt : string) (systemPrompt : option string) :
  content_length (adjustedMessages selectedModel prompt systemPrompt) <= 24517
  /\ (selectedModel = "qwen-3-32b" ->
      String.prefix no_think (adjustedPrompt selectedModel prompt systemPrompt) = true).
Proof.
  split.
  - rewrite content_length_adjustedMessages.
    pose proof (adjustedPrompt_length selectedModel prompt systemPrompt) as Huser.
    pose proof (adjustedSystemPrompt_length prompt systemPrompt) as Hsystem.
    destruct (over_budget prompt systemPrompt) eqn:Hover.
    + lia.
    + apply not_true_iff_false in Hover. rewrite over_budget_iff in Hover. lia.
  - intros ->. unfold adjustedPrompt, preparePromptWithNoThink.
    change (String.eqb "qwen-3-32b" "qwen-3-32b") with true. cbv iota.
    destruct (over_budget prompt systemPrompt); [|apply prefix_append].
    destruct (strlen prompt >? maxPromptChars); apply prefix_append.
Qed.

Lemma request_size_bounded_witness :
  String.prefix no_think (adjustedPrompt "qwen-3-32b" "hello" None) = true.
Proof.
  apply (request_size_bounded "qwen-3-32b" "hello" None). reflexivity.
Defined.

End Answers.

(** ** The search queries of a task *)

Section Queries.

Import Specialist.

Lemma includes_unfold (needle haystack : string) :
  includes needle haystack
  = if String.prefix needle haystack then true
    else match haystack with
         | EmptyString => false
         | String _ rest => includes needle rest
         end.
Proof. destruct haystack; reflexivity. Qed.

Lemma includes_prefix (x s : string) : includes x (x +:+ s) = true.
Proof. rewrite includes_unfold, prefix_append. reflexivity. Qed.

Lemma includes_skip (x p s : string) :
  includes x s = true -> includes x (p +:+ s) = true.
Proof.
  intros H. induction p as [|c p IH]; [exact H|].
  change (String c p +:+ s) with (String c (p +:+ s)).
  rewrite includes_unfold. destruct (String.prefix x (String c (p +:+ s)));
    [reflexivity | exact IH].
Qed.

(** X12.  Whatever the query and the task, [generateSearchQueries] gives
    exactly three queries, and each of them contains the original
    query. *)
Theorem generateSearchQueries_three (originalQuery task : string) :
  length (generateSearchQueries originalQuery task) = 3%nat
  /\ Forall (fun query => includes originalQuery query = true)
            (generateSearchQueries originalQuery task).
Proof.
  unfold generateSearchQueries.
  destruct (List.find _ templates) as [[key queries]|] eqn:Hfind.
  - apply List.find_some in Hfind as [Hin _].
    unfold templates in Hin. cbn [In] in Hin.
    destruct Hin as [H | [H | [H | [H | []]]]]; injection H as _ <-;
      (split; [reflexivity|]);
      repeat constructor;
      first [ apply includes_prefix | apply includes_skip, includes_prefix ].
  - split; [reflexivity|]. repeat constructor; apply includes_prefix.
Qed.

End Queries.

(** ** What a task can do in a run *)

Section Tasks.

Import Specialist.

(** A property of the tasks and a property of the calls that every
    resumption keeps hold in every run. *)
Lemma run_invariant (I : Task -> Prop) (C : Call -> Prop) :
  (forall input random seen t, I t ->
     I (snd (fst (task_step input random seen t)))
     /\ Forall C (snd (task_step input random seen t))) ->
  forall events sys,
    Forall I (agents sys) -> Forall C (calls sys) ->
    Forall I (agents (run events sys)) /\ Forall C (calls (run events sys)).
Proof.
  intros Hstep events. induction events as [|e events IH]; intros sys Hall Hcalls;
    [now split|].
  cbn [run fold_left]. apply IH; unfold step;
    destruct (agents sys !! agent e) as [t|] eqn:Hi; try assumption;
    pose proof (Hstep (input e) (random e) (globalSeenUrls sys) t
                  (proj1 (Forall_lookup _ _) Hall _ _ Hi)) as [Ht Hmade];
    destruct (task_step (input e) (random e) (globalSeenUrls sys) t) as [[seen' t'] made];
    cbn in *.
  - now apply Forall_insert.
  - apply Forall_app. now split.
Qed.

Lemma run_length (events : list Event) (sys : System) :
  length (agents (run events sys)) = length (agents sys).
Proof.
  revert sys. induction events as [|e events IH]; intros sys; [reflexivity|].
  cbn [run fold_left]. change (fold_left step events ?s) with (run events s).
  rewrite IH. unfold step.
  destruct (agents sys !! agent e) as [t|]; [|reflexivity].
  destruct (task_step (input e) (random e) (globalSeenUrls sys) t) as [[seen' t'] made].
  cbn. apply length_insert.
Qed.

(** *** A task fails with the quota condition only *)

Definition fails_with_quota (t : Task) : Prop :=
  match phase t with
  | Failed message => mentions_quota message = true
  | _ => True
  end.

Lemma next_query_fails_with_quota random later seen t :
  fails_with_quota (snd (fst (next_query random later seen t))).
Proof. destruct later; exact I. Qed.

Lemma on_error_fails_with_quota random error later seen t :
  fails_with_quota (snd (fst (on_error random error later seen t))).
Proof.
  unfold on_error. destruct (mentions_quota error) eqn:Hquota;
    [exact Hquota | apply next_query_fails_with_quota].
Qed.

Lemma after_results_fails_with_quota query targetCount later seen t :
  fails_with_quota (snd (fst (after_results query targetCount later seen t))).
Proof. unfold after_results. case_match; exact I. Qed.

Lemma continue_results_fails_with_quota query targetCount later results seen t :
  fails_with_quota (snd (fst (continue_results query targetCount later results seen t))).
Proof.
  unfold continue_results. destruct (scan seen results) as [[result rest]|];
    [exact I | apply after_results_fails_with_quota].
Qed.

Lemma continue_broader_fails_with_quota query targetCount later results seen t :
  fails_with_quota (snd (fst (continue_broader query targetCount later results seen t))).
Proof.
  unfold continue_broader. destruct (scan seen results) as [[result rest]|]; exact I.
Qed.

Lemma task_step_fails_with_quota input random seen t :
  fails_with_quota t ->
  fails_with_quota (snd (fst (task_step input random seen t))).
Proof.
  intros Ht. unfold task_step.
  destruct (phase t) eqn:Hphase; destruct input as [| [results|error] | [contents|error] |];
    try exact Ht;
    try first [ apply next_query_fails_with_quota | apply on_error_fails_with_quota
              | apply continue_results_fails_with_quota
              | apply continue_broader_fails_with_quota ].
  - destruct contents as [|content ?]; [apply continue_results_fails_with_quota|].
    cbv zeta. case_match;
      [apply after_results_fails_with_quota | apply continue_results_fails_with_quota].
  - destruct contents as [|content ?]; [apply continue_broader_fails_with_quota|].
    cbv zeta. case_match; [exact I | apply continue_broader_fails_with_quota].
Qed.

(** X13.  In every run, an agent whose [executeTask] has thrown threw an
    error whose message mentions the quota; every other error of the
    search client is absorbed.  Nothing of such an agent reaches the
    final list. *)
Theorem executeTask_throws_only_quota
    (query : string) (seen : gset string) (events : list Event)
    (i : nat) (t : Task) (message : string) :
  agents (run events (Lead.launch query seen)) !! i = Some t ->
  phase t = Failed message ->
  mentions_quota message = true /\ agent_sources t = [].
Proof.
  intros Hi Hphase.
  destruct (run_invariant fails_with_quota (fun _ => True)) with
    (events := events) (sys := Lead.launch query seen) as [Hall _].
  - intros input random seen0 t0 Ht0. split;
      [now apply task_step_fails_with_quota | apply Forall_true; intros; exact I].
  - cbn. repeat constructor.
  - constructor.
  - pose proof (proj1 (Forall_lookup _ _) Hall _ _ Hi) as Ht.
    unfold fails_with_quota in Ht. unfold agent_sources. rewrite Hphase in *.
    now split.
Qed.

Definition quota_hit : list Event :=
  [ on 0 Resumed; on 0 (SearchSettled (Rejected Exa.credits_message)) ].

Lemma executeTask_throws_only_quota_witness :
  mentions_quota Exa.credits_message = true
  /\ agent_sources
       {| originalQuery := "quantum computing";
          task := "Core concepts and fundamental principles";
          allSources := [];
          phase := Failed Exa.credits_message |} = [].
Proof.
  apply (executeTask_throws_only_quota "quantum computing" ∅ quota_hit 0%nat
           {| originalQuery := "quantum computing";
              task := "Core concepts and fundamental principles";
              allSources := [];
              phase := Failed Exa.credits_message |} Exa.credits_message).
  - reflexivity.
  - reflexivity.
Defined.

(** *** How many sources a task collects, and what it asks for *)

Definition size (t : Task) : Z := Z.of_nat (length (allSources t)).

Definition remaining (later : list string) : Z := Z.of_nat (length later).

(** The bound kept at every [await]: with [later] still to come, a task
    inside the loop has at most [14 - later] sources, and at most one
    more when it leaves an iteration. *)
Definition in_loop (t : Task) (targetCount : Z) (later : list string) : Prop :=
  11 <= targetCount <= 13 /\ remaining later <= 2 /\ size t + remaining later <= 14.

Definition bounded (t : Task) : Prop :=
  match phase t with
  | Starting => size t = 0
  | Searching _ targetCount later => in_loop t targetCount later
  | Fetching _ targetCount _ _ later => in_loop t targetCount later
  | Broadening _ targetCount later => in_loop t targetCount later
  | FetchingBroader _ targetCount _ _ later => in_loop t targetCount later
  | Pausing later => remaining later <= 3 /\ size t + remaining later <= 15
  | Done => size t <= 15
  | Failed _ => size t <= 15
  end.

(** A search asks for 16 to 26 results; a request for contents names
    one URL. *)
Definition shaped (c : Call) : Prop :=
  match c with
  | Search _ numResults => 16 <= numResults <= 26
  | GetContents urls => length urls = 1%nat
  end.

Definition fine (o : Outcome) : Prop :=
  bounded (snd (fst o)) /\ Forall shaped (snd o).

Lemma fine_next_query random later seen t :
  remaining later <= 3 -> size t + remaining later <= 15 ->
  fine (next_query random later seen t).
Proof.
  intros Hleft Hsize. pose proof (getSourceCountForQuery_range random) as Hrange.
  unfold fine, next_query, bounded, in_loop, remaining, size in *.
  destruct later as [|query later]; cbn [fst snd phase with_phase allSources length] in *.
  - split; [lia | constructor].
  - split; [lia|]. constructor; [cbn; lia | constructor].
Qed.

Lemma fine_on_error random error later seen t :
  remaining later <= 2 -> size t + remaining later <= 14 ->
  fine (on_error random error later seen t).
Proof.
  intros Hleft Hsize. unfold on_error. destruct (mentions_quota error).
  - unfold fine, bounded, size, remaining in *.
    cbn [fst snd phase with_phase allSources]. split; [lia | constructor].
  - apply fine_next_query; lia.
Qed.

Lemma fine_after_results query targetCount later seen t :
  11 <= targetCount <= 13 -> remaining later <= 2 -> size t + remaining later <= 15 ->
  fine (after_results query targetCount later seen t).
Proof.
  intros Hrange Hleft Hsize. unfold after_results.
  destruct (Z.of_nat (length (allSources t)) <? targetCount) eqn:Hfew;
    unfold fine, bounded, in_loop, size, remaining in *;
    cbn [fst snd phase with_phase allSources].
  - apply Z.ltb_lt in Hfew. split; [lia|]. constructor; [cbn; lia | constructor].
  - split; [lia | constructor].
Qed.

Lemma fine_continue_results query targetCount later results seen t :
  11 <= targetCount <= 13 -> remaining later <= 2 -> size t + remaining later <= 14 ->
  fine (continue_results query targetCount later results seen t).
Proof.
  intros Hrange Hleft Hsize. unfold continue_results.
  destruct (scan seen results) as [[result rest]|].
  - unfold fine, bounded, in_loop, size, remaining in *.
    cbn [fst snd phase with_phase allSources]. split; [lia|]. repeat constructor.
  - apply fine_after_results; lia.
Qed.

Lemma fine_continue_broader query targetCount later results seen t :
  11 <= targetCount <= 13 -> remaining later <= 2 -> size t + remaining later <= 14 ->
  fine (continue_broader query targetCount later results seen t).
Proof.
  intros Hrange Hleft Hsize. unfold continue_broader.
  destruct (scan seen results) as [[result rest]|];
    unfold fine, bounded, in_loop, size, remaining in *;
    cbn [fst snd phase with_phase allSources].
  - split; [lia|]. repeat constructor.
  - split; [lia | constructor].
Qed.

Lemma size_push source t : size (push source t) = size t + 1.
Proof. unfold size, push. cbn. rewrite length_app. cbn. lia. Qed.

Lemma task_step_fine input random seen t :
  bounded t -> fine (task_step input random seen t).
Proof.
  intros Ht.
  assert (Hidle : fine (seen, t, [])) by (split; [exact Ht | constructor]).
  unfold task_step. unfold bounded in Ht.
  destruct (phase t) eqn:Hphase; destruct input as [| [results|error] | [contents|error] |];
    try exact Hidle.
  - pose proof (generateSearchQueries_three (originalQuery t) (task t)) as [Hthree _].
    apply fine_next_query; unfold remaining; rewrite Hthree; lia.
  - destruct Ht as (Hrange & Hleft & Hsize). now apply fine_continue_results.
  - destruct Ht as (Hrange & Hleft & Hsize). now apply fine_on_error.
  - destruct Ht as (Hrange & Hleft & Hsize).
    destruct contents as [|content ?]; [now apply fine_continue_results|].
    cbv zeta. set (t0 := push _ t).
    assert (Hpushed : size t0 = size t + 1) by apply size_push.
    destruct (Z.of_nat (length (allSources t0)) >=? targetCount) eqn:Hmet.
    + apply fine_after_results; lia.
    + apply not_true_iff_false in Hmet. rewrite Z.geb_le in Hmet.
      apply fine_continue_results; unfold size in *; lia.
  - destruct Ht as (Hrange & Hleft & Hsize). now apply fine_on_error.
  - destruct Ht as (Hrange & Hleft & Hsize). now apply fine_continue_broader.
  - destruct Ht as (Hrange & Hleft & Hsize). now apply fine_on_error.
  - destruct Ht as (Hrange & Hleft & Hsize).
    destruct contents as [|content ?]; [now apply fine_continue_broader|].
    cbv zeta. set (t0 := push _ t).
    assert (Hpushed : size t0 = size t + 1) by apply size_push.
    destruct (Z.of_nat (length (allSources t0)) >=? targetCount) eqn:Hmet.
    + unfold fine, bounded, size, remaining in *.
      cbn [fst snd phase with_phase allSources]. split; [lia | constructor].
    + apply not_true_iff_false in Hmet. rewrite Z.geb_le in Hmet.
      apply fine_continue_broader; unfold size in *; lia.
  - destruct Ht as (Hrange & Hleft & Hsize). now apply fine_on_error.
  - destruct Ht as [Hleft Hsize]. now apply fine_next_query.
Qed.

Lemma bounded_size (t : Task) : bounded t -> size t <= 15.
Proof.
  unfold bounded, in_loop, remaining. intros Ht.
  destruct (phase t); try lia.
Qed.

Lemma run_fine (query : string) (seen : gset string) (events : list Event) :
  Forall bounded (agents (run events (Lead.launch query seen)))
  /\ Forall shaped (calls (run events (Lead.launch query seen))).
Proof.
  apply (run_invariant bounded shaped).
  - intros input random seen0 t Ht. now apply task_step_fine.
  - cbn. repeat constructor.
  - constructor.
Qed.

Lemma flat_map_length_bound {A B} (f : A -> list B) (k : nat) (l : list A) :
  Forall (fun a => (length (f a) <= k)%nat) l ->
  (length (flat_map f l) <= k * length l)%nat.
Proof.
  induction 1 as [|a l Ha _ IH]; cbn; [lia|]. rewrite length_app. lia.
Qed.

(** X14.  In every run, whatever the search client answers and in
    whatever order the agents are resumed, no agent ever holds more than
    15 sources, and the final list has at most 60. *)
Theorem executeTask_collects_at_most_15
    (query : string) (seen : gset string) (events : list Event) :
  Forall (fun t => (length (allSources t) <= 15)%nat)
         (agents (run events (Lead.launch query seen)))
  /\ (length (flat_map agent_sources (agents (run events (Lead.launch query seen))))
      <= 60)%nat.
Proof.
  destruct (run_fine query seen events) as [Hall _].
  assert (Hsizes : Forall (fun t => (length (allSources t) <= 15)%nat)
                          (agents (run events (Lead.launch query seen)))).
  { eapply Forall_impl; [exact Hall|]. intros t Ht.
    apply bounded_size in Ht. unfold size in Ht. lia. }
  split; [exact Hsizes|].
  assert (Hfour : length (agents (run events (Lead.launch query seen))) = 4%nat)
    by (rewrite run_length; reflexivity).
  pose proof (flat_map_length_bound agent_sources 15
                (agents (run events (Lead.launch query seen)))) as Hbound.
  rewrite Hfour in Hbound. apply Hbound.
  eapply Forall_impl; [exact Hsizes|]. intros t Ht. cbv beta in Ht.
  unfold agent_sources. destruct (phase t); cbn [length]; lia.
Qed.

(** X15.  In every run, every search asks for between 16 and 26 results
    and every request for contents names exactly one URL. *)
Theorem calls_are_small
    (query : string) (seen : gset string) (events : list Event) (c : Call) :
  c ∈ calls (run events (Lead.launch query seen)) ->
  match c with
  | Search _ numResults => 16 <= numResults <= 26
  | GetContents urls => length urls = 1%nat
  end.
Proof.
  intros Hin. destruct (run_fine query seen events) as [_ Hcalls].
  exact (proj1 (Forall_forall _ _) Hcalls c Hin).
Qed.

Lemma calls_are_small_witness : 16 <= 17 <= 26.
Proof.
  apply (calls_are_small "quantum computing" ∅ [on 0 Resumed]
           (Search "quantum computing fundamentals basics principles" 17)).
  vm_compute. apply list_elem_of_here.
Defined.




End Tasks.

(** ** The decision after the agents *)

Section Decision.

Import Specialist Results.

Variable hostname : string -> option string.

Lemma mentions_quota_skip (p message : string) :
  mentions_quota message = true -> mentions_quota (p +:+ message) = true.
Proof.
  unfold mentions_quota. intros H. apply orb_true_iff in H as [H|H];
    apply orb_true_iff; [left | right]; now apply includes_skip.
Qed.

Lemma task_step_task input random seen t :
  task (snd (fst (task_step input random seen t))) = task t.
Proof.
  unfold task_step, on_error, next_query, continue_results, continue_broader,
    after_results.
  repeat case_match; reflexivity.
Qed.

(** The agent was given one of the four tasks, and if it threw, it threw
    the quota condition. *)
Definition assigned (t : Task) : Prop :=
  task t ∈ Lead.tasks /\ fails_with_quota t.

Lemma run_assigned (query : string) (seen : gset string) (events : list Event) :
  Forall assigned (agents (run events (Lead.launch query seen))).
Proof.
  destruct (run_invariant assigned (fun _ => True)) with
    (events := events) (sys := Lead.launch query seen) as [Hall _].
  - intros input random seen0 t [Htask Hquota]. split.
    + split; [now rewrite task_step_task | now apply task_step_fails_with_quota].
    + apply Forall_true. intros; exact I.
  - cbn. repeat constructor; cbn; set_solver.
  - constructor.
  - exact Hall.
Qed.

Definition threw (t : Task) : Prop := exists message, phase t = Failed message.

Lemma empty_findings_not_critical (task : string) :
  task ∈ Lead.tasks -> mentions_quota (analyzeFindings hostname [] task) = false.
Proof.
  unfold Lead.tasks. intros Hin.
  repeat (apply elem_of_cons in Hin as [->|Hin]; [vm_compute; reflexivity|]).
  now apply elem_of_nil in Hin.
Qed.

(** For a settled agent, "critical and without sources" says that the
    agent threw. *)
Lemma critical_iff_threw (i : nat) (t : Task) :
  assigned t -> settled t = true ->
  (mentions_quota (findings (agent_result hostname i t)) = true
   /\ sources (agent_result hostname i t) = [])
  <-> threw t.
Proof.
  intros [Htask Hquota] Hsettled. unfold agent_result, threw, settled, fails_with_quota in *.
  destruct (phase t) eqn:Hphase; try discriminate Hsettled; cbn [sources findings].
  - split; [|intros [message Hm]; discriminate Hm].
    intros [Hcritical Hnone]. rewrite Hnone in Hcritical.
    rewrite (empty_findings_not_critical _ Htask) in Hcritical. discriminate Hcritical.
  - split; [intros _; now eexists|]. intros _. split; [|reflexivity].
    apply mentions_quota_skip, mentions_quota_skip, mentions_quota_skip. exact Hquota.
Qed.

Lemma filter_all {A} (p : A -> bool) (l : list A) :
  (length (List.filter p l) =? length l)%nat = true <-> forallb p l = true.
Proof.
  rewrite Nat.eqb_eq. induction l as [|a l IH]; cbn; [tauto|].
  pose proof (List.filter_length_le p l) as Hle.
  destruct (p a); cbn.
  - rewrite <- IH. lia.
  - split; [lia | discriminate].
Qed.

Lemma collect_halts (i : nat) (tasks : list Task) :
  Forall assigned tasks -> forallb settled tasks = true ->
  (forallb (fun result => mentions_quota (findings result)) (collect hostname i tasks) = true
   /\ flat_map sources (collect hostname i tasks) = [])
  <-> Forall threw tasks.
Proof.
  revert i. induction tasks as [|t tasks IH]; intros i Hall Hsettled.
  - cbn. split; [constructor | now split].
  - apply Forall_cons in Hall as [Ht Hall].
    cbn [forallb] in Hsettled. apply andb_prop in Hsettled as [Hdone Hsettled].
    cbn [collect forallb flat_map].
    rewrite Forall_cons, <- (IH (S i) Hall Hsettled),
      <- (critical_iff_threw i t Ht Hdone), andb_true_iff.
    split.
    + intros [[H1 H2] H3]. apply app_eq_nil in H3 as [H3 H4]. tauto.
    + intros [[H1 H2] [H3 H4]]. rewrite H2, H4. tauto.
Qed.

(** X17.  After the agents, the run is halted exactly when every agent
    threw; as an agent throws the quota condition only, that is when the
    credits ran out for all four.  One agent that returned, even with no
    source, lets the run go on to the synthesis. *)
Theorem run_halts_iff_all_agents_threw
    (query : string) (seen : gset string) (events : list Event)
    (results : list AgentResult) :
  agentResults hostname (run events (Lead.launch query seen)) = Some results ->
  after_agents results = Halted cannot_continue_message
  <-> Forall threw (agents (run events (Lead.launch query seen))).
Proof.
  unfold agentResults.
  destruct (forallb settled (agents (run events (Lead.launch query seen)))) eqn:Hsettled;
    [|discriminate].
  intros [= <-].
  rewrite <- (collect_halts 0 _ (run_assigned query seen events) Hsettled).
  unfold after_agents.
  set (results := collect hostname 0 (agents (run events (Lead.launch query seen)))).
  destruct ((length (List.filter (fun result => mentions_quota (findings result)) results)
             =? length results)%nat && (length (flat_map sources results) =? 0)%nat)
    eqn:Hcheck.
  - apply andb_prop in Hcheck as [Hall Hnone].
    apply filter_all in Hall. apply Nat.eqb_eq, length_zero_iff_nil in Hnone.
    split; [now split | reflexivity].
  - split; [discriminate|]. intros [Hall Hnone].
    apply filter_all in Hall. rewrite Hall, Hnone in Hcheck. discriminate Hcheck.
Qed.

End Decision.

Definition unparsed (url : string) : option string := None.

Definition all_out_of_credits : list Specialist.Event :=
  all_resumed
  ++ map (fun i => on i (Specialist.SearchSettled (Rejected Exa.credits_message)))
       [0; 1; 2; 3]%nat.

Lemma run_halts_iff_all_agents_threw_witness :
  Results.after_agents
    (Results.collect unparsed 0
       (Specialist.agents (Specialist.run all_out_of_credits (Lead.launch "quantum computing" ∅))))
  = Results.Halted Results.cannot_continue_message
  <-> Forall threw
        (Specialist.agents (Specialist.run all_out_of_credits (Lead.launch "quantum computing" ∅))).
Proof.
  apply (run_halts_iff_all_agents_threw unparsed "quantum computing" ∅ all_out_of_credits).
  vm_compute. reflexivity.
Defined.

(** ** A run without a key for the search service *)

Section Keyless.

Import Specialist Results.

Variable hostname : string -> option string.

(** The event resumes an agent with what the search client answers when
    no key is configured. *)
Definition keyless (e : Event) : Prop :=
  match input e with
  | SearchSettled results =>
      exists isProduction proxied direct,
        results = fst (Exa.search EmptyString isProduction proxied direct)
  | ContentsSettled contents =>
      exists urls fetched, contents = fst (Contents.getContents EmptyString urls fetched)
  | _ => True
  end.

(** The agent has no source and is at the start, at a search, or has
    returned. *)
Definition empty_handed (t : Task) : Prop :=
  allSources t = []
  /\ match phase t with
     | Starting | Searching _ _ _ | Done => True
     | _ => False
     end.

Lemma next_query_empty_handed random later seen t :
  allSources t = [] -> empty_handed (snd (fst (next_query random later seen t))).
Proof. intros Hnone. destruct later; split; try exact Hnone; exact I. Qed.

Lemma task_step_empty_handed (e : Event) seen t :
  keyless e -> empty_handed t ->
  empty_handed (snd (fst (task_step (input e) (random e) seen t))).
Proof.
  unfold keyless. intros He [Hnone Hphase]. unfold task_step.
  destruct (phase t) eqn:Hp; try contradiction;
    destruct (input e) as [| results | contents |]; cbv beta iota;
    try (split; cbn [fst snd]; [exact Hnone | rewrite Hp; exact I]).
  - now apply next_query_empty_handed.
  - destruct He as (isProduction & proxied & direct & ->).
    change (fst (Exa.search EmptyString isProduction proxied direct))
      with (@Rejected (list Exa.SearchResult) Exa.not_configured_message).
    cbv beta iota. unfold on_error.
    change (mentions_quota Exa.not_configured_message) with false. cbv iota.
    now apply next_query_empty_handed.
Qed.

Lemma run_empty_handed (events : list Event) (sys : System) :
  Forall keyless events -> Forall empty_handed (agents sys) ->
  Forall empty_handed (agents (run events sys)).
Proof.
  intros Hevents. revert sys. induction Hevents as [|e events He _ IH]; intros sys Hall;
    [exact Hall|].
  cbn [run fold_left]. apply IH. unfold step.
  destruct (agents sys !! agent e) as [t|] eqn:Hi; [|exact Hall].
  pose proof (task_step_empty_handed e (globalSeenUrls sys) t He
                (proj1 (Forall_lookup _ _) Hall _ _ Hi)) as Ht.
  destruct (task_step (input e) (random e) (globalSeenUrls sys) t) as [[seen' t'] made].
  cbn in *. now apply Forall_insert.
Qed.

Lemma collect_nothing (i : nat) (tasks : list Task) :
  Forall empty_handed tasks -> flat_map sources (collect hostname i tasks) = [].
Proof.
  intros Hall. revert i. induction Hall as [|t tasks [Hnone Hphase] _ IH]; intros i;
    [reflexivity|].
  cbn [collect flat_map]. rewrite IH, app_nil_r. unfold agent_result.
  destruct (phase t); try contradiction; exact Hnone.
Qed.

(** X18.  Without a key for the search service the run is not stopped.
    The pre-flight search fails with "key not configured", which is
    logged as a warning, and the agents are launched; every search and
    every request for contents then gives nothing, so no agent collects a
    source and no agent throws; and when all have returned, the run goes
    on to the synthesis with an empty list of sources. *)
Theorem run_without_search_key
    (query : string) (before : gset string) (isProduction : bool)
    (proxied direct : Settled Exa.Response) (events : list Event) :
  Forall keyless events ->
  let sys := run events (Lead.launch query ∅) in
  Lead.orchestrateResearch query before
    (fst (Exa.search EmptyString isProduction proxied direct))
  = (Lead.Launched (Lead.launch query ∅), [Lead.PreflightFailed Exa.not_configured_message])
  /\ Forall (fun t => allSources t = [] /\ ~ threw t) (agents sys)
  /\ (forall results, agentResults hostname sys = Some results ->
        after_agents results = Synthesizing []).
Proof.
  intros Hevents sys. split; [reflexivity|].
  assert (Hall : Forall empty_handed (agents sys)).
  { apply run_empty_handed; [exact Hevents|]. cbn. repeat constructor. }
  split.
  - eapply Forall_impl; [exact Hall|]. intros t [Hnone Hphase].
    split; [exact Hnone|]. intros [message Hm]. rewrite Hm in Hphase. exact Hphase.
  - unfold agentResults. intros results.
    destruct (forallb settled (agents sys)) eqn:Hsettled; [|discriminate].
    intros [= <-].
    pose proof (collect_halts hostname 0 (agents sys)
                  (run_assigned query ∅ events) Hsettled) as Hhalts.
    pose proof (collect_nothing 0 (agents sys) Hall) as Hnone.
    unfold after_agents. rewrite Hnone.
    destruct (forallb (fun result => mentions_quota (findings result))
                (collect hostname 0 (agents sys))) eqn:Hcritical.
    + exfalso. destruct Hhalts as [Hthrew _]. specialize (Hthrew (conj eq_refl Hnone)).
      assert (Hfour : length (agents sys) = 4%nat) by (subst sys; now rewrite run_length).
      destruct (agents sys) as [|t rest]; [discriminate Hfour|].
      apply Forall_cons in Hthrew as [[message Hm] _].
      apply Forall_cons in Hall as [[_ Hphase] _]. rewrite Hm in Hphase. exact Hphase.
    + apply not_true_iff_false in Hcritical. rewrite <- filter_all in Hcritical.
      apply not_true_iff_false in Hcritical. rewrite Hcritical. reflexivity.
Qed.

End Keyless.

Definition keyless_search : Settled (list Exa.SearchResult) :=
  fst (Exa.search EmptyString false (Rejected "unused") (Rejected "unused")).

Definition keyless_agent (i : nat) : list Specialist.Event :=
  [ on i Specialist.Resumed;
    on i (Specialist.SearchSettled keyless_search);
    on i (Specialist.SearchSettled keyless_search);
    on i (Specialist.SearchSettled keyless_search) ].

Definition keyless_run : list Specialist.Event :=
  keyless_agent 0 ++ keyless_agent 1 ++ keyless_agent 2 ++ keyless_agent 3.

Lemma run_without_search_key_witness :
  Results.after_agents
    (Results.collect unparsed 0
       (Specialist.agents (Specialist.run keyless_run (Lead.launch "quantum computing" ∅))))
  = Results.Synthesizing [].
Proof.
  refine (proj2 (proj2 (run_without_search_key unparsed "quantum computing" ∅ false
                          (Rejected "unused") (Rejected "unused") keyless_run _)) _ _).
  - unfold keyless_run, keyless_agent. repeat constructor;
      exists false, (Rejected "unused"), (Rejected "unused"); reflexivity.
  - vm_compute. reflexivity.
Defined.

(** ** Facts named in a prompt, sources referenced *)

Section SynthesisFacts.

Import Specialist Synthesis.

Lemma add_NoDup (fact : string) (set : list string) : NoDup set -> NoDup (Lead.add fact set).
Proof.
  intros Hset. unfold Lead.add. destruct (decide (fact ∈ set)) as [|Hnew]; [exact Hset|].
  apply NoDup_app. split; [exact Hset|]. split; [|apply NoDup_singleton].
  intros x Hx Hfact. apply list_elem_of_singleton in Hfact. now subst.
Qed.

Lemma track_facts_NoDup (extractedFacts : string) (set : list string) :
  NoDup set -> NoDup (Lead.track_facts extractedFacts set).
Proof.
  unfold Lead.track_facts. destruct (String.eqb (trim extractedFacts) EmptyString);
    [trivial|].
  generalize (split_on Lead.is_separator extractedFacts). intros pieces. revert set.
  induction pieces as [|piece pieces IH]; intros set Hset; [exact Hset|].
  cbn [fold_left]. apply IH. unfold Lead.track.
  destruct (strlen (toLowerCase (trim piece)) >? 3); [now apply add_NoDup | exact Hset].
Qed.

Lemma track_facts_grows (extractedFacts : string) (set : list string) :
  exists added, Lead.track_facts extractedFacts set = set ++ added.
Proof.
  unfold Lead.track_facts. destruct (String.eqb (trim extractedFacts) EmptyString).
  - exists []. now rewrite app_nil_r.
  - apply fold_track_grows.
Qed.

Lemma track_all_grows (answers : list string) (set : list string) :
  exists added, track_all answers set = set ++ added.
Proof.
  revert set. induction answers as [|answer answers IH]; intros set.
  - exists []. cbn. now rewrite app_nil_r.
  - cbn [track_all fold_left].
    destruct (track_facts_grows answer set) as [a1 E1].
    destruct (IH (Lead.track_facts answer set)) as [a2 E2]. unfold track_all in E2.
    exists (a1 ++ a2). now rewrite E2, E1, app_assoc.
Qed.

(** X19.  The set of facts never holds a fact twice.  Once it holds 25
    facts, the facts named in the prompts are those first 25 for the
    rest of the synthesis: whatever is extracted later is counted in the
    "and N more" but never named. *)
Theorem facts_named_are_the_first_25 (answers : list string) (mentionedFacts : list string) :
  (NoDup mentionedFacts -> NoDup (track_all answers mentionedFacts))
  /\ ((25 <= length mentionedFacts)%nat ->
      take 25 (track_all answers mentionedFacts) = take 25 mentionedFacts
      /\ facts_line (track_all answers mentionedFacts)
         = join ", " (take 25 mentionedFacts)
           +:+ (if (25 <? length (track_all answers mentionedFacts))%nat
                then "... and "
                     +:+ string_of_Z (Z.of_nat (length (track_all answers mentionedFacts)) - 25)
                     +:+ " more"
                else EmptyString)).
Proof.
  split.
  - revert mentionedFacts. induction answers as [|answer answers IH];
      intros set Hset; [exact Hset|].
    cbn [track_all fold_left]. apply IH. now apply track_facts_NoDup.
  - intros Hfull. destruct (track_all_grows answers mentionedFacts) as [added Hgrown].
    assert (Hshown : take 25 (track_all answers mentionedFacts) = take 25 mentionedFacts).
    { rewrite Hgrown. apply take_app_le. exact Hfull. }
    split; [exact Hshown|].
    unfold facts_line. rewrite Hshown.
    replace (0 <? length (track_all answers mentionedFacts))%nat with true; [reflexivity|].
    symmetry. apply Nat.ltb_lt. rewrite Hgrown, length_app. lia.
Qed.

Variable hostname : string -> option string.

Lemma count_source_spec (synthesis : string) (allSources : list ResearchSource)
    (used : Z) (unused : list string) :
  fold_left (count_source hostname synthesis) allSources (used, unused)
  = (used + Z.of_nat (length (List.filter (referenced hostname synthesis) allSources)),
     unused ++ map (label hostname)
                 (List.filter (fun source => negb (referenced hostname synthesis source))
                    allSources)).
Proof.
  revert used unused. induction allSources as [|source rest IH]; intros used unused.
  - cbn. now rewrite Z.add_0_r, app_nil_r.
  - cbn [fold_left List.filter count_source].
    destruct (referenced hostname synthesis source); cbn [negb]; rewrite IH.
    + cbn [length]. f_equal. lia.
    + cbn [map]. rewrite <- app_assoc. reflexivity.
Qed.

(** X20.  [validateSourceUtilization] sorts every source into exactly
    one of two groups: those counted as used are the sources the report
    references by the first 20 characters of the title or by the domain,
    and those listed as unused are the others, in their order; the two
    groups add up to the total. *)
Theorem validateSourceUtilization_partition (synthesis : string)
    (allSources : list ResearchSource) :
  let result := validateSourceUtilization hostname synthesis allSources in
  sourcesUsed result
  = Z.of_nat (length (List.filter (referenced hostname synthesis) allSources))
  /\ unusedSources result
     = map (label hostname)
         (List.filter (fun source => negb (referenced hostname synthesis source)) allSources)
  /\ sourcesUsed result + Z.of_nat (length (unusedSources result)) = totalSources result.
Proof.
  cbv zeta. unfold validateSourceUtilization. rewrite count_source_spec.
  cbn [sourcesUsed unusedSources totalSources app]. split; [lia|]. split; [reflexivity|].
  rewrite length_map. clear. induction allSources as [|source rest IH]; [reflexivity|].
  cbn [List.filter length]. destruct (referenced hostname synthesis source); cbn [negb length]; lia.
Qed.

End SynthesisFacts.

Definition tracked_25 : list string :=
  map (fun n => "fact number " +:+ string_of_Z (Z.of_nat n)) (seq 1 25).

Lemma facts_named_are_the_first_25_witness :
  take 25 (Synthesis.track_all ["ibm roadmap, 10,000 qubits | 2029 timeline"] tracked_25)
  = take 25 tracked_25.
Proof.
  apply (facts_named_are_the_first_25 ["ibm roadmap, 10,000 qubits | 2029 timeline"] tracked_25).
  vm_compute. lia.
Defined.

(** ** The round robin *)

Section RoundRobin.

Import Cerebras.

Variable clock : nat -> Z.

(** [k] calls of [getNextModelInCycle] in a row. *)
Fixpoint selections (k : nat) : M (list string) :=
  match k with
  | O => ret []
  | S k' =>
      bind (getNextModelInCycle clock)
        (fun selected => bind (selections k') (fun others => ret (selected :: others)))
  end.

(** The model at position [i] of the cycle, counted round the list. *)
Definition model_round (s : Service) (i : nat) : string :=
  default EmptyString (healthyModels s !! (i mod length (healthyModels s))%nat).

(** A selection while no recomputation of the cycle is due. *)
Lemma getNextModelInCycle_quiet (m : Machine) :
  clock (readings m) - lastHealthCheck (service m) < 10000 ->
  healthyModels (service m) <> [] ->
  getNextModelInCycle clock m
  = (model_round (service m) (currentModelIndex (service m)),
     {| service := set_currentModelIndex (S (currentModelIndex (service m))) (service m);
        readings := S (readings m);
        outbox := outbox m |}).
Proof.
  intros Hfresh Hcycle.
  unfold getNextModelInCycle, updateHealthyModels, bind, Date_now, this, update, ret.
  cbv beta iota. cbn [service readings outbox].
  apply Z.ltb_lt in Hfresh. rewrite Hfresh.
  cbv beta iota. cbn [service readings outbox].
  unfold model_round, model_at.
  destruct (healthyModels (service m)) as [|x l] eqn:Hlist; [contradiction|].
  reflexivity.
Qed.

Lemma selections_quiet (k : nat) (m : Machine) :
  healthyModels (service m) <> [] ->
  (forall j, (j < k)%nat ->
     clock (readings m + j)%nat - lastHealthCheck (service m) < 10000) ->
  fst (selections k m)
  = map (fun j => model_round (service m) (currentModelIndex (service m) + j)) (seq 0 k).
Proof.
  revert m. induction k as [|k IH]; intros m Hcycle Hfresh; [reflexivity|].
  cbn [selections]. unfold bind at 1.
  rewrite getNextModelInCycle_quiet;
    [| specialize (Hfresh 0%nat ltac:(lia)); now rewrite Nat.add_0_r in Hfresh
     | exact Hcycle ].
  set (m1 := {| service := set_currentModelIndex (S (currentModelIndex (service m))) (service m);
                readings := S (readings m); outbox := outbox m |}).
  unfold bind. specialize (IH m1).
  destruct (selections k m1) as [others m2]. cbn [fst] in *.
  rewrite IH.
  - cbn [seq map]. rewrite Nat.add_0_r. unfold ret. cbn [fst]. f_equal.
    rewrite <- seq_shift, map_map. apply map_ext. intros j.
    subst m1. unfold model_round. cbn [service set_currentModelIndex
      healthyModels currentModelIndex].
    replace (S (currentModelIndex (service m)) + j)%nat
      with (currentModelIndex (service m) + S j)%nat by lia.
    reflexivity.
  - exact Hcycle.
  - intros j Hj. specialize (Hfresh (S j) ltac:(lia)). cbn.
    replace (S (readings m + j)) with (readings m + S j)%nat by lia. exact Hfresh.
Qed.

Lemma round_is_rotation (l : list string) (i : nat) :
  map (fun j => default EmptyString (l !! ((i + j) mod length l)%nat)) (seq 0 (length l))
  = rotate i l.
Proof.
  apply list_eq. intros j. rewrite list_lookup_fmap.
  destruct (decide (j < length l)%nat) as [Hj|Hj].
  - rewrite lookup_seq_lt by exact Hj. cbn.
    rewrite lookup_rotate_r by exact Hj.
    assert (Hindex : rotate_nat_add i j (length l) = ((i + j) mod length l)%nat).
    { unfold rotate_nat_add. rewrite <- Nat2Z.inj_add, <- Nat2Z.inj_mod. apply Nat2Z.id. }
    rewrite Hindex.
    destruct (lookup_lt_is_Some_2 l ((i + j) mod length l)%nat) as [x Hx];
      [apply Nat.mod_upper_bound; lia|].
    rewrite Hx. reflexivity.
  - rewrite lookup_seq_ge by lia. cbn. symmetry. apply lookup_ge_None_2.
    rewrite length_rotate. lia.
Qed.

(** X21.  The round robin is fair.  While no recomputation of the cycle
    is due, as many selections as the cycle has models return the cycle
    itself, rotated to start at the current index: every healthy model
    is selected exactly once. *)
Theorem round_robin_is_fair (m : Machine) :
  let cycle := healthyModels (service m) in
  cycle <> [] ->
  (forall j, (j < length cycle)%nat ->
     clock (readings m + j)%nat - lastHealthCheck (service m) < 10000) ->
  fst (selections (length cycle) m) = rotate (currentModelIndex (service m)) cycle
  /\ fst (selections (length cycle) m) ≡ₚ cycle.
Proof.
  cbv zeta. intros Hcycle Hfresh.
  rewrite (selections_quiet _ m Hcycle Hfresh).
  unfold model_round. rewrite round_is_rotation. split; [reflexivity|].
  unfold rotate. rewrite Permutation_app_comm. now rewrite take_drop.
Qed.

End RoundRobin.

Lemma round_robin_is_fair_witness :
  fst (selections fast_clock 4
         (after fast_clock offline [SetApiKey "key"; GetNextModelInCycle]))
  = ["llama-3.1-8b"; "llama-4-scout-17b-16e-instruct"; "qwen-3-32b"; "llama-3.3-70b"].
Proof.
  refine (proj1 (round_robin_is_fair fast_clock
                   (after fast_clock offline [SetApiKey "key"; GetNextModelInCycle]) _ _)).
  - vm_compute. discriminate.
  - intros j Hj. do 4 (destruct j as [|j]; [vm_compute; reflexivity|]).
    vm_compute in Hj. lia.
Defined.

(** ** The fallback synthesis *)

Section FallbackSynthesis.

Import Specialist Fallback.

Lemma append_empty (x : string) : x +:+ EmptyString = x.
Proof.
  induction x as [|c x IH]; [reflexivity|].
  change (String c (x +:+ EmptyString) = String c x). f_equal. exact IH.
Qed.

Lemma includes_self (x : string) : includes x x = true.
Proof.
  pose proof (includes_prefix x EmptyString) as H. now rewrite append_empty in H.
Qed.

Lemma includes_join (separator x : string) (pieces : list string) :
  x ∈ pieces -> includes x (join separator pieces) = true.
Proof.
  induction pieces as [|piece rest IH]; intros Hin; [now apply elem_of_nil in Hin|].
  apply elem_of_cons in Hin as [->|Hin].
  - destruct rest as [|next rest]; [apply includes_self | apply includes_prefix].
  - destruct rest as [|next rest]; [now apply elem_of_nil in Hin|].
    change (join separator (piece :: next :: rest))
      with (piece +:+ separator +:+ join separator (next :: rest)).
    apply includes_skip, includes_skip. now apply IH.
Qed.

Lemma filter_length_bounds {A} (p : A -> bool) (l : list A) :
  (length (List.filter p l) <= length l)%nat.
Proof. apply List.filter_length_le. Qed.

(** X22.  The fallback synthesis always produces a report, whatever the
    five calls of [chat] did: the text of a section that succeeded is in
    the report, and a section that failed is replaced by a line that
    names it.  The number of calls it reports is not the number of calls
    it made: every section is counted once, and every section that
    succeeded once more; for [attemptSimpleSynthesis] that is five plus
    the number of sections that succeeded. *)
Theorem createMultiLLMSynthesis_assembles (allSources : list ResearchSource)
    (callCount totalWords : Z) (answers : list (Settled string)) :
  length answers = 5%nat ->
  let report := createMultiLLMSynthesis allSources callCount totalWords answers in
  (forall i section answer,
     sectionPrompts !! i = Some section -> answers !! i = Some answer ->
     match answer with
     | Fulfilled result => includes result (summary report) = true
     | Rejected _ => includes (failed_section (fst section)) (summary report) = true
     end)
  /\ processing_calls report
     = callCount + 5
       + Z.of_nat (length (List.filter (fun answer => negb (is_rejected answer)) answers))
  /\ callCount + 5 <= processing_calls report <= callCount + 10
  /\ processing_calls (attemptSimpleSynthesis allSources answers)
     = 5 + Z.of_nat (length (List.filter (fun answer => negb (is_rejected answer)) answers)).
Proof.
  intros Hfive report. subst report. unfold attemptSimpleSynthesis, createMultiLLMSynthesis.
  cbn [summary processing_calls].
  assert (Hlen : length (zip_with write sectionPrompts answers) = 5%nat)
    by (rewrite length_zip_with, Hfive; reflexivity).
  split; [|split; [|split]]; [| | | rewrite Hlen; lia].
  - intros i section answer Hsection Hanswer.
    assert (Hin : content (write section answer)
                  ∈ map content (zip_with write sectionPrompts answers)).
    { apply list_elem_of_fmap. exists (write section answer). split; [reflexivity|].
      apply list_elem_of_lookup. exists i.
      rewrite lookup_zip_with, Hsection. cbn. rewrite Hanswer. reflexivity. }
    destruct answer as [result|error]; cbn [write content] in Hin;
      now apply includes_join.
  - rewrite Hlen. lia.
  - rewrite Hlen.
    pose proof (filter_length_bounds (fun answer => negb (is_rejected answer)) answers).
    lia.
Qed.

End FallbackSynthesis.

Lemma createMultiLLMSynthesis_assembles_witness :
  Fallback.processing_calls
    (Fallback.createMultiLLMSynthesis [] 0 0
       [Fulfilled "summary"; Rejected "offline"; Fulfilled "market";
        Rejected "offline"; Fulfilled "sources"])
  = 0 + 5 + 3.
Proof.
  refine (proj1 (proj2 (createMultiLLMSynthesis_assembles [] 0 0
                          [Fulfilled "summary"; Rejected "offline"; Fulfilled "market";
                           Rejected "offline"; Fulfilled "sources"] _))).
  reflexivity.
Defined.

(** ** Setting the key *)

Section Keys.

Import Cerebras.

(** What [setApiKey] leaves alone. *)
Definition untouched (s : Service) : list string * nat * gmap string Z * gmap string Z * Z :=
  (healthyModels s, currentModelIndex s, modelRequestCounts s, modelRequestWindows s,
   lastHealthCheck s).

Lemma init_all (models : list string) (s : Service) (model : string) :
  let s' := fold_left init_model models s in
  apiKey s' = apiKey s
  /\ untouched s' = untouched s
  /\ (model ∈ models ->
      health_of s' model = true /\ failures_of s' model = 0 /\ lastFailure_of s' model = 0)
  /\ (model ∉ models ->
      health_of s' model = health_of s model
      /\ failures_of s' model = failures_of s model
      /\ lastFailure_of s' model = lastFailure_of s model).
Proof.
  revert s. induction models as [|x models IH]; intros s; cbn [fold_left].
  - split; [reflexivity|]. split; [reflexivity|].
    split; [intros Hnil; now apply elem_of_nil in Hnil | intros _; now split].
  - destruct (IH (init_model s x)) as (Hkey & Hrest & Hin & Hout).
    cbv zeta in *. split; [exact Hkey|]. split; [exact Hrest|]. split.
    + intros Hmem. destruct (decide (model ∈ models)) as [Hm|Hm]; [now apply Hin|].
      apply elem_of_cons in Hmem as [->|Hmem]; [|contradiction].
      destruct (Hout Hm) as (Hh & Hf & Hl). rewrite Hh, Hf, Hl.
      unfold health_of, failures_of, lastFailure_of, init_model. cbn.
      now rewrite !lookup_insert_eq.
    + intros Hmem. apply not_elem_of_cons in Hmem as [Hne Hm].
      destruct (Hout Hm) as (Hh & Hf & Hl). rewrite Hh, Hf, Hl.
      unfold health_of, failures_of, lastFailure_of, init_model. cbn.
      now rewrite !lookup_insert_ne by congruence.
Qed.

(** X23.  [setApiKey] stores the key and starts the failure tracking
    afresh: whatever the service went through, every configured model is
    healthy afterwards, with no failure counted and no failure time.
    The cycle, the position in it, the request counts and windows and
    the time of the last health check are left as they were. *)
Theorem setApiKey_starts_afresh (key : string) (s : Service) (model : string) :
  model ∈ availableModels ->
  let s' := setApiKey key s in
  apiKey s' = key
  /\ health_of s' model = true
  /\ failures_of s' model = 0
  /\ lastFailure_of s' model = 0
  /\ untouched s' = untouched s.
Proof.
  intros Hin. cbv zeta. unfold setApiKey.
  destruct (init_all availableModels (set_apiKey key s) model)
    as (Hkey & Hrest & Hset & _).
  destruct (Hset Hin) as (Hh & Hf & Hl).
  split; [exact Hkey|]. split; [exact Hh|]. split; [exact Hf|]. split; [exact Hl|].
  exact Hrest.
Qed.

End Keys.

Lemma setApiKey_starts_afresh_witness :
  Cerebras.failures_of
    (Cerebras.setApiKey "key" (Cerebras.service (after slow_clock offline three_failures)))
    "llama-3.3-70b" = 0.
Proof.
  refine (proj1 (proj2 (proj2 (setApiKey_starts_afresh "key"
            (Cerebras.service (after slow_clock offline three_failures))
            "llama-3.3-70b" _)))).
  apply list_elem_of_here.
Defined.
